(** * Sweep orchestrator of sol-transfer-backend

    A shallow embedding of the two server files of the repository,
    [src/api/index.js] and [src/unnamed/part_000] (modules [Api] and
    [Part000] below), and the properties of their sweep pipeline.

    Module-level state ([transactionLog], [monitoringTasks]), the console
    and the Solana connection are gathered in one record [World]; every
    function of the source becomes a computation in the state-and-exception
    monad [M].  What the network and the key libraries answer is not
    decided by the source: it is a parameter, [Externals]. *)

From stdpp Require Import gmap strings list fin_maps.
From Stdlib Require Import ZArith QArith Lia.

Local Open Scope Z_scope.

(** ** Values *)

(** Public keys and transaction signatures travel as base58 strings. *)
Abbreviation PublicKey := string (only parsing).
Abbreviation Signature := string (only parsing).

Record Keypair := { publicKey : PublicKey }.

(** A thrown JavaScript value: the constructor name and the message. *)
Record JsError := { err_name : string; err_message : string }.

Inductive Result (A : Type) : Type :=
| Ok (a : A)
| Err (e : JsError).
Arguments Ok {A} a.
Arguments Err {A} e.

(** [LAMPORTS_PER_SOL] of [@solana/web3.js]. *)
Definition LAMPORTS_PER_SOL : Z := 1000000000.

(** [x / LAMPORTS_PER_SOL] on JavaScript numbers.  The lamport counts are
    integers; the quotient is kept as the exact rational (the double the
    runtime holds is the one nearest to it). *)
Definition per_sol (x : Z) : Q := Qmake x (Z.to_pos LAMPORTS_PER_SOL).

(** The instructions the handlers put into a transaction. *)
Inductive Instruction :=
| SystemProgram_transfer (fromPubkey toPubkey : PublicKey) (lamports : Z)
| createAssociatedTokenAccountInstruction
    (payer associatedToken owner mint : PublicKey)
| createTransferInstruction
    (source destination owner : PublicKey) (amount : Z).

(** [new Transaction().add(i1, ..., ik)] *)
Record Transaction := { instructions : list Instruction }.

(** What a confirmation poll answers: [value.err] is [null] on success and
    the failure of the transaction on chain otherwise. *)
Record Confirmation := { value_err : option string }.

(** An element of [transactionLog]. *)
Record LogEntry := {
  signature : Signature;
  from : PublicKey;
  to : PublicKey;
  amount : Q;
  status : string
}.

(** [new Connection(clusterApiUrl(network), 'confirmed')]: the object is
    identified by its creation rank. *)
Record Connection := { conn_id : nat; endpoint : string }.

Inductive AssetKind := Native | Token.

(** The variables of [/start-monitoring] that the two notification handlers
    close over. *)
Record Closure := {
  compromisedWallet : Keypair;
  newSecureWalletPublicKey : PublicKey;
  closure_connection : Connection;
  closure_tokenMintAddress : option string
}.

(** A value of [monitoringTasks]; [handlers] stands for the two closures
    [handleAccountChange] and [handleTokenAccountChange] of the entry. *)
Record Task := {
  connection : Connection;
  subscriptionId : nat;
  handlers : Closure;
  tokenMintAddress : option string
}.

(** A live change listener held by the connection. *)
Record Subscription := {
  sub_connection : Connection;
  sub_id : nat;
  sub_kind : AssetKind;
  sub_account : PublicKey;
  sub_handler : Closure
}.

Inductive ConsoleArg :=
| Num (q : Q)
| Int (z : Z)
| Str (s : string)
| Thrown (e : JsError)
| Confirmed (c : option Confirmation).

Inductive Level := Log | Error.

(** One call of [console.log] or [console.error]: the literal text, with
    [$] for each interpolated or extra argument. *)
Record ConsoleLine := { level : Level; text : string; args : list ConsoleArg }.

(** One call of [connection.confirmTransaction]. *)
Record Poll := {
  poll_signature : Signature;
  poll_commitment : string;
  poll_timeout : Z
}.

(** ** The state *)

Record World := {
  transactionLog : list LogEntry;
  monitoringTasks : gmap string Task;
  connections : nat;                         (* connections created so far *)
  subscriptions : list Subscription;         (* listeners currently installed *)
  nextSubscriptionId : gmap nat nat;         (* per connection: its next handle *)
  sent : list (Transaction * list Keypair);  (* calls of sendTransaction *)
  polled : list Poll;                        (* calls of confirmTransaction *)
  console : list ConsoleLine;
  broadcasts : list (list LogEntry)          (* snapshots pushed over the WebSocket *)
}.

Definition initial : World := {|
  transactionLog := [];
  monitoringTasks := ∅;
  connections := 0%nat;
  subscriptions := [];
  nextSubscriptionId := ∅;
  sent := [];
  polled := [];
  console := [];
  broadcasts := []
|}.

Definition with_transactionLog (f : list LogEntry -> list LogEntry) (w : World) : World :=
  {| transactionLog := f (transactionLog w); monitoringTasks := monitoringTasks w;
     connections := connections w; subscriptions := subscriptions w;
     nextSubscriptionId := nextSubscriptionId w; sent := sent w;
     polled := polled w; console := console w; broadcasts := broadcasts w |}.

Definition with_monitoringTasks (f : gmap string Task -> gmap string Task) (w : World) : World :=
  {| transactionLog := transactionLog w; monitoringTasks := f (monitoringTasks w);
     connections := connections w; subscriptions := subscriptions w;
     nextSubscriptionId := nextSubscriptionId w; sent := sent w;
     polled := polled w; console := console w; broadcasts := broadcasts w |}.

Definition with_connections (f : nat -> nat) (w : World) : World :=
  {| transactionLog := transactionLog w; monitoringTasks := monitoringTasks w;
     connections := f (connections w); subscriptions := subscriptions w;
     nextSubscriptionId := nextSubscriptionId w; sent := sent w;
     polled := polled w; console := console w; broadcasts := broadcasts w |}.

Definition with_subscriptions (f : list Subscription -> list Subscription) (w : World) : World :=
  {| transactionLog := transactionLog w; monitoringTasks := monitoringTasks w;
     connections := connections w; subscriptions := f (subscriptions w);
     nextSubscriptionId := nextSubscriptionId w; sent := sent w;
     polled := polled w; console := console w; broadcasts := broadcasts w |}.

Definition with_nextSubscriptionId (f : gmap nat nat -> gmap nat nat) (w : World) : World :=
  {| transactionLog := transactionLog w; monitoringTasks := monitoringTasks w;
     connections := connections w; subscriptions := subscriptions w;
     nextSubscriptionId := f (nextSubscriptionId w); sent := sent w;
     polled := polled w; console := console w; broadcasts := broadcasts w |}.

Definition with_sent (f : list (Transaction * list Keypair) -> list (Transaction * list Keypair))
    (w : World) : World :=
  {| transactionLog := transactionLog w; monitoringTasks := monitoringTasks w;
     connections := connections w; subscriptions := subscriptions w;
     nextSubscriptionId := nextSubscriptionId w; sent := f (sent w);
     polled := polled w; console := console w; broadcasts := broadcasts w |}.

Definition with_polled (f : list Poll -> list Poll) (w : World) : World :=
  {| transactionLog := transactionLog w; monitoringTasks := monitoringTasks w;
     connections := connections w; subscriptions := subscriptions w;
     nextSubscriptionId := nextSubscriptionId w; sent := sent w;
     polled := f (polled w); console := console w; broadcasts := broadcasts w |}.

Definition with_console (f : list ConsoleLine -> list ConsoleLine) (w : World) : World :=
  {| transactionLog := transactionLog w; monitoringTasks := monitoringTasks w;
     connections := connections w; subscriptions := subscriptions w;
     nextSubscriptionId := nextSubscriptionId w; sent := sent w;
     polled := polled w; console := f (console w); broadcasts := broadcasts w |}.

Definition with_broadcasts (f : list (list LogEntry) -> list (list LogEntry)) (w : World) : World :=
  {| transactionLog := transactionLog w; monitoringTasks := monitoringTasks w;
     connections := connections w; subscriptions := subscriptions w;
     nextSubscriptionId := nextSubscriptionId w; sent := sent w;
     polled := polled w; console := console w; broadcasts := f (broadcasts w) |}.

(** ** The monad of the handlers: state, and exceptions that keep the state *)

Definition M (A : Type) : Type := World -> Result A * World.

Definition ret {A} (a : A) : M A := fun w => (Ok a, w).

Definition throw {A} (e : JsError) : M A := fun w => (Err e, w).

Definition bind {A B} (m : M A) (k : A -> M B) : M B :=
  fun w => match m w with
           | (Ok a, w') => k a w'
           | (Err e, w') => (Err e, w')
           end.

(** [try { body } catch (error) { handler }] *)
Definition try_catch {A} (body : M A) (handler : JsError -> M A) : M A :=
  fun w => match body w with
           | (Ok a, w') => (Ok a, w')
           | (Err e, w') => handler e w'
           end.

(** A library call that either returns or throws, without touching the state. *)
Definition lift {A} (r : Result A) : M A := fun w => (r, w).

Definition modify (f : World -> World) : M unit := fun w => (Ok tt, f w).

Declare Scope js_scope.
Delimit Scope js_scope with js.
Notation "x <- m ;; k" := (bind m (fun x => k))
  (at level 100, m at next level, right associativity) : js_scope.
Notation "m ;; k" := (bind m (fun _ => k))
  (at level 100, right associativity) : js_scope.
Local Open Scope js_scope.

Definition console_log (text : string) (args : list ConsoleArg) : M unit :=
  modify (with_console (fun c => c ++ [{| level := Log; text := text; args := args |}])).

Definition console_error (text : string) (args : list ConsoleArg) : M unit :=
  modify (with_console (fun c => c ++ [{| level := Error; text := text; args := args |}])).

(** ** External collaborators *)

(** The base58 alphabet, and the shape of a 32-byte key written in it. *)
Definition base58_alphabet : list Ascii.ascii :=
  String.list_ascii_of_string "123456789ABCDEFGHJKLMNPQRSTUVWXYZabcdefghijkmnopqrstuvwxyz".

Definition is_address (s : string) : bool :=
  forallb (fun c => existsb (Ascii.eqb c) base58_alphabet) (String.list_ascii_of_string s)
  && (32 <=? String.length s)%nat && (String.length s <=? 44)%nat.

(** What the source leaves to its libraries and to the network.
    - [keypairFromSeed] is the chain [bip39.mnemonicToSeed], [derivePath],
      [Keypair.fromSeed] applied to the seed phrase;
    - [newPublicKey] is [new PublicKey(s)], which throws on a malformed key;
    - [clusterApiUrl] throws on an unknown network name;
    - [getAssociatedTokenAddress mint owner] is the derived token account;
    - [sendTransaction_reply n tx] is what the cluster answers to the
      [n]-th call of [sendTransaction], and [confirmTransaction_reply n sig]
      what it answers to the [n]-th call of [confirmTransaction]: a value,
      or a thrown transport or timeout error. *)
Record Externals := {
  keypairFromSeed : string -> Result Keypair;
  newPublicKey : string -> Result PublicKey;
  clusterApiUrl : string -> Result string;
  getAssociatedTokenAddress : PublicKey -> PublicKey -> PublicKey;
  sendTransaction_reply : nat -> Transaction -> Result Signature;
  confirmTransaction_reply : nat -> Signature -> Result Confirmation;
  keypair_address : forall phrase kp,
    keypairFromSeed phrase = Ok kp -> is_address (publicKey kp) = true
}.

Section Server.

Variable ext : Externals.

(** [connection.sendTransaction(transaction, signers)] *)
Definition sendTransaction (transaction : Transaction) (signers : list Keypair) : M Signature :=
  fun w => (sendTransaction_reply ext (length (sent w)) transaction,
            with_sent (fun l => l ++ [(transaction, signers)]) w).

(** [connection.confirmTransaction(signature, commitment, { timeout })] *)
Definition confirmTransaction (sig : Signature) (commitment : string) (timeout : Z)
    : M Confirmation :=
  fun w => (confirmTransaction_reply ext (length (polled w)) sig,
            with_polled (fun l => l ++ [{| poll_signature := sig;
                                           poll_commitment := commitment;
                                           poll_timeout := timeout |}]) w).

(** [new Connection(clusterApiUrl(network), 'confirmed')]: a new object,
    which numbers its listeners from 0. *)
Definition newConnection (network : string) : M Connection :=
  url <- lift (clusterApiUrl ext network) ;;
  fun w => (Ok {| conn_id := connections w; endpoint := url |},
            with_nextSubscriptionId (insert (connections w) 0%nat)
              (with_connections S w)).

(** The handle a connection gives to the next listener installed on it. *)
Definition next_handle (c : Connection) (w : World) : nat :=
  default 0%nat (nextSubscriptionId w !! conn_id c).

(** Installing a listener on a connection returns the next handle of that
    connection. *)
Definition subscribe (kind : AssetKind) (c : Connection) (account : PublicKey)
    (handler : Closure) : M nat :=
  fun w => (Ok (next_handle c w),
            with_nextSubscriptionId (insert (conn_id c) (S (next_handle c w)))
              (with_subscriptions
                 (fun l => l ++ [{| sub_connection := c; sub_id := next_handle c w;
                                    sub_kind := kind; sub_account := account;
                                    sub_handler := handler |}]) w)).

Definition onAccountChange := subscribe Native.

(** What calling a method the object does not have throws. *)
Definition not_a_function (callee : string) : JsError :=
  {| err_name := "TypeError"; err_message := callee +:+ " is not a function" |}.

(** [connection.onTokenAccountChange(publicKey, handler)]: the [Connection]
    of [@solana/web3.js] has no method of that name (its listeners are
    [onAccountChange], [onProgramAccountChange], [onLogs], ...), so the
    call throws and no listener is installed. *)
Definition onTokenAccountChange (c : Connection) (account : PublicKey)
    (handler : Closure) : M nat :=
  throw (not_a_function "connection.onTokenAccountChange").

Definition AssetKind_eqb (a b : AssetKind) : bool :=
  match a, b with
  | Native, Native | Token, Token => true
  | _, _ => false
  end.

(** Is [s] the listener of kind [kind] that connection [c] knows as [id]? *)
Definition listener (kind : AssetKind) (c : Connection) (id : nat) (s : Subscription) : bool :=
  (conn_id (sub_connection s) =? conn_id c)%nat && (sub_id s =? id)%nat
  && AssetKind_eqb (sub_kind s) kind.

(** A removal call drops the listener of its own kind with that handle;
    any other handle is ignored. *)
Definition unsubscribe (kind : AssetKind) (c : Connection) (id : nat) : M unit :=
  modify (with_subscriptions
            (List.filter (fun s => negb (listener kind c id s)))).

Definition removeAccountChangeListener := unsubscribe Native.
Definition removeProgramAccountChangeListener := unsubscribe Token.

(** ** [confirmTransactionWithRetries]  (api/index.js 20-32, part_000 31-43;
    the two files have the same text) *)

(** One turn of the loop body.  [Some c] is [return c]; [None] lets the
    loop go on to [attempt++]. *)
Definition confirm_attempt (sig : Signature) (retries timeout attempt : Z)
    : M (option (option Confirmation)) :=
  try_catch
    (confirmation <- confirmTransaction sig "confirmed" timeout ;;
     ret (Some (Some confirmation)))
    (fun error =>
       if attempt =? retries - 1 then throw error
       else
         console_log "Retrying transaction confirmation, attempt $..." [Int (attempt + 1)] ;;
         ret None).

(** [for (let attempt = 0; attempt < retries; attempt++)], by recursion on
    the number of turns still to run: [attempt < retries] holds exactly
    when that number, [Z.to_nat (retries - attempt)], is not zero.  Falling
    out of the loop, the function returns [undefined], here [None]. *)
Fixpoint confirm_loop (sig : Signature) (retries timeout : Z)
    (turns : nat) (attempt : Z) : M (option Confirmation) :=
  match turns with
  | O => ret None
  | S turns' =>
      r <- confirm_attempt sig retries timeout attempt ;;
      match r with
      | Some confirmation => ret confirmation
      | None => confirm_loop sig retries timeout turns' (attempt + 1)
      end
  end.

Definition confirmTransactionWithRetries (sig : Signature) (retries timeout : Z)
    : M (option Confirmation) :=
  confirm_loop sig retries timeout (Z.to_nat (retries - 0)) 0.

(** ** The HTTP surface  (api/index.js 34-48 and 133-170,
    part_000 45-59 and 154-191; the same text in the two files) *)

(** Body of [POST /start-monitoring]. *)
Record StartRequest := {
  seed : list string;
  secureWalletPublicKey : string;
  network : string;
  body_tokenMintAddress : option string
}.

(** [res.status(s).json({ message, publicKey, error })] *)
Record Response := {
  http_status : nat;
  message : string;
  body_publicKey : option string;
  body_error : option string
}.

(** Truthiness of an optional string: [undefined] and [''] are falsy. *)
Definition truthy (v : option string) : bool :=
  match v with
  | Some s => negb (String.eqb s "")
  | None => false
  end.

Definition start_monitoring (req : StartRequest) : M Response :=
  let seedPhrase := String.concat " " (seed req) in
  try_catch
    (compromisedWallet <- lift (keypairFromSeed ext seedPhrase) ;;
     newSecureWalletPublicKey <- lift (newPublicKey ext (secureWalletPublicKey req)) ;;
     connection <- newConnection (network req) ;;
     console_log "Monitoring for incoming transactions on $ for address $"
       [Str (network req); Str (publicKey compromisedWallet)] ;;
     let closure := {| compromisedWallet := compromisedWallet;
                       newSecureWalletPublicKey := newSecureWalletPublicKey;
                       closure_connection := connection;
                       closure_tokenMintAddress := body_tokenMintAddress req |} in
     subscriptionId <-
       (if truthy (body_tokenMintAddress req)
        then onTokenAccountChange connection (publicKey compromisedWallet) closure
        else onAccountChange connection (publicKey compromisedWallet) closure) ;;
     modify (with_monitoringTasks
               (insert (publicKey compromisedWallet)
                  {| connection := connection;
                     subscriptionId := subscriptionId;
                     handlers := closure;
                     tokenMintAddress := body_tokenMintAddress req |})) ;;
     ret {| http_status := 200; message := "Monitoring started";
            body_publicKey := Some (publicKey compromisedWallet);
            body_error := None |})
    (fun error =>
       console_error "Error deriving key pair:" [Thrown error] ;;
       ret {| http_status := 500; message := "Error deriving key pair";
              body_publicKey := None;
              body_error := Some (err_message error) |}).

(** Property names every object inherits from [Object.prototype]. *)
Definition Object_prototype : list string :=
  ["constructor"; "__defineGetter__"; "__defineSetter__"; "hasOwnProperty";
   "__lookupGetter__"; "__lookupSetter__"; "isPrototypeOf";
   "propertyIsEnumerable"; "toString"; "valueOf"; "__proto__";
   "toLocaleString"].

(** [monitoringTasks[key]] on the plain object [monitoringTasks]: its own
    entry, else what the prototype holds under that name (a function or an
    object, truthy, with no [connection] field), else [undefined]. *)
Inductive Property :=
| Own (task : Task)
| Inherited
| Undefined.

Definition monitoringTasks_get (key : string) (w : World) : Property :=
  match monitoringTasks w !! key with
  | Some task => Own task
  | None => if existsb (String.eqb key) Object_prototype then Inherited else Undefined
  end.

Definition stop_monitoring (publicKey : string) : M Response :=
  fun w =>
    match monitoringTasks_get publicKey w with
    | Own task =>
        ((if truthy (tokenMintAddress task)
          then removeProgramAccountChangeListener (connection task) (subscriptionId task)
          else removeAccountChangeListener (connection task) (subscriptionId task)) ;;
         modify (with_monitoringTasks (delete publicKey)) ;;
         console_log "Monitoring stopped for $" [Str publicKey] ;;
         ret {| http_status := 200; message := "Monitoring stopped";
                body_publicKey := None; body_error := None |}) w
    | Inherited =>
        (* [connection] is [undefined]: the call on it throws *)
        throw {| err_name := "TypeError";
                 err_message := "Cannot read properties of undefined" |} w
    | Undefined =>
        ret {| http_status := 400;
               message := "Monitoring not found for this public key";
               body_publicKey := None; body_error := None |} w
    end.

(** [new PublicKey(tokenMintAddress)] on the captured, possibly missing,
    mint address. *)
Definition PublicKey_of (v : option string) : M PublicKey :=
  match v with
  | Some s => lift (newPublicKey ext s)
  | None => throw {| err_name := "Error"; err_message := "Invalid public key input" |}
  end.

(** [transactionLog.push(entry)] *)
Definition transactionLog_push (entry : LogEntry) : M unit :=
  modify (with_transactionLog (fun l => l ++ [entry])).

End Server.

(** Payload of a native-balance notification and of a token-balance one. *)
Record AccountInfo := { lamports : Z }.
Record TokenAccountInfo := { info_amount : Z; info_address : PublicKey }.

(** [SystemProgram.transfer({ fromPubkey, toPubkey, lamports })] of
    [@solana/web3.js] encodes the amount as an unsigned 64-bit integer when
    it builds the instruction: a negative amount cannot be encoded and the
    call throws.  (Balances stay far below 2^64.) *)
Module SystemProgram.

Definition negative_amount : JsError :=
  {| err_name := "RangeError"; err_message := "lamports cannot be encoded as u64" |}.

Definition transfer (fromPubkey toPubkey : PublicKey) (lamports : Z) : M Instruction :=
  if lamports <? 0 then throw negative_amount
  else ret (SystemProgram_transfer fromPubkey toPubkey lamports).

End SystemProgram.

(** ** The handlers of api/index.js *)
Module Api.
Section Handlers.

Variable ext : Externals.
Variable closure : Closure.

Let compromisedWallet := compromisedWallet closure.
Let newSecureWalletPublicKey := newSecureWalletPublicKey closure.
Let tokenMintAddress := closure_tokenMintAddress closure.

(** Sends the current log to the WebSocket clients (lines 183-190). *)
Definition broadcastTransactionLog : M unit :=
  fun w => (Ok tt, with_broadcasts (fun l => l ++ [transactionLog w]) w).

(** Lines 49-82. *)
Definition handleAccountChange (accountInfo : AccountInfo) : M unit :=
  let lamports := lamports accountInfo in
  if 0 <? lamports then
    console_log "Received $ SOL, transferring to secure wallet..." [Num (per_sol lamports)] ;;
    instruction <-
      SystemProgram.transfer (publicKey compromisedWallet)
        newSecureWalletPublicKey
        (lamports - 5000) ;;          (* built before the [try] *)
    let transaction := {| instructions := [instruction] |} in
    try_catch
      (signature <- sendTransaction ext transaction [compromisedWallet] ;;
       console_log "Transfer transaction sent with signature:" [Str signature] ;;
       confirmation <- confirmTransactionWithRetries ext signature 3 60000 ;;
       console_log "Transfer transaction confirmed:" [Confirmed confirmation] ;;
       transactionLog_push
         {| signature := signature;
            from := publicKey compromisedWallet;
            to := newSecureWalletPublicKey;
            amount := per_sol lamports;
            status := "confirmed" |} ;;
       broadcastTransactionLog)
      (fun error => console_error "Error transferring funds:" [Thrown error])
  else ret tt.

(** Lines 84-131. *)
Definition handleTokenAccountChange (accountInfo : TokenAccountInfo) : M unit :=
  let tokenAmount := info_amount accountInfo in
  if 0 <? tokenAmount then
    console_log "Received $ tokens, transferring to secure wallet..." [Int tokenAmount] ;;
    mint <- PublicKey_of ext tokenMintAddress ;;
    let associatedTokenAccount :=
      getAssociatedTokenAddress ext mint newSecureWalletPublicKey in
    mint' <- PublicKey_of ext tokenMintAddress ;;
    let transaction :=
      {| instructions :=
           [createAssociatedTokenAccountInstruction
              (publicKey compromisedWallet)
              associatedTokenAccount
              newSecureWalletPublicKey
              mint';
            createTransferInstruction
              (info_address accountInfo)
              associatedTokenAccount
              (publicKey compromisedWallet)
              tokenAmount] |} in
    try_catch
      (signature <- sendTransaction ext transaction [compromisedWallet] ;;
       console_log "Transfer transaction sent with signature:" [Str signature] ;;
       confirmation <- confirmTransactionWithRetries ext signature 3 60000 ;;
       console_log "Transfer transaction confirmed:" [Confirmed confirmation] ;;
       transactionLog_push
         {| signature := signature;
            from := publicKey compromisedWallet;
            to := newSecureWalletPublicKey;
            amount := inject_Z tokenAmount;
            status := "confirmed" |} ;;
       broadcastTransactionLog)
      (fun error => console_error "Error transferring tokens:" [Thrown error])
  else ret tt.

End Handlers.
End Api.

(** ** The handlers of src/unnamed/part_000 *)
Module Part000.

(** The names bound at the top level of the file: its imports (lines 1-20)
    and its own declarations. *)
Definition module_scope : list string :=
  ["express"; "bodyParser"; "cors";
   "Connection"; "clusterApiUrl"; "Keypair"; "PublicKey"; "Transaction";
   "SystemProgram"; "LAMPORTS_PER_SOL";
   "bip39"; "derivePath";
   "TOKEN_PROGRAM_ID"; "getAssociatedTokenAddress";
   "createAssociatedTokenAccountInstruction"; "createTransferInstruction";
   "app"; "port"; "transactionLog"; "monitoringTasks";
   "confirmTransactionWithRetries"].

(** Evaluating a free identifier of a handler: a name the module does not
    bind (and that is no global of the runtime) throws a
    [ReferenceError]. *)
Definition identifier (name : string) : M string :=
  if existsb (String.eqb name) module_scope then ret name
  else throw {| err_name := "ReferenceError";
                err_message := name +:+ " is not defined" |}.

(** [error instanceof C] *)
Definition instanceof (error : JsError) (C : string) : bool :=
  String.eqb (err_name error) C.

Section Handlers.

Variable ext : Externals.
Variable closure : Closure.

Let compromisedWallet := compromisedWallet closure.
Let newSecureWalletPublicKey := newSecureWalletPublicKey closure.
Let tokenMintAddress := closure_tokenMintAddress closure.

(** Lines 60-102. *)
Definition handleAccountChange (accountInfo : AccountInfo) : M unit :=
  let lamports := lamports accountInfo in
  if 0 <? lamports then
    console_log "Received $ SOL, transferring to secure wallet..." [Num (per_sol lamports)] ;;
    let transactionFee := 5000 in
    let lamportsToTransfer := lamports - transactionFee in
    if lamportsToTransfer <=? 0 then
      console_error "Not enough SOL to cover the transaction fee." []
    else
      instruction <-
        SystemProgram.transfer (publicKey compromisedWallet)
          newSecureWalletPublicKey
          lamportsToTransfer ;;
      let transaction := {| instructions := [instruction] |} in
      try_catch
        (signature <- sendTransaction ext transaction [compromisedWallet] ;;
         console_log "Transfer transaction sent with signature:" [Str signature] ;;
         confirmation <- confirmTransactionWithRetries ext signature 3 60000 ;;
         console_log "Transfer transaction confirmed:" [Confirmed confirmation] ;;
         transactionLog_push
           {| signature := signature;
              from := publicKey compromisedWallet;
              to := newSecureWalletPublicKey;
              amount := per_sol lamportsToTransfer;
              status := "confirmed" |})
        (fun error =>
           console_error "Error transferring funds:" [Thrown error] ;;
           SendTransactionError <- identifier "SendTransactionError" ;;
           if instanceof error SendTransactionError
           then console_error "Transaction Logs:" [Thrown error]
           else ret tt)
  else ret tt.

(** Lines 104-152. *)
Definition handleTokenAccountChange (accountInfo : TokenAccountInfo) : M unit :=
  let tokenAmount := info_amount accountInfo in
  if 0 <? tokenAmount then
    console_log "Received $ tokens, transferring to secure wallet..." [Int tokenAmount] ;;
    mint <- PublicKey_of ext tokenMintAddress ;;
    let associatedTokenAccount :=
      getAssociatedTokenAddress ext mint newSecureWalletPublicKey in
    mint' <- PublicKey_of ext tokenMintAddress ;;
    let transaction :=
      {| instructions :=
           [createAssociatedTokenAccountInstruction
              (publicKey compromisedWallet)
              associatedTokenAccount
              newSecureWalletPublicKey
              mint';
            createTransferInstruction
              (info_address accountInfo)
              associatedTokenAccount
              (publicKey compromisedWallet)
              tokenAmount] |} in
    try_catch
      (signature <- sendTransaction ext transaction [compromisedWallet] ;;
       console_log "Transfer transaction sent with signature:" [Str signature] ;;
       confirmation <- confirmTransactionWithRetries ext signature 3 60000 ;;
       console_log "Transfer transaction confirmed:" [Confirmed confirmation] ;;
       transactionLog_push
         {| signature := signature;
            from := publicKey compromisedWallet;
            to := newSecureWalletPublicKey;
            amount := inject_Z tokenAmount;
            status := "confirmed" |})
      (fun error =>
         console_error "Error transferring tokens:" [Thrown error] ;;
         SendTransactionError <- identifier "SendTransactionError" ;;
         if instanceof error SendTransactionError
         then console_error "Transaction Logs:" [Thrown error]
         else ret tt)
  else ret tt.

End Handlers.
End Part000.

(** ** The whole server as a transition system *)

Inductive SourceFile := api_index_js | part_000.

(** What can happen to the server: a request on the HTTP surface, or the
    cluster notifying the [n]-th installed listener of a change. *)
Inductive Event :=
| StartMonitoring (req : StartRequest)
| StopMonitoring (publicKey : string)
| AccountChange (n : nat) (accountInfo : AccountInfo)
| TokenAccountChange (n : nat) (accountInfo : TokenAccountInfo).

Definition native_handler (file : SourceFile) :=
  match file with
  | api_index_js => Api.handleAccountChange
  | part_000 => Part000.handleAccountChange
  end.

Definition token_handler (file : SourceFile) :=
  match file with
  | api_index_js => Api.handleTokenAccountChange
  | part_000 => Part000.handleTokenAccountChange
  end.

(** One event, run to completion.  A notification reaches the handler that
    was installed with the listener, and only a listener of its kind. *)
Definition step (file : SourceFile) (ext : Externals) (e : Event) (w : World) : World :=
  match e with
  | StartMonitoring req => snd (start_monitoring ext req w)
  | StopMonitoring key => snd (stop_monitoring key w)
  | AccountChange n accountInfo =>
      match subscriptions w !! n with
      | Some s =>
          match sub_kind s with
          | Native => snd (native_handler file ext (sub_handler s) accountInfo w)
          | Token => w
          end
      | None => w
      end
  | TokenAccountChange n accountInfo =>
      match subscriptions w !! n with
      | Some s =>
          match sub_kind s with
          | Token => snd (token_handler file ext (sub_handler s) accountInfo w)
          | Native => w
          end
      | None => w
      end
  end.

Definition run (file : SourceFile) (ext : Externals) (events : list Event) (w : World) : World :=
  fold_left (fun w e => step file ext e w) events w.

(** Number of listeners installed for an account. *)
Definition active_subscriptions (account : PublicKey) (w : World) : nat :=
  length (List.filter (fun s => String.eqb (sub_account s) account) (subscriptions w)).

(** The address a start request is about, when its key derivation succeeds. *)
Definition start_address (ext : Externals) (req : StartRequest) : option PublicKey :=
  match keypairFromSeed ext (String.concat " " (seed req)) with
  | Ok kp => Some (publicKey kp)
  | Err _ => None
  end.

(** No start is issued for an address that is in the registry at that
    moment. *)
Fixpoint starts_fresh (file : SourceFile) (ext : Externals) (events : list Event) (w : World) : bool :=
  match events with
  | [] => true
  | e :: events' =>
      match e with
      | StartMonitoring req =>
          match start_address ext req with
          | Some a => bool_decide (monitoringTasks w !! a = None)
          | None => true
          end
      | _ => true
      end && starts_fresh file ext events' (step file ext e w)
  end.

(** ** Concrete collaborators, for running the model *)

Definition wallet_A : Keypair :=
  {| publicKey := "7xKXtg2CW87d97TXJSDpbD5jBkheTqA83TZRuJosgAsU" |}.
Definition secure_B : PublicKey := "9WzDXwBbmkg8ZTbNMqUxvQRAyrZzDsGYdLVL9zYtAWWM".
Definition mint_C : PublicKey := "EPjFWdd5AufqSSqeM2qN1xzybapC8G4wEGGkZwyTDt1v".

(** [wallet_A] carries a well-formed address. *)
Definition wallet_A_address (phrase : string) (kp : Keypair)
    (H : @Ok Keypair wallet_A = Ok kp) : is_address (publicKey kp) = true :=
  match H in (_ = r)
        return (match r with
                | Ok k => is_address (publicKey k) = true
                | Err _ => True
                end)
  with
  | eq_refl => eq_refl
  end.

(** A cluster that accepts every transaction and confirms it at the first
    poll; every seed phrase derives [wallet_A]. *)
Definition cluster_ok : Externals := {|
  keypairFromSeed := fun _ => Ok wallet_A;
  newPublicKey := fun s => Ok s;
  clusterApiUrl := fun n => Ok ("https://api." +:+ n +:+ ".solana.com");
  getAssociatedTokenAddress := fun mint owner => "ata:" +:+ mint +:+ ":" +:+ owner;
  sendTransaction_reply := fun n _ => Ok "sig";
  confirmTransaction_reply := fun _ _ => Ok {| value_err := None |};
  keypair_address := fun phrase kp => wallet_A_address phrase kp
|}.

(** A cluster that rejects every transaction. *)
Definition cluster_rejecting : Externals := {|
  keypairFromSeed := fun _ => Ok wallet_A;
  newPublicKey := fun s => Ok s;
  clusterApiUrl := fun n => Ok ("https://api." +:+ n +:+ ".solana.com");
  getAssociatedTokenAddress := fun mint owner => "ata:" +:+ mint +:+ ":" +:+ owner;
  sendTransaction_reply := fun n _ =>
    Err {| err_name := "SendTransactionError"; err_message := "Transaction simulation failed" |};
  confirmTransaction_reply := fun _ _ => Ok {| value_err := None |};
  keypair_address := fun phrase kp => wallet_A_address phrase kp
|}.

Definition timeout_error : JsError :=
  {| err_name := "TransactionExpiredTimeoutError"; err_message := "not confirmed in 60.00 seconds" |}.

(** A cluster whose first two confirmation polls time out. *)
Definition cluster_slow : Externals := {|
  keypairFromSeed := fun _ => Ok wallet_A;
  newPublicKey := fun s => Ok s;
  clusterApiUrl := fun n => Ok ("https://api." +:+ n +:+ ".solana.com");
  getAssociatedTokenAddress := fun mint owner => "ata:" +:+ mint +:+ ":" +:+ owner;
  sendTransaction_reply := fun n _ => Ok "sig";
  confirmTransaction_reply := fun n _ =>
    if (n <? 2)%nat then Err timeout_error else Ok {| value_err := Some "InstructionError" |};
  keypair_address := fun phrase kp => wallet_A_address phrase kp
|}.

(** A cluster that never answers a confirmation poll. *)
Definition cluster_silent : Externals := {|
  keypairFromSeed := fun _ => Ok wallet_A;
  newPublicKey := fun s => Ok s;
  clusterApiUrl := fun n => Ok ("https://api." +:+ n +:+ ".solana.com");
  getAssociatedTokenAddress := fun mint owner => "ata:" +:+ mint +:+ ":" +:+ owner;
  sendTransaction_reply := fun n _ => Ok "sig";
  confirmTransaction_reply := fun n _ => Err timeout_error;
  keypair_address := fun phrase kp => wallet_A_address phrase kp
|}.

Definition closure_A : Closure := {|
  compromisedWallet := wallet_A;
  newSecureWalletPublicKey := secure_B;
  closure_connection := {| conn_id := 0; endpoint := "https://api.devnet.solana.com" |};
  closure_tokenMintAddress := None
|}.

Definition closure_A_token : Closure := {|
  compromisedWallet := wallet_A;
  newSecureWalletPublicKey := secure_B;
  closure_connection := {| conn_id := 0; endpoint := "https://api.devnet.solana.com" |};
  closure_tokenMintAddress := Some mint_C
|}.

Definition start_A : StartRequest := {|
  seed := ["abandon"; "ability"; "able"];
  secureWalletPublicKey := secure_B;
  network := "devnet";
  body_tokenMintAddress := None
|}.

(** ** Vocabulary of the statements *)

(** The poll [confirmTransactionWithRetries] issues for a signature. *)
Definition poll_of (sig : Signature) (timeout : Z) : Poll :=
  {| poll_signature := sig; poll_commitment := "confirmed"; poll_timeout := timeout |}.

(** [w'] differs from [w] at most by confirmation polls and console lines. *)
Definition polling_only (w w' : World) : Prop :=
  transactionLog w' = transactionLog w /\
  monitoringTasks w' = monitoringTasks w /\
  connections w' = connections w /\
  subscriptions w' = subscriptions w /\
  nextSubscriptionId w' = nextSubscriptionId w /\
  sent w' = sent w /\
  broadcasts w' = broadcasts w.

(** [w'] has the registry and the listeners of [w]. *)
Definition same_watches (w w' : World) : Prop :=
  monitoringTasks w' = monitoringTasks w /\
  connections w' = connections w /\
  subscriptions w' = subscriptions w /\
  nextSubscriptionId w' = nextSubscriptionId w.

(** The reply of the cluster to the [k]-th poll counted from state [w]. *)
Definition reply_from (ext : Externals) (w : World) (sig : Signature) (k : nat)
    : Result Confirmation :=
  confirmTransaction_reply ext (length (polled w) + k)%nat sig.

Definition is_Err {A} (r : Result A) : Prop :=
  match r with
  | Err _ => True
  | Ok _ => False
  end.

(** Within three polls counted from [w], the cluster answers [c], every
    earlier poll having thrown. *)
Definition answered (ext : Externals) (w : World) (sig : Signature) (c : Confirmation) : Prop :=
  exists k, (k < 3)%nat /\
            (forall j, (j < k)%nat -> is_Err (reply_from ext w sig j)) /\
            reply_from ext w sig k = Ok c.

(** The three polls counted from [w] all throw, the last one [e]. *)
Definition exhausted (ext : Externals) (w : World) (sig : Signature) (e : JsError) : Prop :=
  (forall j, (j < 2)%nat -> is_Err (reply_from ext w sig j)) /\
  reply_from ext w sig 2 = Err e.

(** The statements of the [try] block of a handler, up to the push on
    [transactionLog].  It is not a function of the source: the four
    handlers spell these statements out, and are compared with it below. *)
Definition sweep (ext : Externals) (transaction : Transaction) (signers : list Keypair)
    (entry : Signature -> LogEntry) : M unit :=
  signature <- sendTransaction ext transaction signers ;;
  console_log "Transfer transaction sent with signature:" [Str signature] ;;
  confirmation <- confirmTransactionWithRetries ext signature 3 60000 ;;
  console_log "Transfer transaction confirmed:" [Confirmed confirmation] ;;
  transactionLog_push (entry signature).

(** The transaction of the native sweep, and the entry logged for it. *)
Definition native_transaction (closure : Closure) (amount : Z) : Transaction :=
  {| instructions :=
       [SystemProgram_transfer (publicKey (compromisedWallet closure))
          (newSecureWalletPublicKey closure) amount] |}.

Definition sweep_entry (closure : Closure) (amount : Q) (sig : Signature) : LogEntry :=
  {| signature := sig;
     from := publicKey (compromisedWallet closure);
     to := newSecureWalletPublicKey closure;
     amount := amount;
     status := "confirmed" |}.

(** The transaction of the token sweep, for the parsed mint. *)
Definition token_transaction (ext : Externals) (closure : Closure) (mint : PublicKey)
    (accountInfo : TokenAccountInfo) : Transaction :=
  let associatedTokenAccount :=
    getAssociatedTokenAddress ext mint (newSecureWalletPublicKey closure) in
  {| instructions :=
       [createAssociatedTokenAccountInstruction
          (publicKey (compromisedWallet closure))
          associatedTokenAccount
          (newSecureWalletPublicKey closure)
          mint;
        createTransferInstruction
          (info_address accountInfo)
          associatedTokenAccount
          (publicKey (compromisedWallet closure))
          (info_amount accountInfo)] |}.

(** The asset kind of a registry entry: a watch is a token watch exactly
    when it was started with a truthy [tokenMintAddress]. *)
Definition asset_kind (task : Task) : AssetKind :=
  if truthy (tokenMintAddress task) then Token else Native.

(** The registry entry and the listener a successful start creates: the
    connection is new, and the listener is the first installed on it. *)
Definition started_task (req : StartRequest) (kp : Keypair) (dest : PublicKey)
    (url : string) (w : World) : Task :=
  let c := {| conn_id := connections w; endpoint := url |} in
  {| connection := c;
     subscriptionId := 0%nat;
     handlers := {| compromisedWallet := kp;
                    newSecureWalletPublicKey := dest;
                    closure_connection := c;
                    closure_tokenMintAddress := body_tokenMintAddress req |};
     tokenMintAddress := body_tokenMintAddress req |}.

Definition listener_of (account : PublicKey) (task : Task) : Subscription :=
  {| sub_connection := connection task;
     sub_id := subscriptionId task;
     sub_kind := asset_kind task;
     sub_account := account;
     sub_handler := handlers task |}.

Definition started (a : PublicKey) : Response :=
  {| http_status := 200; message := "Monitoring started";
     body_publicKey := Some a; body_error := None |}.

Definition not_found : Response :=
  {| http_status := 400; message := "Monitoring not found for this public key";
     body_publicKey := None; body_error := None |}.

Definition stopped : Response :=
  {| http_status := 200; message := "Monitoring stopped";
     body_publicKey := None; body_error := None |}.

(** Every installed listener is the one its account is registered with,
    and no two are installed for the same account. *)
Definition tracked (w : World) : Prop :=
  NoDup (map sub_account (subscriptions w)) /\
  forall s, In s (subscriptions w) ->
    exists task, monitoringTasks w !! sub_account s = Some task /\
                 listener (asset_kind task) (connection task) (subscriptionId task) s = true.

(** The keys of the registry are well-formed addresses. *)
Definition keys_are_addresses (w : World) : Prop :=
  forall a task, monitoringTasks w !! a = Some task -> is_address a = true.

(** The installed listeners sit on connections created already. *)
Definition connections_issued (w : World) : Prop :=
  forall s, In s (subscriptions w) -> (conn_id (sub_connection s) < connections w)%nat.

(** A computation that leaves the registry and the listeners alone. *)
Definition keeps_watches {A} (m : M A) : Prop :=
  forall w, same_watches w (snd (m w)).

(** The line a [catch] block writes for the error it caught. *)
Definition error_line (text : string) (e : JsError) : ConsoleLine :=
  {| level := Error; text := text; args := [Thrown e] |}.

(** What evaluating [SendTransactionError] throws in part_000. *)
Definition SendTransactionError_unbound : JsError :=
  {| err_name := "ReferenceError";
     err_message := "SendTransactionError is not defined" |}.

(** The [try]/[catch] statement of a handler of api/index.js, and of a
    handler of part_000, over the pipeline [sweep]. *)
Definition api_try (ext : Externals) (transaction : Transaction) (signers : list Keypair)
    (entry : Signature -> LogEntry) (text : string) : M unit :=
  try_catch
    (sweep ext transaction signers entry ;; Api.broadcastTransactionLog)
    (fun error => console_error text [Thrown error]).

Definition part000_try (ext : Externals) (transaction : Transaction) (signers : list Keypair)
    (entry : Signature -> LogEntry) (text : string) : M unit :=
  try_catch
    (sweep ext transaction signers entry)
    (fun error =>
       console_error text [Thrown error] ;;
       SendTransactionError <- Part000.identifier "SendTransactionError" ;;
       if Part000.instanceof error SendTransactionError
       then console_error "Transaction Logs:" [Thrown error]
       else ret tt).

(** ** The rest of the HTTP surface, and more collaborators *)

(** [GET /transactions] (api/index.js 172-174, part_000 193-195) answers
    the whole log. *)
Definition get_transactions : M (list LogEntry) :=
  fun w => (Ok (transactionLog w), w).

Definition invalid_public_key : JsError :=
  {| err_name := "Error"; err_message := "Invalid public key input" |}.

Definition unknown_network : JsError :=
  {| err_name := "Error"; err_message := "Unknown http endpoint" |}.

(** Libraries that check their input: a string that is no base58 key is no
    public key, and only the three public clusters are known (a missing
    name stands for devnet); the key derivation accepts any phrase.  The
    cluster accepts and confirms. *)
Definition cluster_strict : Externals := {|
  keypairFromSeed := fun _ => Ok wallet_A;
  newPublicKey := fun s => if is_address s then Ok s else Err invalid_public_key;
  clusterApiUrl := fun n =>
    if String.eqb n "" then Ok "https://api.devnet.solana.com"
    else if existsb (String.eqb n) ["devnet"; "testnet"; "mainnet-beta"]
    then Ok ("https://api." +:+ n +:+ ".solana.com")
    else Err unknown_network;
  getAssociatedTokenAddress := fun mint owner => "ata:" +:+ mint +:+ ":" +:+ owner;
  sendTransaction_reply := fun n _ => Ok "sig";
  confirmTransaction_reply := fun _ _ => Ok {| value_err := None |};
  keypair_address := fun phrase kp => wallet_A_address phrase kp
|}.

Definition start_A_token : StartRequest := {|
  seed := ["abandon"; "ability"; "able"];
  secureWalletPublicKey := secure_B;
  network := "devnet";
  body_tokenMintAddress := Some mint_C
|}.

(** A start request is turned down with [e]: one of the three library
    calls of the [try] block throws it, the earlier ones having returned. *)
Definition start_rejected (ext : Externals) (req : StartRequest) (e : JsError) : Prop :=
  keypairFromSeed ext (String.concat " " (seed req)) = Err e \/
  (exists kp, keypairFromSeed ext (String.concat " " (seed req)) = Ok kp /\
              newPublicKey ext (secureWalletPublicKey req) = Err e) \/
  (exists kp dest, keypairFromSeed ext (String.concat " " (seed req)) = Ok kp /\
                   newPublicKey ext (secureWalletPublicKey req) = Ok dest /\
                   clusterApiUrl ext (network req) = Err e).

(** What one event may do to the cluster record and to the ledger: nothing,
    or one submission, at most three polls and at most one entry, with
    status "confirmed", which api/index.js broadcasts with the log. *)
Definition event_effect (file : SourceFile) (w w' : World) : Prop :=
  (sent w' = sent w /\ polled w' = polled w /\
   transactionLog w' = transactionLog w /\ broadcasts w' = broadcasts w) \/
  (exists tx,
      sent w' = sent w ++ [tx] /\
      (length (polled w) <= length (polled w') <= length (polled w) + 3)%nat /\
      ((transactionLog w' = transactionLog w /\ broadcasts w' = broadcasts w) \/
       (exists entry,
           status entry = "confirmed" /\
           transactionLog w' = transactionLog w ++ [entry] /\
           broadcasts w'
           = broadcasts w ++ match file with
                             | api_index_js => [transactionLog w ++ [entry]]
                             | part_000 => []
                             end))).

(** Every registry entry has its listener installed, and no two installed
    listeners sit on the same connection. *)
Definition registered (w : World) : Prop :=
  NoDup (map (fun s => conn_id (sub_connection s)) (subscriptions w)) /\
  forall a task, monitoringTasks w !! a = Some task ->
                 In (listener_of a task) (subscriptions w).

(** The state a start leaves when it is accepted: a new connection, one
    console line, one native listener with the first handle of that
    connection, and the registry entry. *)
Definition after_start (req : StartRequest) (kp : Keypair) (dest : PublicKey)
    (url : string) (w : World) : World :=
  with_monitoringTasks
    (insert (publicKey kp) (started_task req kp dest url w))
    (with_nextSubscriptionId (insert (connections w) 1%nat)
       (with_subscriptions
          (fun l => l ++ [listener_of (publicKey kp) (started_task req kp dest url w)])
          (with_console
             (fun c => c ++ [{| level := Log;
                                text := "Monitoring for incoming transactions on $ for address $";
                                args := [Str (network req); Str (publicKey kp)] |}])
             (with_nextSubscriptionId (insert (connections w) 0%nat)
                (with_connections S w))))).

(** The state a start with a truthy mint address leaves: the connection
    was created and announced, then the subscription call threw. *)
Definition after_token_start (req : StartRequest) (kp : Keypair) (w : World) : World :=
  with_console
    (fun c => c ++ [{| level := Error; text := "Error deriving key pair:";
                       args := [Thrown (not_a_function "connection.onTokenAccountChange")] |}])
    (with_console
       (fun c => c ++ [{| level := Log;
                          text := "Monitoring for incoming transactions on $ for address $";
                          args := [Str (network req); Str (publicKey kp)] |}])
       (with_nextSubscriptionId (insert (connections w) 0%nat)
          (with_connections S w))).

(** The answer of a start whose [try] block threw [e]. *)
Definition start_failed (e : JsError) : Response :=
  {| http_status := 500; message := "Error deriving key pair";
     body_publicKey := None; body_error := Some (err_message e) |}.

(** A second wallet, and collaborators that derive it from one phrase. *)
Definition wallet_D : Keypair :=
  {| publicKey := "4Nd1mBQtrMJVYVfKf2PJy9NZUZdTAsp7D4xWLs4gDB4T" |}.

Definition two_wallets_address (phrase : string) (kp : Keypair) :
    (if String.eqb phrase "dune dust dwarf" then Ok wallet_D else Ok wallet_A) = Ok kp ->
    is_address (publicKey kp) = true :=
  match String.eqb phrase "dune dust dwarf" as b
        return ((if b then Ok wallet_D else Ok wallet_A) = Ok kp ->
                is_address (publicKey kp) = true)
  with
  | true => fun H =>
      match H in (_ = r)
            return (match r with
                    | Ok k => is_address (publicKey k) = true
                    | Err _ => True
                    end)
      with
      | eq_refl => eq_refl
      end
  | false => wallet_A_address phrase kp
  end.

Definition cluster_two_wallets : Externals := {|
  keypairFromSeed := fun phrase =>
    if String.eqb phrase "dune dust dwarf" then Ok wallet_D else Ok wallet_A;
  newPublicKey := fun s => Ok s;
  clusterApiUrl := fun n => Ok ("https://api." +:+ n +:+ ".solana.com");
  getAssociatedTokenAddress := fun mint owner => "ata:" +:+ mint +:+ ":" +:+ owner;
  sendTransaction_reply := fun n _ => Ok "sig";
  confirmTransaction_reply := fun _ _ => Ok {| value_err := None |};
  keypair_address := two_wallets_address
|}.

Definition start_D : StartRequest := {|
  seed := ["dune"; "dust"; "dwarf"];
  secureWalletPublicKey := secure_B;
  network := "devnet";
  body_tokenMintAddress := None
|}.

(** A state written by hand, which no start produces: the registry holds a
    token watch for [wallet_A], whose token listener is installed beside a
    native listener of [wallet_D]. *)
Definition token_task_A : Task := {|
  connection := {| conn_id := 0; endpoint := "https://api.devnet.solana.com" |};
  subscriptionId := 0%nat;
  handlers := closure_A_token;
  tokenMintAddress := Some mint_C
|}.

Definition native_listener_D : Subscription := {|
  sub_connection := {| conn_id := 1; endpoint := "https://api.devnet.solana.com" |};
  sub_id := 0%nat;
  sub_kind := Native;
  sub_account := publicKey wallet_D;
  sub_handler := closure_A
|}.

Definition token_watch_state : World :=
  with_monitoringTasks (insert (publicKey wallet_A) token_task_A)
    (with_subscriptions
       (fun _ => [listener_of (publicKey wallet_A) token_task_A; native_listener_D])
       (with_connections (fun _ => 2%nat) initial)).

(** A ledger entry is backed by the cluster record: a submission was
    answered with its signature, and a confirmation poll for that
    signature was answered. *)
Definition recorded_sweep (ext : Externals) (w : World) (entry : LogEntry) : Prop :=
  exists n tx p,
    sent w !! n = Some tx /\
    sendTransaction_reply ext n (fst tx) = Ok (signature entry) /\
    polled w !! p = Some (poll_of (signature entry) 60000) /\
    exists c, confirmTransaction_reply ext p (signature entry) = Ok c.

(** One event only appends to the cluster record, and it appends an entry
    to the ledger only when the transaction it submitted was accepted,
    with the entry's signature, and one of its polls for that signature,
    the last it made, was answered. *)
Definition event_record (ext : Externals) (w w' : World) : Prop :=
  (exists txs, sent w' = sent w ++ txs) /\
  (exists polls, polled w' = polled w ++ polls) /\
  (transactionLog w' = transactionLog w \/
   exists entry tx k c,
     transactionLog w' = transactionLog w ++ [entry] /\
     status entry = "confirmed" /\
     sent w' = sent w ++ [tx] /\
     sendTransaction_reply ext (length (sent w)) (fst tx) = Ok (signature entry) /\
     (k < 3)%nat /\
     polled w' = polled w ++ replicate (S k) (poll_of (signature entry) 60000) /\
     reply_from ext w (signature entry) k = Ok c).

(** * Properties *)

Ltac js_unfold :=
  unfold console_log, console_error, transactionLog_push, Api.broadcastTransactionLog,
    sendTransaction, confirmTransaction, bind, ret, throw, try_catch, lift, modify in *.

(** ** The confirmation retrier *)

Section Retrier.

Variable ext : Externals.
Variables (sig : Signature) (retries timeout : Z).

Lemma polling_only_refl w : polling_only w w.
Proof. repeat split. Qed.

Lemma polling_only_trans w1 w2 w3 :
  polling_only w1 w2 -> polling_only w2 w3 -> polling_only w1 w3.
Proof.
  unfold polling_only. intros (?&?&?&?&?&?&?) (?&?&?&?&?&?&?).
  repeat split; congruence.
Qed.

Lemma confirm_attempt_answer attempt w c :
  reply_from ext w sig 0 = Ok c ->
  confirm_attempt ext sig retries timeout attempt w
  = (Ok (Some (Some c)), with_polled (fun l => l ++ [poll_of sig timeout]) w).
Proof.
  unfold reply_from, confirm_attempt. rewrite Nat.add_0_r. intros H.
  js_unfold. rewrite H. reflexivity.
Qed.

Lemma confirm_attempt_last attempt w e :
  reply_from ext w sig 0 = Err e ->
  attempt = retries - 1 ->
  confirm_attempt ext sig retries timeout attempt w
  = (Err e, with_polled (fun l => l ++ [poll_of sig timeout]) w).
Proof.
  unfold reply_from, confirm_attempt. rewrite Nat.add_0_r. intros H ->.
  js_unfold. rewrite H, Z.eqb_refl. reflexivity.
Qed.

Lemma confirm_attempt_retry attempt w e :
  reply_from ext w sig 0 = Err e ->
  attempt <> retries - 1 ->
  confirm_attempt ext sig retries timeout attempt w
  = (Ok None,
     with_console
       (fun c => c ++ [{| level := Log;
                          text := "Retrying transaction confirmation, attempt $...";
                          args := [Int (attempt + 1)] |}])
       (with_polled (fun l => l ++ [poll_of sig timeout]) w)).
Proof.
  unfold reply_from, confirm_attempt. rewrite Nat.add_0_r. intros H Hne.
  js_unfold. rewrite H. destruct (Z.eqb_spec attempt (retries - 1)); [lia|].
  reflexivity.
Qed.

(** The recursion on [turns] is the source's loop: with
    [turns = retries - attempt], a turn is run exactly when
    [attempt < retries]. *)
Lemma confirm_loop_guard attempt :
  attempt < retries <-> Z.to_nat (retries - attempt) <> 0%nat.
Proof. lia. Qed.

Lemma confirm_loop_next attempt :
  attempt < retries ->
  Z.to_nat (retries - attempt) = S (Z.to_nat (retries - (attempt + 1))).
Proof. lia. Qed.

Lemma confirm_loop_turn turns attempt w :
  confirm_loop ext sig retries timeout (S turns) attempt w
  = match confirm_attempt ext sig retries timeout attempt w with
    | (Ok (Some confirmation), w') => (Ok confirmation, w')
    | (Ok None, w') => confirm_loop ext sig retries timeout turns (attempt + 1) w'
    | (Err e, w') => (Err e, w')
    end.
Proof.
  cbn [confirm_loop]. unfold bind at 1.
  destruct (confirm_attempt ext sig retries timeout attempt w) as [[[c|]|e] w'];
    reflexivity.
Qed.

(** The loop touches nothing but the poll record and the console. *)
Lemma confirm_loop_frame turns : forall attempt w,
  polling_only w (snd (confirm_loop ext sig retries timeout turns attempt w)).
Proof.
  induction turns as [|turns IH]; intros attempt w.
  - apply polling_only_refl.
  - rewrite confirm_loop_turn.
    destruct (reply_from ext w sig 0) as [c|e] eqn:Hr.
    + rewrite (confirm_attempt_answer _ _ _ Hr). simpl. repeat split.
    + destruct (Z.eq_dec attempt (retries - 1)) as [Heq|Hne].
      * rewrite (confirm_attempt_last _ _ _ Hr Heq). simpl. repeat split.
      * rewrite (confirm_attempt_retry _ _ _ Hr Hne).
        eapply polling_only_trans; [|apply IH]. repeat split.
Qed.

(** The first poll that answers ends the loop with that answer. *)
Lemma confirm_loop_answer k : forall turns attempt w c,
  (k < turns)%nat ->
  attempt + Z.of_nat turns = retries ->
  (forall j, (j < k)%nat -> is_Err (reply_from ext w sig j)) ->
  reply_from ext w sig k = Ok c ->
  fst (confirm_loop ext sig retries timeout turns attempt w) = Ok (Some c) /\
  polled (snd (confirm_loop ext sig retries timeout turns attempt w))
  = polled w ++ replicate (S k) (poll_of sig timeout).
Proof.
  induction k as [|k IH]; intros turns attempt w c Hk Hsum Herr Hok;
    (destruct turns as [|turns]; [lia|]); rewrite confirm_loop_turn.
  - rewrite (confirm_attempt_answer _ _ _ Hok). simpl. split; reflexivity.
  - assert (H0 := Herr 0%nat ltac:(lia)).
    destruct (reply_from ext w sig 0) as [c0|e0] eqn:Hr; [destruct H0|].
    rewrite (confirm_attempt_retry _ _ _ Hr) by lia.
    match goal with |- context [confirm_loop _ _ _ _ _ _ ?w1] => set (w' := w1) end.
    assert (Hlen : forall j, reply_from ext w' sig j = reply_from ext w sig (S j)).
    { intros j. unfold reply_from, w'. simpl. rewrite length_app. simpl.
      f_equal. lia. }
    destruct (IH turns (attempt + 1) w' c) as [Hres Hpolls].
    + lia.
    + lia.
    + intros j Hj. rewrite Hlen. apply Herr. lia.
    + rewrite Hlen. exact Hok.
    + split; [exact Hres|]. rewrite Hpolls. unfold w'. simpl.
      rewrite <- app_assoc. reflexivity.
Qed.

(** When every poll fails, the error of the last turn is thrown. *)
Lemma confirm_loop_exhausted turns : forall attempt w e,
  attempt + Z.of_nat (S turns) = retries ->
  (forall j, (j < turns)%nat -> is_Err (reply_from ext w sig j)) ->
  reply_from ext w sig turns = Err e ->
  fst (confirm_loop ext sig retries timeout (S turns) attempt w) = Err e /\
  polled (snd (confirm_loop ext sig retries timeout (S turns) attempt w))
  = polled w ++ replicate (S turns) (poll_of sig timeout).
Proof.
  induction turns as [|turns IH]; intros attempt w e Hsum Herr Hlast;
    rewrite confirm_loop_turn.
  - rewrite (confirm_attempt_last _ _ _ Hlast) by lia. simpl. split; reflexivity.
  - assert (H0 := Herr 0%nat ltac:(lia)).
    destruct (reply_from ext w sig 0) as [c0|e0] eqn:Hr; [destruct H0|].
    rewrite (confirm_attempt_retry _ _ _ Hr) by lia.
    match goal with |- context [confirm_loop _ _ _ _ _ _ ?w1] => set (w' := w1) end.
    assert (Hlen : forall j, reply_from ext w' sig j = reply_from ext w sig (S j)).
    { intros j. unfold reply_from, w'. simpl. rewrite length_app. simpl.
      f_equal. lia. }
    destruct (IH (attempt + 1) w' e) as [Hres Hpolls].
    + lia.
    + intros j Hj. rewrite Hlen. apply Herr. lia.
    + rewrite Hlen. exact Hlast.
    + split; [exact Hres|]. rewrite Hpolls. unfold w'. simpl.
      rewrite <- app_assoc. reflexivity.
Qed.

End Retrier.

(** With a positive bound the retrier never falls out of its loop: it
    returns an answer or throws. *)
Lemma confirmTransactionWithRetries_total ext sig retries timeout w :
  0 < retries ->
  fst (confirmTransactionWithRetries ext sig retries timeout w) <> Ok None.
Proof.
  intros Hpos. unfold confirmTransactionWithRetries.
  assert (Hgen : forall turns attempt w',
             turns <> 0%nat -> attempt + Z.of_nat turns = retries ->
             fst (confirm_loop ext sig retries timeout turns attempt w') <> Ok None).
  { induction turns as [|turns IH]; intros attempt w' Hnz Hsum; [congruence|].
    rewrite confirm_loop_turn.
    destruct (reply_from ext w' sig 0) as [c|e] eqn:Hr.
    - rewrite (confirm_attempt_answer _ _ _ _ _ _ _ Hr). simpl. congruence.
    - destruct (Z.eq_dec attempt (retries - 1)) as [Heq|Hne].
      + rewrite (confirm_attempt_last _ _ _ _ _ _ _ Hr Heq). simpl. congruence.
      + rewrite (confirm_attempt_retry _ _ _ _ _ _ _ Hr Hne).
        apply IH; lia. }
  apply Hgen; lia.
Qed.

(** C3. With [retries = 3], [confirmTransactionWithRetries] returns the
    answer of the first poll that answers, whatever that answer says about
    the transaction, having polled no further; a poll that throws is
    followed by another one while fewer than three were made; and when the
    third poll throws too, its error is thrown to the caller.  Nothing but
    the poll record and the console changes. *)
Theorem confirmTransactionWithRetries_three_attempts ext sig timeout w :
  let r := confirmTransactionWithRetries ext sig 3 timeout w in
  (forall k c,
      (k < 3)%nat ->
      (forall j, (j < k)%nat -> is_Err (reply_from ext w sig j)) ->
      reply_from ext w sig k = Ok c ->
      fst r = Ok (Some c) /\
      polled (snd r) = polled w ++ replicate (S k) (poll_of sig timeout)) /\
  (forall e,
      (forall j, (j < 2)%nat -> is_Err (reply_from ext w sig j)) ->
      reply_from ext w sig 2 = Err e ->
      fst r = Err e /\
      polled (snd r) = polled w ++ replicate 3 (poll_of sig timeout)) /\
  polling_only w (snd r).
Proof.
  cbv zeta. unfold confirmTransactionWithRetries.
  change (Z.to_nat (3 - 0)) with 3%nat.
  split; [|split].
  - intros k c Hk Herr Hok. apply confirm_loop_answer; auto.
  - intros e Herr Hlast. apply confirm_loop_exhausted; auto.
  - apply confirm_loop_frame.
Qed.

Lemma confirmTransactionWithRetries_three_attempts_witness :
  fst (confirmTransactionWithRetries cluster_slow "sig" 3 60000 initial)
  = Ok (Some {| value_err := Some "InstructionError" |}) /\
  fst (confirmTransactionWithRetries cluster_silent "sig" 3 60000 initial)
  = Err timeout_error.
Proof.
  split.
  - refine (proj1 (proj1 (confirmTransactionWithRetries_three_attempts
                            cluster_slow "sig" 60000 initial) 2%nat _ _ _ _)).
    + lia.
    + intros [|[|j]] Hj; simpl; [exact I | exact I | lia].
    + reflexivity.
  - refine (proj1 (proj1 (proj2 (confirmTransactionWithRetries_three_attempts
                                   cluster_silent "sig" 60000 initial)) _ _ _)).
    + intros j Hj. exact I.
    + reflexivity.
Defined.

(** C10. Called with [retries <= 0], [confirmTransactionWithRetries] runs
    no turn of its loop: it returns [undefined], throws nothing, and leaves
    the state as it was, so the cluster has not been polled. *)
Theorem confirmTransactionWithRetries_nonpositive ext sig retries timeout w :
  retries <= 0 ->
  confirmTransactionWithRetries ext sig retries timeout w = (Ok None, w).
Proof.
  intros Hle. unfold confirmTransactionWithRetries.
  replace (Z.to_nat (retries - 0)) with 0%nat by lia. reflexivity.
Qed.

Lemma confirmTransactionWithRetries_nonpositive_witness :
  confirmTransactionWithRetries cluster_silent "sig" 0 60000 initial = (Ok None, initial) /\
  confirmTransactionWithRetries cluster_ok "sig" (-2) 60000 initial = (Ok None, initial).
Proof.
  split.
  - apply (confirmTransactionWithRetries_nonpositive cluster_silent "sig" 0 60000 initial). lia.
  - apply (confirmTransactionWithRetries_nonpositive cluster_ok "sig" (-2) 60000 initial). lia.
Defined.

(** ** The sweep pipeline *)

Lemma same_watches_refl w : same_watches w w.
Proof. repeat split. Qed.

Lemma same_watches_trans w1 w2 w3 :
  same_watches w1 w2 -> same_watches w2 w3 -> same_watches w1 w3.
Proof.
  unfold same_watches. intros (?&?&?&?) (?&?&?&?). repeat split; congruence.
Qed.

Lemma polling_only_watches w w' : polling_only w w' -> same_watches w w'.
Proof. unfold polling_only, same_watches. tauto. Qed.

Lemma reply_from_polls ext w w' sig k :
  polled w' = polled w -> reply_from ext w' sig k = reply_from ext w sig k.
Proof. unfold reply_from. intros ->. reflexivity. Qed.

(** Three polls either produce an answer or are exhausted. *)
Lemma three_polls ext w sig :
  (exists c, answered ext w sig c) \/ (exists e, exhausted ext w sig e).
Proof.
  unfold answered, exhausted.
  destruct (reply_from ext w sig 0) as [c0|e0] eqn:H0.
  { left. exists c0, 0%nat. repeat split; [lia | lia | exact H0]. }
  destruct (reply_from ext w sig 1) as [c1|e1] eqn:H1.
  { left. exists c1, 1%nat. repeat split; [lia | | exact H1].
    intros [|j] Hj; [rewrite H0; exact I | lia]. }
  destruct (reply_from ext w sig 2) as [c2|e2] eqn:H2.
  { left. exists c2, 2%nat. repeat split; [lia | | exact H2].
    intros [|[|j]] Hj; [rewrite H0; exact I | rewrite H1; exact I | lia]. }
  right. exists e2. split; [|reflexivity].
  intros [|[|j]] Hj; [rewrite H0; exact I | rewrite H1; exact I | lia].
Qed.

Lemma answered_not_exhausted ext w sig c e :
  answered ext w sig c -> exhausted ext w sig e -> False.
Proof.
  intros (k & Hk & _ & Hok) [Herr Hlast].
  destruct (Nat.eq_dec k 2) as [->|Hne].
  - congruence.
  - specialize (Herr k ltac:(lia)). rewrite Hok in Herr. exact Herr.
Qed.

Lemma answered_unique ext w sig c c' :
  answered ext w sig c -> answered ext w sig c' -> c = c'.
Proof.
  intros (k & Hk & Herr & Hok) (k' & Hk' & Herr' & Hok').
  destruct (Nat.lt_trichotomy k k') as [Hlt|[->|Hlt]].
  - specialize (Herr' k Hlt). rewrite Hok in Herr'. destruct Herr'.
  - congruence.
  - specialize (Herr k' Hlt). rewrite Hok' in Herr. destruct Herr.
Qed.

(** The retrier, as the handlers call it. *)
Lemma retrier_outcome ext sig w :
  let r := confirmTransactionWithRetries ext sig 3 60000 w in
  polling_only w (snd r) /\
  ((exists c, answered ext w sig c /\ fst r = Ok (Some c)) \/
   (exists e, exhausted ext w sig e /\ fst r = Err e)).
Proof.
  cbv zeta. unfold confirmTransactionWithRetries.
  change (Z.to_nat (3 - 0)) with 3%nat.
  split; [apply confirm_loop_frame|].
  destruct (three_polls ext w sig) as [[c Hc]|[e He]].
  - left. exists c. split; [exact Hc|].
    destruct Hc as (k & Hk & Herr & Hok).
    apply (confirm_loop_answer ext sig 3 60000 k 3%nat 0 w c); auto.
  - right. exists e. split; [exact He|].
    destruct He as [Herr Hlast].
    apply (confirm_loop_exhausted ext sig 3 60000 2%nat 0 w e); auto.
Qed.

(** What one run of the pipeline does to the state. *)
Lemma sweep_outcome ext tx signers entry w :
  let r := sweep ext tx signers entry w in
  same_watches w (snd r) /\
  sent (snd r) = sent w ++ [(tx, signers)] /\
  broadcasts (snd r) = broadcasts w /\
  match sendTransaction_reply ext (length (sent w)) tx with
  | Err e => fst r = Err e /\ transactionLog (snd r) = transactionLog w
  | Ok sig =>
      (exists c, answered ext w sig c /\ fst r = Ok tt /\
                 transactionLog (snd r) = transactionLog w ++ [entry sig]) \/
      (exists e, exhausted ext w sig e /\ fst r = Err e /\
                 transactionLog (snd r) = transactionLog w)
  end.
Proof.
  cbv zeta. unfold sweep. js_unfold. cbn beta iota.
  destruct (sendTransaction_reply ext (length (sent w)) tx) as [sig|e] eqn:Hsend.
  2:{ cbn. repeat split. }
  cbn beta iota.
  match goal with |- context [confirmTransactionWithRetries ext sig 3 60000 ?w1] =>
    pose proof (retrier_outcome ext sig w1) as Hr; cbv zeta in Hr;
    assert (Hpolls : polled w1 = polled w) by reflexivity;
    assert (Hw1 : same_watches w w1 /\ sent w1 = sent w ++ [(tx, signers)] /\
                  broadcasts w1 = broadcasts w /\ transactionLog w1 = transactionLog w)
      by (repeat split);
    destruct (confirmTransactionWithRetries ext sig 3 60000 w1) as [r2 w2]
  end.
  cbn [fst snd] in Hr.
  destruct Hr as [Hframe Hcases]. destruct Hw1 as (Hwatch & Hsent & Hbc & Hlog).
  assert (Hwatch2 : same_watches w w2).
  { eapply same_watches_trans; [exact Hwatch|]. apply polling_only_watches, Hframe. }
  destruct Hframe as (Hf1 & Hf2 & Hf3 & Hf4 & Hf5 & Hf6 & Hf7).
  destruct Hcases as [(c & Hc & ->)|(e & He & ->)]; cbn.
  - split; [exact Hwatch2|]. split; [congruence|]. split; [congruence|].
    left. exists c. split; [|split; [reflexivity|congruence]].
    destruct Hc as (k & Hk & Herr & Hok). exists k. split; [exact Hk|].
    split.
    + intros j Hj. rewrite <- (reply_from_polls ext w _ sig j Hpolls). auto.
    + rewrite <- (reply_from_polls ext w _ sig k Hpolls). exact Hok.
  - split; [exact Hwatch2|]. split; [congruence|]. split; [congruence|].
    right. exists e. split; [|split; [reflexivity|congruence]].
    destruct He as [Herr Hlast]. split.
    + intros j Hj. rewrite <- (reply_from_polls ext w _ sig j Hpolls). auto.
    + rewrite <- (reply_from_polls ext w _ sig 2 Hpolls). exact Hlast.
Qed.

Lemma api_try_run ext tx signers entry text w :
  api_try ext tx signers entry text w
  = match sweep ext tx signers entry w with
    | (Ok _, w1) =>
        (Ok tt, with_broadcasts (fun l => l ++ [transactionLog w1]) w1)
    | (Err e, w1) =>
        (Ok tt, with_console (fun c => c ++ [error_line text e]) w1)
    end.
Proof.
  unfold api_try, try_catch, bind.
  destruct (sweep ext tx signers entry w) as [[[]|e] w1]; reflexivity.
Qed.

Lemma part000_try_run ext tx signers entry text w :
  part000_try ext tx signers entry text w
  = match sweep ext tx signers entry w with
    | (Ok _, w1) => (Ok tt, w1)
    | (Err e, w1) =>
        (Err SendTransactionError_unbound,
         with_console (fun c => c ++ [error_line text e]) w1)
    end.
Proof.
  unfold part000_try, try_catch.
  destruct (sweep ext tx signers entry w) as [[[]|e] w1]; reflexivity.
Qed.

(** The [try] statement of api/index.js never throws. *)
Lemma api_try_outcome ext tx signers entry text w :
  let r := api_try ext tx signers entry text w in
  fst r = Ok tt /\
  same_watches w (snd r) /\
  sent (snd r) = sent w ++ [(tx, signers)] /\
  match sendTransaction_reply ext (length (sent w)) tx with
  | Err e =>
      transactionLog (snd r) = transactionLog w /\
      broadcasts (snd r) = broadcasts w /\
      last (console (snd r)) = Some (error_line text e)
  | Ok sig =>
      (exists c, answered ext w sig c /\
                 transactionLog (snd r) = transactionLog w ++ [entry sig] /\
                 broadcasts (snd r) = broadcasts w ++ [transactionLog w ++ [entry sig]]) \/
      (exists e, exhausted ext w sig e /\
                 transactionLog (snd r) = transactionLog w /\
                 broadcasts (snd r) = broadcasts w /\
                 last (console (snd r)) = Some (error_line text e))
  end.
Proof.
  cbv zeta. rewrite api_try_run.
  pose proof (sweep_outcome ext tx signers entry w) as H. cbv zeta in H.
  destruct (sweep ext tx signers entry w) as [r1 w1]. cbn [fst snd] in H.
  destruct H as (Hwatch & Hsent & Hbc & Hcases).
  assert (Hwatch' : forall f, same_watches w (with_console f w1)).
  { intros f. destruct Hwatch as (?&?&?&?). repeat split; assumption. }
  destruct (sendTransaction_reply ext (length (sent w)) tx) as [sig|e].
  - destruct Hcases as [(c & Hc & -> & Hlog)|(e & He & -> & Hlog)].
    + cbn.
      split; [reflexivity|]. split; [apply Hwatch|]. split; [exact Hsent|].
      left. exists c. split; [exact Hc|]. split; [exact Hlog|]. congruence.
    + cbn.
      split; [reflexivity|]. split; [apply Hwatch'|]. split; [exact Hsent|].
      right. exists e. split; [exact He|]. split; [exact Hlog|].
      split; [exact Hbc|]. apply last_snoc.
  - destruct Hcases as [-> Hlog]. cbn.
    split; [reflexivity|]. split; [apply Hwatch'|]. split; [exact Hsent|].
    split; [exact Hlog|]. split; [exact Hbc|]. apply last_snoc.
Qed.

(** The [catch] block of part_000 writes its line and then throws: the
    file binds no [SendTransactionError]. *)
Lemma part000_catch_throws text error w :
  (console_error text [Thrown error] ;;
   SendTransactionError <- Part000.identifier "SendTransactionError" ;;
   if Part000.instanceof error SendTransactionError
   then console_error "Transaction Logs:" [Thrown error]
   else ret tt) w
  = (Err SendTransactionError_unbound,
     with_console (fun c => c ++ [error_line text error]) w).
Proof. reflexivity. Qed.

Lemma part000_try_outcome ext tx signers entry text w :
  let r := part000_try ext tx signers entry text w in
  same_watches w (snd r) /\
  sent (snd r) = sent w ++ [(tx, signers)] /\
  broadcasts (snd r) = broadcasts w /\
  match sendTransaction_reply ext (length (sent w)) tx with
  | Err e =>
      fst r = Err SendTransactionError_unbound /\
      transactionLog (snd r) = transactionLog w /\
      last (console (snd r)) = Some (error_line text e)
  | Ok sig =>
      (exists c, answered ext w sig c /\
                 fst r = Ok tt /\
                 transactionLog (snd r) = transactionLog w ++ [entry sig]) \/
      (exists e, exhausted ext w sig e /\
                 fst r = Err SendTransactionError_unbound /\
                 transactionLog (snd r) = transactionLog w /\
                 last (console (snd r)) = Some (error_line text e))
  end.
Proof.
  cbv zeta. rewrite part000_try_run.
  pose proof (sweep_outcome ext tx signers entry w) as H. cbv zeta in H.
  destruct (sweep ext tx signers entry w) as [r1 w1]. cbn [fst snd] in H.
  destruct H as (Hwatch & Hsent & Hbc & Hcases).
  assert (Hwatch' : forall f, same_watches w (with_console f w1)).
  { intros f. destruct Hwatch as (?&?&?&?). repeat split; assumption. }
  destruct (sendTransaction_reply ext (length (sent w)) tx) as [sig|e].
  - destruct Hcases as [(c & Hc & -> & Hlog)|(e & He & -> & Hlog)].
    + cbn. split; [apply Hwatch|]. split; [exact Hsent|]. split; [exact Hbc|].
      left. exists c. auto.
    + cbn [fst snd].
      split; [apply Hwatch'|]. split; [exact Hsent|]. split; [exact Hbc|].
      right. exists e. split; [exact He|]. split; [reflexivity|].
      split; [exact Hlog|]. cbn. apply last_snoc.
  - destruct Hcases as [-> Hlog]. cbn [fst snd].
    split; [apply Hwatch'|]. split; [exact Hsent|]. split; [exact Hbc|].
    split; [reflexivity|]. split; [exact Hlog|]. cbn. apply last_snoc.
Qed.

(** The handlers, in terms of the pipeline. *)
Lemma Api_handleAccountChange_unfold ext cl accountInfo w :
  Api.handleAccountChange ext cl accountInfo w
  = (if 0 <? lamports accountInfo then
       console_log "Received $ SOL, transferring to secure wallet..."
         [Num (per_sol (lamports accountInfo))] ;;
       if lamports accountInfo - 5000 <? 0 then throw SystemProgram.negative_amount
       else
         api_try ext (native_transaction cl (lamports accountInfo - 5000))
           [compromisedWallet cl]
           (sweep_entry cl (per_sol (lamports accountInfo)))
           "Error transferring funds:"
     else ret tt) w.
Proof.
  unfold Api.handleAccountChange, api_try, sweep, SystemProgram.transfer. cbv zeta.
  destruct (0 <? lamports accountInfo); [|reflexivity].
  destruct (lamports accountInfo - 5000 <? 0); [reflexivity|].
  js_unfold. cbn beta iota.
  destruct (sendTransaction_reply ext _ _); [|reflexivity].
  cbn beta iota.
  destruct (confirmTransactionWithRetries ext _ 3 60000 _) as [[c|e] w2]; reflexivity.
Qed.

Lemma Part000_handleAccountChange_unfold ext cl accountInfo w :
  Part000.handleAccountChange ext cl accountInfo w
  = (if 0 <? lamports accountInfo then
       console_log "Received $ SOL, transferring to secure wallet..."
         [Num (per_sol (lamports accountInfo))] ;;
       if lamports accountInfo - 5000 <=? 0 then
         console_error "Not enough SOL to cover the transaction fee." []
       else
         part000_try ext (native_transaction cl (lamports accountInfo - 5000))
           [compromisedWallet cl]
           (sweep_entry cl (per_sol (lamports accountInfo - 5000)))
           "Error transferring funds:"
     else ret tt) w.
Proof.
  unfold Part000.handleAccountChange, SystemProgram.transfer. cbv zeta.
  destruct (0 <? lamports accountInfo); [|reflexivity].
  destruct (Z.leb_spec (lamports accountInfo - 5000) 0); [reflexivity|].
  destruct (Z.ltb_spec (lamports accountInfo - 5000) 0); [lia|]. reflexivity.
Qed.

(** ** The native-balance handlers *)

(** api/index.js below the fee reserve: the instruction cannot be built,
    and the error leaves the handler. *)
Lemma Api_handleAccountChange_unbuildable ext cl b w :
  0 < b < 5000 ->
  Api.handleAccountChange ext cl {| lamports := b |} w
  = (Err SystemProgram.negative_amount,
     with_console
       (fun c => c ++ [{| level := Log;
                          text := "Received $ SOL, transferring to secure wallet...";
                          args := [Num (per_sol b)] |}]) w).
Proof.
  intros Hb. rewrite Api_handleAccountChange_unfold. cbn [lamports].
  destruct (Z.ltb_spec 0 b); [|lia].
  destruct (Z.ltb_spec (b - 5000) 0); [|lia].
  reflexivity.
Qed.

(** api/index.js: every balance from the fee reserve up is swept, and no
    error of the cluster leaves the handler. *)
Lemma Api_handleAccountChange_outcome ext cl b w :
  0 <= b - 5000 ->
  let r := Api.handleAccountChange ext cl {| lamports := b |} w in
  let tx := native_transaction cl (b - 5000) in
  fst r = Ok tt /\
  same_watches w (snd r) /\
  sent (snd r) = sent w ++ [(tx, [compromisedWallet cl])] /\
  match sendTransaction_reply ext (length (sent w)) tx with
  | Err e =>
      transactionLog (snd r) = transactionLog w /\
      broadcasts (snd r) = broadcasts w /\
      last (console (snd r)) = Some (error_line "Error transferring funds:" e)
  | Ok sig =>
      (exists c, answered ext w sig c /\
                 transactionLog (snd r)
                 = transactionLog w ++ [sweep_entry cl (per_sol b) sig] /\
                 broadcasts (snd r)
                 = broadcasts w ++ [transactionLog w ++ [sweep_entry cl (per_sol b) sig]]) \/
      (exists e, exhausted ext w sig e /\
                 transactionLog (snd r) = transactionLog w /\
                 broadcasts (snd r) = broadcasts w /\
                 last (console (snd r)) = Some (error_line "Error transferring funds:" e))
  end.
Proof.
  intros Hb. cbv zeta. rewrite Api_handleAccountChange_unfold. cbn [lamports].
  destruct (Z.ltb_spec 0 b); [|lia].
  destruct (Z.ltb_spec (b - 5000) 0); [lia|].
  unfold bind at 1. unfold console_log, modify.
  exact (api_try_outcome ext (native_transaction cl (b - 5000)) [compromisedWallet cl]
           (sweep_entry cl (per_sol b)) "Error transferring funds:"
           (with_console _ w)).
Qed.

(** part_000 below the fee reserve: a console line, and nothing else. *)
Lemma Part000_handleAccountChange_insufficient ext cl b w :
  0 < b -> b - 5000 <= 0 ->
  Part000.handleAccountChange ext cl {| lamports := b |} w
  = (Ok tt,
     with_console
       (fun c => (c ++ [{| level := Log;
                           text := "Received $ SOL, transferring to secure wallet...";
                           args := [Num (per_sol b)] |}])
                   ++ [{| level := Error;
                          text := "Not enough SOL to cover the transaction fee.";
                          args := [] |}]) w).
Proof.
  intros Hb Hle. rewrite Part000_handleAccountChange_unfold. cbn [lamports].
  destruct (Z.ltb_spec 0 b); [|lia].
  destruct (Z.leb_spec (b - 5000) 0); [|lia].
  reflexivity.
Qed.

(** part_000 above the fee reserve. *)
Lemma Part000_handleAccountChange_outcome ext cl b w :
  0 < b - 5000 ->
  let r := Part000.handleAccountChange ext cl {| lamports := b |} w in
  let tx := native_transaction cl (b - 5000) in
  same_watches w (snd r) /\
  sent (snd r) = sent w ++ [(tx, [compromisedWallet cl])] /\
  broadcasts (snd r) = broadcasts w /\
  match sendTransaction_reply ext (length (sent w)) tx with
  | Err e =>
      fst r = Err SendTransactionError_unbound /\
      transactionLog (snd r) = transactionLog w /\
      last (console (snd r)) = Some (error_line "Error transferring funds:" e)
  | Ok sig =>
      (exists c, answered ext w sig c /\
                 fst r = Ok tt /\
                 transactionLog (snd r)
                 = transactionLog w ++ [sweep_entry cl (per_sol (b - 5000)) sig]) \/
      (exists e, exhausted ext w sig e /\
                 fst r = Err SendTransactionError_unbound /\
                 transactionLog (snd r) = transactionLog w /\
                 last (console (snd r)) = Some (error_line "Error transferring funds:" e))
  end.
Proof.
  intros Hb. cbv zeta. rewrite Part000_handleAccountChange_unfold. cbn [lamports].
  destruct (Z.ltb_spec 0 b); [|lia].
  destruct (Z.leb_spec (b - 5000) 0); [lia|].
  unfold bind at 1. unfold console_log, modify.
  exact (part000_try_outcome ext (native_transaction cl (b - 5000)) [compromisedWallet cl]
           (sweep_entry cl (per_sol (b - 5000))) "Error transferring funds:"
           (with_console _ w)).
Qed.

(** A notification of an empty balance is ignored by both files. *)
Lemma handleAccountChange_nothing file ext cl b w :
  b <= 0 -> native_handler file ext cl {| lamports := b |} w = (Ok tt, w).
Proof.
  intros Hb. destruct file; cbn [native_handler].
  - rewrite Api_handleAccountChange_unfold. cbn [lamports].
    destruct (Z.ltb_spec 0 b); [lia|reflexivity].
  - rewrite Part000_handleAccountChange_unfold. cbn [lamports].
    destruct (Z.ltb_spec 0 b); [lia|reflexivity].
Qed.

(** In part_000 the native handler keeps the fee reserve: at or below it,
    nothing is built, sent or logged; above it, one transfer of the
    balance less the reserve is sent. *)
Lemma Part000_handleAccountChange_fee_reserve ext cl b w :
  0 < b ->
  let r := Part000.handleAccountChange ext cl {| lamports := b |} w in
  (b - 5000 <= 0 ->
   fst r = Ok tt /\
   sent (snd r) = sent w /\
   polled (snd r) = polled w /\
   transactionLog (snd r) = transactionLog w /\
   last (console (snd r))
   = Some {| level := Error;
             text := "Not enough SOL to cover the transaction fee.";
             args := [] |}) /\
  (0 < b - 5000 ->
   sent (snd r) = sent w ++ [(native_transaction cl (b - 5000), [compromisedWallet cl])]).
Proof.
  intros Hb. cbv zeta. split.
  - intros Hle. rewrite (Part000_handleAccountChange_insufficient ext cl b w Hb Hle).
    cbn. repeat split. apply last_snoc.
  - intros Hgt.
    apply (Part000_handleAccountChange_outcome ext cl b w Hgt).
Qed.

(** C1 (api/index.js departs from it). The handler of api/index.js has no
    test of the amount left after the fee reserve.  On a balance of exactly
    5000 lamports, where that amount is 0, it builds a transfer of 0
    lamports and hands it to [sendTransaction], whatever the cluster; when
    the cluster accepts and confirms, an entry is pushed on
    [transactionLog].  On a balance strictly between 0 and 5000, 4000 say,
    the amount is negative: the instruction cannot be built, the error is
    thrown before the [try] block and leaves the handler, nothing being
    sent or logged. *)
Theorem Api_handleAccountChange_at_fee_reserve :
  (forall ext cl w,
      let r := Api.handleAccountChange ext cl {| lamports := 5000 |} w in
      fst r = Ok tt /\
      sent (snd r)
      = sent w ++ [({| instructions :=
                         [SystemProgram_transfer (publicKey (compromisedWallet cl))
                            (newSecureWalletPublicKey cl) 0] |},
                    [compromisedWallet cl])]) /\
  transactionLog
    (snd (Api.handleAccountChange cluster_ok closure_A {| lamports := 5000 |} initial))
  = [{| signature := "sig";
        from := publicKey wallet_A;
        to := secure_B;
        amount := per_sol 5000;
        status := "confirmed" |}] /\
  (forall ext cl w,
      let r := Api.handleAccountChange ext cl {| lamports := 4000 |} w in
      is_Err (fst r) /\
      sent (snd r) = sent w /\
      polled (snd r) = polled w /\
      transactionLog (snd r) = transactionLog w).
Proof.
  split; [|split].
  - intros ext cl w. cbv zeta.
    destruct (Api_handleAccountChange_outcome ext cl 5000 w ltac:(lia))
      as (Hfst & _ & Hsent & _).
    split; [exact Hfst | exact Hsent].
  - vm_compute. reflexivity.
  - intros ext cl w. cbv zeta.
    rewrite (Api_handleAccountChange_unbuildable ext cl 4000 w ltac:(lia)).
    cbn. repeat split.
Qed.

(** In part_000 a confirmed native sweep logs the amount transferred. *)
Lemma Part000_handleAccountChange_confirmed ext cl b w sig c :
  0 < b - 5000 ->
  sendTransaction_reply ext (length (sent w)) (native_transaction cl (b - 5000)) = Ok sig ->
  answered ext w sig c ->
  transactionLog (snd (Part000.handleAccountChange ext cl {| lamports := b |} w))
  = transactionLog w
      ++ [{| signature := sig;
             from := publicKey (compromisedWallet cl);
             to := newSecureWalletPublicKey cl;
             amount := per_sol (b - 5000);
             status := "confirmed" |}].
Proof.
  intros Hb Hsend Hans.
  destruct (Part000_handleAccountChange_outcome ext cl b w Hb) as (_ & _ & _ & H).
  rewrite Hsend in H. destruct H as [(c' & _ & _ & Hlog)|(e & He & _)].
  - exact Hlog.
  - destruct (answered_not_exhausted _ _ _ _ _ Hans He).
Qed.

(** In api/index.js a confirmed native sweep logs the balance observed. *)
Lemma Api_handleAccountChange_confirmed ext cl b w sig c :
  0 <= b - 5000 ->
  sendTransaction_reply ext (length (sent w)) (native_transaction cl (b - 5000)) = Ok sig ->
  answered ext w sig c ->
  transactionLog (snd (Api.handleAccountChange ext cl {| lamports := b |} w))
  = transactionLog w
      ++ [{| signature := sig;
             from := publicKey (compromisedWallet cl);
             to := newSecureWalletPublicKey cl;
             amount := per_sol b;
             status := "confirmed" |}].
Proof.
  intros Hb Hsend Hans.
  destruct (Api_handleAccountChange_outcome ext cl b w Hb) as (_ & _ & _ & H).
  rewrite Hsend in H. destruct H as [(c' & _ & Hlog & _)|(e & He & _)].
  - exact Hlog.
  - destruct (answered_not_exhausted _ _ _ _ _ Hans He).
Qed.

(** C2 (api/index.js departs from it). A deposit of 1,000,000 lamports,
    accepted and confirmed by the cluster: api/index.js transfers 995,000
    lamports and logs one entry, with status "confirmed", whose amount is
    the balance observed, 0.001, and not the amount transferred, 0.000995. *)
Theorem Api_handleAccountChange_logs_observed_balance :
  let w := snd (Api.handleAccountChange cluster_ok closure_A
                  {| lamports := 1000000 |} initial) in
  sent w = [(native_transaction closure_A 995000, [wallet_A])] /\
  exists entry,
    transactionLog w = [entry] /\
    status entry = "confirmed" /\
    (amount entry == 1 # 1000)%Q /\
    ~ (amount entry == 995 # 1000000)%Q.
Proof.
  cbv zeta. split; [vm_compute; reflexivity|].
  eexists. split; [vm_compute; reflexivity|].
  cbn [status amount]. split; [reflexivity|]. split.
  - unfold per_sol, Qeq. cbn. reflexivity.
  - unfold per_sol, Qeq. cbn. discriminate.
Qed.

(** ** The token-balance handlers *)

Lemma Api_handleTokenAccountChange_unfold ext cl m mint accountInfo w :
  closure_tokenMintAddress cl = Some m ->
  newPublicKey ext m = Ok mint ->
  Api.handleTokenAccountChange ext cl accountInfo w
  = (if 0 <? info_amount accountInfo then
       console_log "Received $ tokens, transferring to secure wallet..."
         [Int (info_amount accountInfo)] ;;
       api_try ext (token_transaction ext cl mint accountInfo)
         [compromisedWallet cl]
         (sweep_entry cl (inject_Z (info_amount accountInfo)))
         "Error transferring tokens:"
     else ret tt) w.
Proof.
  intros Hm Hmint.
  unfold Api.handleTokenAccountChange, api_try, sweep, PublicKey_of. cbv zeta.
  rewrite Hm. destruct (0 <? info_amount accountInfo); [|reflexivity].
  js_unfold. cbn beta iota. rewrite Hmint. cbn beta iota.
  unfold token_transaction.
  destruct (sendTransaction_reply ext _ _); [|reflexivity].
  cbn beta iota.
  destruct (confirmTransactionWithRetries ext _ 3 60000 _) as [[c|e] w2]; reflexivity.
Qed.

Lemma Part000_handleTokenAccountChange_unfold ext cl m mint accountInfo w :
  closure_tokenMintAddress cl = Some m ->
  newPublicKey ext m = Ok mint ->
  Part000.handleTokenAccountChange ext cl accountInfo w
  = (if 0 <? info_amount accountInfo then
       console_log "Received $ tokens, transferring to secure wallet..."
         [Int (info_amount accountInfo)] ;;
       part000_try ext (token_transaction ext cl mint accountInfo)
         [compromisedWallet cl]
         (sweep_entry cl (inject_Z (info_amount accountInfo)))
         "Error transferring tokens:"
     else ret tt) w.
Proof.
  intros Hm Hmint.
  unfold Part000.handleTokenAccountChange, part000_try, sweep, PublicKey_of. cbv zeta.
  rewrite Hm. destruct (0 <? info_amount accountInfo); [|reflexivity].
  unfold bind at 1 2 3. unfold console_log at 1, modify at 1, lift. rewrite Hmint.
  reflexivity.
Qed.

(** A mint address that is no public key: the handler throws before its
    [try] block, having built nothing. *)
Lemma handleTokenAccountChange_bad_mint file ext cl m e t source w :
  0 < t ->
  closure_tokenMintAddress cl = Some m ->
  newPublicKey ext m = Err e ->
  let r := token_handler file ext cl {| info_amount := t; info_address := source |} w in
  fst r = Err e /\ sent (snd r) = sent w /\ transactionLog (snd r) = transactionLog w.
Proof.
  intros Ht Hm Hmint. cbv zeta.
  destruct file; cbn [token_handler];
    [unfold Api.handleTokenAccountChange | unfold Part000.handleTokenAccountChange];
    cbv zeta; cbn [info_amount]; rewrite Hm;
    (destruct (Z.ltb_spec 0 t); [|lia]);
    unfold PublicKey_of, bind at 1 2, console_log at 1, modify at 1, lift;
    rewrite Hmint; repeat split.
Qed.

(** C6. On a token notification with a positive amount [t], whatever its
    size, each of the two files hands the cluster exactly one transaction,
    made of two instructions in this order: the creation of the associated
    token account of the destination for the mint, paid by the watched
    wallet, then the transfer of the whole [t] from the notified token
    account to that associated account.  (The mint is the one the watch was
    started with, parsed as a public key.) *)
Theorem handleTokenAccountChange_builds_pair file ext cl m mint t source w :
  0 < t ->
  closure_tokenMintAddress cl = Some m ->
  newPublicKey ext m = Ok mint ->
  let r := token_handler file ext cl {| info_amount := t; info_address := source |} w in
  let destinationAccount :=
    getAssociatedTokenAddress ext mint (newSecureWalletPublicKey cl) in
  sent (snd r)
  = sent w
      ++ [({| instructions :=
                [createAssociatedTokenAccountInstruction
                   (publicKey (compromisedWallet cl))
                   destinationAccount
                   (newSecureWalletPublicKey cl)
                   mint;
                 createTransferInstruction
                   source
                   destinationAccount
                   (publicKey (compromisedWallet cl))
                   t] |},
           [compromisedWallet cl])].
Proof.
  intros Ht Hm Hmint. cbv zeta.
  destruct file; cbn [token_handler].
  - rewrite (Api_handleTokenAccountChange_unfold ext cl m mint _ w Hm Hmint).
    cbn [info_amount]. destruct (Z.ltb_spec 0 t); [|lia].
    unfold bind at 1. unfold console_log, modify.
    match goal with |- context [api_try ext ?tx ?sg ?en ?tt ?w0] =>
      destruct (api_try_outcome ext tx sg en tt w0) as (_ & _ & Hsent & _)
    end.
    exact Hsent.
  - rewrite (Part000_handleTokenAccountChange_unfold ext cl m mint _ w Hm Hmint).
    cbn [info_amount]. destruct (Z.ltb_spec 0 t); [|lia].
    unfold bind at 1. unfold console_log, modify.
    match goal with |- context [part000_try ext ?tx ?sg ?en ?tt ?w0] =>
      destruct (part000_try_outcome ext tx sg en tt w0) as (_ & Hsent & _)
    end.
    exact Hsent.
Qed.

Lemma handleTokenAccountChange_builds_pair_witness :
  sent (snd (Api.handleTokenAccountChange cluster_ok closure_A_token
               {| info_amount := 1; info_address := "src" |} initial))
  = [({| instructions :=
           [createAssociatedTokenAccountInstruction (publicKey wallet_A)
              (getAssociatedTokenAddress cluster_ok mint_C secure_B) secure_B mint_C;
            createTransferInstruction "src"
              (getAssociatedTokenAddress cluster_ok mint_C secure_B) (publicKey wallet_A) 1] |},
      [wallet_A])] /\
  sent (snd (Part000.handleTokenAccountChange cluster_rejecting closure_A_token
               {| info_amount := 50; info_address := "src" |} initial))
  = [({| instructions :=
           [createAssociatedTokenAccountInstruction (publicKey wallet_A)
              (getAssociatedTokenAddress cluster_rejecting mint_C secure_B) secure_B mint_C;
            createTransferInstruction "src"
              (getAssociatedTokenAddress cluster_rejecting mint_C secure_B) (publicKey wallet_A) 50] |},
      [wallet_A])].
Proof.
  split.
  - apply (handleTokenAccountChange_builds_pair api_index_js cluster_ok closure_A_token
             mint_C mint_C 1 "src" initial); [lia | reflexivity | reflexivity].
  - apply (handleTokenAccountChange_builds_pair part_000 cluster_rejecting closure_A_token
             mint_C mint_C 50 "src" initial); [lia | reflexivity | reflexivity].
Defined.

(** ** Errors inside a handler *)

Lemma app_singleton_neq {A} (l : list A) (x : A) : l <> l ++ [x].
Proof.
  intros H. apply (f_equal length) in H. rewrite length_app in H. simpl in H. lia.
Qed.

(** api/index.js, from the fee reserve up: the handler never throws and
    leaves registry and listeners alone; an entry is logged exactly when
    the cluster accepted the transaction and answered one of the three
    polls. *)
Lemma Api_handleAccountChange_ledger ext cl b w :
  0 <= b - 5000 ->
  let r := Api.handleAccountChange ext cl {| lamports := b |} w in
  let tx := native_transaction cl (b - 5000) in
  fst r = Ok tt /\
  same_watches w (snd r) /\
  ((exists sig c, sendTransaction_reply ext (length (sent w)) tx = Ok sig /\
                  answered ext w sig c) <->
   (exists entry, transactionLog (snd r) = transactionLog w ++ [entry])) /\
  (~ (exists sig c, sendTransaction_reply ext (length (sent w)) tx = Ok sig /\
                    answered ext w sig c) ->
   transactionLog (snd r) = transactionLog w /\
   exists e, last (console (snd r)) = Some (error_line "Error transferring funds:" e)).
Proof.
  intros Hb. cbv zeta.
  destruct (Api_handleAccountChange_outcome ext cl b w Hb) as (Hfst & Hwatch & _ & H).
  split; [exact Hfst|]. split; [exact Hwatch|].
  destruct (sendTransaction_reply ext (length (sent w)) (native_transaction cl (b - 5000)))
    as [sig|e].
  - destruct H as [(c & Hc & Hlog & _)|(e & He & Hlog & _ & Hcon)].
    + split; [split|].
      * intros _. eexists. exact Hlog.
      * intros _. exists sig, c. split; [reflexivity | exact Hc].
      * intros Hno. destruct Hno. exists sig, c. split; [reflexivity | exact Hc].
    + split; [split|].
      * intros (sig' & c & [= <-] & Hc). destruct (answered_not_exhausted _ _ _ _ _ Hc He).
      * intros (entry & Hentry). rewrite Hlog in Hentry.
        destruct (app_singleton_neq _ _ Hentry).
      * intros _. split; [exact Hlog|]. exists e. exact Hcon.
  - destruct H as (Hlog & _ & Hcon). split; [split|].
    + intros (sig' & c & Hsend & _). discriminate.
    + intros (entry & Hentry). rewrite Hlog in Hentry.
      destruct (app_singleton_neq _ _ Hentry).
    + intros _. split; [exact Hlog|]. exists e. exact Hcon.
Qed.

(** part_000: the ledger and the watches are treated the same way, but
    after a failed submission or an exhausted retrier the handler throws. *)
Lemma Part000_handleAccountChange_ledger ext cl b w :
  0 < b - 5000 ->
  let r := Part000.handleAccountChange ext cl {| lamports := b |} w in
  let tx := native_transaction cl (b - 5000) in
  same_watches w (snd r) /\
  ((exists sig c, sendTransaction_reply ext (length (sent w)) tx = Ok sig /\
                  answered ext w sig c) <->
   (exists entry, transactionLog (snd r) = transactionLog w ++ [entry])) /\
  (~ (exists sig c, sendTransaction_reply ext (length (sent w)) tx = Ok sig /\
                    answered ext w sig c) ->
   transactionLog (snd r) = transactionLog w /\
   (exists e, last (console (snd r)) = Some (error_line "Error transferring funds:" e)) /\
   fst r = Err SendTransactionError_unbound).
Proof.
  intros Hb. cbv zeta.
  destruct (Part000_handleAccountChange_outcome ext cl b w Hb) as (Hwatch & _ & _ & H).
  split; [exact Hwatch|].
  destruct (sendTransaction_reply ext (length (sent w)) (native_transaction cl (b - 5000)))
    as [sig|e].
  - destruct H as [(c & Hc & _ & Hlog)|(e & He & Hfst & Hlog & Hcon)].
    + split; [split|].
      * intros _. eexists. exact Hlog.
      * intros _. exists sig, c. split; [reflexivity | exact Hc].
      * intros Hno. destruct Hno. exists sig, c. split; [reflexivity | exact Hc].
    + split; [split|].
      * intros (sig' & c & [= <-] & Hc). destruct (answered_not_exhausted _ _ _ _ _ Hc He).
      * intros (entry & Hentry). rewrite Hlog in Hentry.
        destruct (app_singleton_neq _ _ Hentry).
      * intros _. split; [exact Hlog|]. split; [exists e; exact Hcon | exact Hfst].
  - destruct H as (Hfst & Hlog & Hcon). split; [split|].
    + intros (sig' & c & Hsend & _). discriminate.
    + intros (entry & Hentry). rewrite Hlog in Hentry.
      destruct (app_singleton_neq _ _ Hentry).
    + intros _. split; [exact Hlog|]. split; [exists e; exact Hcon | exact Hfst].
Qed.

(** C4 (part_000 departs from it). A deposit of 1,000,000 lamports whose
    transaction the cluster rejects, and one whose confirmation is never
    answered: in part_000 the ledger stays empty and the error is written to
    the console, but the [catch] block then evaluates
    [SendTransactionError], a name the file does not import, so a
    [ReferenceError] leaves the handler; the token handler does the same.
    On the same inputs the handler of api/index.js completes normally. *)
Theorem Part000_handlers_throw_from_catch :
  let rejected := Part000.handleAccountChange cluster_rejecting closure_A
                    {| lamports := 1000000 |} initial in
  let unanswered := Part000.handleAccountChange cluster_silent closure_A
                      {| lamports := 1000000 |} initial in
  let token := Part000.handleTokenAccountChange cluster_rejecting closure_A_token
                 {| info_amount := 50; info_address := "src" |} initial in
  (fst rejected = Err SendTransactionError_unbound /\
   transactionLog (snd rejected) = [] /\
   length (sent (snd rejected)) = 1%nat /\
   last (console (snd rejected))
   = Some (error_line "Error transferring funds:"
             {| err_name := "SendTransactionError";
                err_message := "Transaction simulation failed" |})) /\
  (fst unanswered = Err SendTransactionError_unbound /\
   transactionLog (snd unanswered) = [] /\
   length (polled (snd unanswered)) = 3%nat /\
   last (console (snd unanswered))
   = Some (error_line "Error transferring funds:" timeout_error)) /\
  (fst token = Err SendTransactionError_unbound /\
   transactionLog (snd token) = []) /\
  fst (Api.handleAccountChange cluster_rejecting closure_A
         {| lamports := 1000000 |} initial) = Ok tt /\
  fst (Api.handleAccountChange cluster_silent closure_A
         {| lamports := 1000000 |} initial) = Ok tt.
Proof. cbv zeta. vm_compute. repeat split. Qed.

(** ** The two native handlers side by side *)

(** Except at the fee reserve itself the two files hand the cluster the
    same transactions. *)
Lemma native_handlers_same_transfer ext cl b w :
  b <> 5000 ->
  sent (snd (Api.handleAccountChange ext cl {| lamports := b |} w))
  = sent (snd (Part000.handleAccountChange ext cl {| lamports := b |} w)).
Proof.
  intros Hb.
  destruct (Z.le_gt_cases b 0) as [Hle|Hpos];
    [|destruct (Z.lt_ge_cases b 5000) as [Hlt|Hge]].
  - pose proof (handleAccountChange_nothing api_index_js ext cl b w Hle) as Ha.
    pose proof (handleAccountChange_nothing part_000 ext cl b w Hle) as Hp.
    cbn [native_handler] in Ha, Hp. rewrite Ha, Hp. reflexivity.
  - rewrite (Api_handleAccountChange_unbuildable ext cl b w ltac:(lia)).
    rewrite (Part000_handleAccountChange_insufficient ext cl b w ltac:(lia) ltac:(lia)).
    reflexivity.
  - destruct (Api_handleAccountChange_outcome ext cl b w ltac:(lia)) as (_ & _ & -> & _).
    destruct (Part000_handleAccountChange_outcome ext cl b w ltac:(lia)) as (_ & -> & _).
    reflexivity.
Qed.

(** C9 (the files differ). On exactly 5000 lamports api/index.js sends a
    transfer of 0 lamports and, the cluster accepting and confirming, logs
    an entry, where part_000 sends and logs nothing.  On 4000 lamports
    neither file sends or logs, but the handler of api/index.js throws
    where the one of part_000 returns.  On 1,000,000 lamports, accepted and
    confirmed, both send 995,000 lamports and log one entry with the same
    signature, source, destination and status, but api/index.js logs the
    amount 0.001 and part_000 the amount 0.000995. *)
Theorem native_handlers_differ :
  let api b := Api.handleAccountChange cluster_ok closure_A {| lamports := b |} initial in
  let part b := Part000.handleAccountChange cluster_ok closure_A {| lamports := b |} initial in
  (sent (snd (api 5000)) = [(native_transaction closure_A 0, [wallet_A])] /\
   sent (snd (part 5000)) = [] /\
   length (transactionLog (snd (api 5000))) = 1%nat /\
   transactionLog (snd (part 5000)) = []) /\
  (is_Err (fst (api 4000)) /\ fst (part 4000) = Ok tt /\
   sent (snd (api 4000)) = [] /\ sent (snd (part 4000)) = [] /\
   transactionLog (snd (api 4000)) = [] /\ transactionLog (snd (part 4000)) = []) /\
  (sent (snd (api 1000000)) = sent (snd (part 1000000)) /\
   exists entry entry',
     transactionLog (snd (api 1000000)) = [entry] /\
     transactionLog (snd (part 1000000)) = [entry'] /\
     signature entry = signature entry' /\
     from entry = from entry' /\
     to entry = to entry' /\
     status entry = status entry' /\
     (amount entry == 1 # 1000)%Q /\
     (amount entry' == 995 # 1000000)%Q /\
     ~ (amount entry == amount entry')%Q).
Proof.
  cbv zeta. split; [|split].
  - vm_compute. repeat split.
  - vm_compute. repeat split.
  - split; [vm_compute; reflexivity|].
    eexists. eexists.
    split; [vm_compute; reflexivity|]. split; [vm_compute; reflexivity|].
    cbn [signature from to status amount].
    repeat (split; [reflexivity|]).
    unfold per_sol, Qeq. cbn. discriminate.
Qed.

(** ** The registry *)

(** A well-formed address is none of the names an object inherits. *)
Lemma address_not_inherited a :
  is_address a = true -> existsb (String.eqb a) Object_prototype = false.
Proof.
  intros Ha. destruct (existsb (String.eqb a) Object_prototype) eqn:Hex; [|reflexivity].
  apply existsb_exists in Hex. destruct Hex as (x & Hin & Heq).
  apply String.eqb_eq in Heq. subst x.
  cbn in Hin.
  repeat (destruct Hin as [<-|Hin]; [vm_compute in Ha; discriminate|]).
  destruct Hin.
Qed.

Lemma stop_monitoring_absent a w :
  is_address a = true ->
  monitoringTasks w !! a = None ->
  stop_monitoring a w = (Ok not_found, w).
Proof.
  intros Ha Hnone. unfold stop_monitoring, monitoringTasks_get.
  rewrite Hnone, (address_not_inherited a Ha). reflexivity.
Qed.

Lemma stop_monitoring_present a task w :
  monitoringTasks w !! a = Some task ->
  stop_monitoring a w
  = (Ok stopped,
     with_console
       (fun c => c ++ [{| level := Log; text := "Monitoring stopped for $";
                          args := [Str a] |}])
       (with_monitoringTasks (delete a)
          (with_subscriptions
             (List.filter
                (fun s => negb (listener (asset_kind task) (connection task)
                                  (subscriptionId task) s)))
             w))).
Proof.
  intros Hsome. unfold stop_monitoring, monitoringTasks_get, asset_kind.
  rewrite Hsome. destruct (truthy (tokenMintAddress task)); reflexivity.
Qed.

Lemma listener_spec kind c id s :
  listener kind c id s = true <->
  conn_id (sub_connection s) = conn_id c /\ sub_id s = id /\ sub_kind s = kind.
Proof.
  unfold listener. rewrite !andb_true_iff, !Nat.eqb_eq.
  assert (Hk : AssetKind_eqb (sub_kind s) kind = true <-> sub_kind s = kind)
    by (destruct (sub_kind s), kind; cbn; split; congruence).
  tauto.
Qed.

(** C5. For an address [a]: with no entry for [a] in the registry, stop
    answers 400, "Monitoring not found", and changes nothing; with an entry,
    it calls the removal function of the entry's asset kind
    ([removeProgramAccountChangeListener] for a token watch,
    [removeAccountChangeListener] for a native one) on the stored
    connection and handle, so that afterwards the listeners installed are
    exactly those installed before other than the one of that kind with
    that handle on that connection, it deletes the entry and answers 200; a
    second stop then answers 400 and changes nothing. *)
Theorem stop_monitoring_spec (a : string) (w : World) :
  is_address a = true ->
  (monitoringTasks w !! a = None ->
   stop_monitoring a w = (Ok not_found, w)) /\
  (forall task,
      monitoringTasks w !! a = Some task ->
      let r := stop_monitoring a w in
      fst r = Ok stopped /\
      subscriptions (snd r)
      = subscriptions
          (snd (match asset_kind task with
                | Token => removeProgramAccountChangeListener
                             (connection task) (subscriptionId task) w
                | Native => removeAccountChangeListener
                              (connection task) (subscriptionId task) w
                end)) /\
      subscriptions (snd r)
      = List.filter
          (fun s => negb ((conn_id (sub_connection s) =? conn_id (connection task))%nat
                          && (sub_id s =? subscriptionId task)%nat
                          && AssetKind_eqb (sub_kind s) (asset_kind task)))
          (subscriptions w) /\
      (forall s,
          In s (subscriptions (snd r)) <->
          In s (subscriptions w) /\
          ~ (conn_id (sub_connection s) = conn_id (connection task) /\
             sub_id s = subscriptionId task /\
             sub_kind s = asset_kind task)) /\
      ~ In (listener_of a task) (subscriptions (snd r)) /\
      monitoringTasks (snd r) = delete a (monitoringTasks w) /\
      transactionLog (snd r) = transactionLog w /\
      stop_monitoring a (snd r) = (Ok not_found, snd r)).
Proof.
  intros Ha. split.
  - apply stop_monitoring_absent. exact Ha.
  - intros task Hsome. cbv zeta.
    rewrite (stop_monitoring_present a task w Hsome). cbn [fst snd].
    assert (Hiff : forall s,
               In s (List.filter
                       (fun s => negb (listener (asset_kind task) (connection task)
                                         (subscriptionId task) s))
                       (subscriptions w)) <->
               In s (subscriptions w) /\
               ~ (conn_id (sub_connection s) = conn_id (connection task) /\
                  sub_id s = subscriptionId task /\
                  sub_kind s = asset_kind task)).
    { intros s. rewrite List.filter_In, <- listener_spec.
      destruct (listener (asset_kind task) (connection task) (subscriptionId task) s);
        cbn; split; intros [H1 H2]; split; try assumption; congruence. }
    split; [reflexivity|]. split.
    { destruct (asset_kind task); reflexivity. }
    split; [reflexivity|]. split; [exact Hiff|]. split.
    { cbn. intros Hin. apply Hiff in Hin. destruct Hin as [_ Hnot].
      apply Hnot. repeat split. }
    split; [reflexivity|]. split; [reflexivity|].
    apply stop_monitoring_absent; [exact Ha|].
    cbn. apply lookup_delete_eq.
Qed.

Lemma stop_monitoring_spec_witness :
  stop_monitoring (publicKey wallet_A) initial = (Ok not_found, initial) /\
  (let w := snd (start_monitoring cluster_two_wallets start_D
                   (snd (start_monitoring cluster_two_wallets start_A initial))) in
   fst (stop_monitoring (publicKey wallet_A) w) = Ok stopped /\
   map sub_account (subscriptions w) = [publicKey wallet_A; publicKey wallet_D] /\
   map sub_account (subscriptions (snd (stop_monitoring (publicKey wallet_A) w)))
   = [publicKey wallet_D] /\
   fst (stop_monitoring (publicKey wallet_A) (snd (stop_monitoring (publicKey wallet_A) w)))
   = Ok not_found) /\
  (fst (stop_monitoring (publicKey wallet_A) token_watch_state) = Ok stopped /\
   subscriptions (snd (stop_monitoring (publicKey wallet_A) token_watch_state))
   = [native_listener_D]).
Proof.
  split; [|split].
  - apply (proj1 (stop_monitoring_spec (publicKey wallet_A) initial eq_refl)).
    reflexivity.
  - cbv zeta.
    set (w := snd (start_monitoring cluster_two_wallets start_D
                     (snd (start_monitoring cluster_two_wallets start_A initial)))).
    assert (Hsome : monitoringTasks w !! publicKey wallet_A
                    = Some (started_task start_A wallet_A secure_B
                              "https://api.devnet.solana.com" initial))
      by (vm_compute; reflexivity).
    destruct (proj2 (stop_monitoring_spec (publicKey wallet_A) w eq_refl) _ Hsome)
      as (Hfst & _ & Hsubs & _ & _ & _ & _ & Hagain).
    split; [exact Hfst|]. split; [vm_compute; reflexivity|]. split.
    + rewrite Hsubs. vm_compute. reflexivity.
    + rewrite Hagain. reflexivity.
  - assert (Hsome : monitoringTasks token_watch_state !! publicKey wallet_A
                    = Some token_task_A)
      by (vm_compute; reflexivity).
    destruct (proj2 (stop_monitoring_spec (publicKey wallet_A) token_watch_state eq_refl)
                _ Hsome)
      as (Hfst & _ & Hsubs & _).
    split; [exact Hfst|]. rewrite Hsubs. vm_compute. reflexivity.
Defined.

(** A start without a truthy mint address whose key derivation,
    destination key and network name are accepted. *)
Lemma start_monitoring_ok ext req kp dest url w :
  keypairFromSeed ext (String.concat " " (seed req)) = Ok kp ->
  newPublicKey ext (secureWalletPublicKey req) = Ok dest ->
  clusterApiUrl ext (network req) = Ok url ->
  truthy (body_tokenMintAddress req) = false ->
  start_monitoring ext req w = (Ok (started (publicKey kp)), after_start req kp dest url w).
Proof.
  intros Hkp Hdest Hurl Hnative.
  unfold start_monitoring, try_catch, newConnection, bind at 1 2 3, lift.
  rewrite Hkp, Hdest. unfold bind at 1. rewrite Hurl, Hnative.
  unfold onAccountChange, subscribe, next_handle, console_log, modify, bind, ret. cbn.
  rewrite lookup_insert_eq. cbn.
  unfold after_start, listener_of, started_task, asset_kind. cbn.
  rewrite Hnative. reflexivity.
Qed.

(** A start with a truthy mint address never succeeds: the subscription
    call throws inside the [try] block. *)
Lemma start_monitoring_token ext req kp dest url w :
  keypairFromSeed ext (String.concat " " (seed req)) = Ok kp ->
  newPublicKey ext (secureWalletPublicKey req) = Ok dest ->
  clusterApiUrl ext (network req) = Ok url ->
  truthy (body_tokenMintAddress req) = true ->
  start_monitoring ext req w
  = (Ok (start_failed (not_a_function "connection.onTokenAccountChange")),
     after_token_start req kp w).
Proof.
  intros Hkp Hdest Hurl Htoken.
  unfold start_monitoring, try_catch, newConnection, bind at 1 2 3, lift.
  rewrite Hkp, Hdest. unfold bind at 1. rewrite Hurl, Htoken.
  reflexivity.
Qed.

(** The three ways a start can go. *)
Lemma start_monitoring_cases ext req w :
  (exists kp dest url,
      keypairFromSeed ext (String.concat " " (seed req)) = Ok kp /\
      newPublicKey ext (secureWalletPublicKey req) = Ok dest /\
      clusterApiUrl ext (network req) = Ok url /\
      truthy (body_tokenMintAddress req) = false) \/
  (exists e,
      start_monitoring ext req w
      = (Ok (start_failed e),
         with_console (fun c => c ++ [error_line "Error deriving key pair:" e]) w)) \/
  (exists kp,
      start_monitoring ext req w
      = (Ok (start_failed (not_a_function "connection.onTokenAccountChange")),
         after_token_start req kp w)).
Proof.
  destruct (keypairFromSeed ext (String.concat " " (seed req))) as [kp|e] eqn:Hkp.
  2:{ right. left. exists e. unfold start_monitoring, try_catch, bind at 1, lift.
      rewrite Hkp. reflexivity. }
  destruct (newPublicKey ext (secureWalletPublicKey req)) as [dest|e] eqn:Hdest.
  2:{ right. left. exists e. unfold start_monitoring, try_catch, bind at 1 2, lift.
      rewrite Hkp, Hdest. reflexivity. }
  destruct (clusterApiUrl ext (network req)) as [url|e] eqn:Hurl.
  2:{ right. left. exists e.
      unfold start_monitoring, try_catch, newConnection, bind at 1 2 3, lift.
      rewrite Hkp, Hdest. unfold bind at 1. rewrite Hurl. reflexivity. }
  destruct (truthy (body_tokenMintAddress req)) eqn:Hkind.
  - right. right. exists kp.
    apply (start_monitoring_token ext req kp dest url w Hkp Hdest Hurl Hkind).
  - left. exists kp, dest, url. auto.
Qed.

(** A second start without mint address, for an address that already has
    a registry entry, succeeds like a first one: it answers 200 with the
    watched address, and the entry under that address is replaced by one
    holding the new connection and the handle of the listener just
    installed on it; the other entries are untouched, and the listeners
    installed before are all still installed. *)
Lemma start_monitoring_native_overwrites ext req kp dest url old w :
  keypairFromSeed ext (String.concat " " (seed req)) = Ok kp ->
  newPublicKey ext (secureWalletPublicKey req) = Ok dest ->
  clusterApiUrl ext (network req) = Ok url ->
  truthy (body_tokenMintAddress req) = false ->
  monitoringTasks w !! publicKey kp = Some old ->
  let r := start_monitoring ext req w in
  let new := started_task req kp dest url w in
  fst r = Ok (started (publicKey kp)) /\
  monitoringTasks (snd r) !! publicKey kp = Some new /\
  (forall a, a <> publicKey kp -> monitoringTasks (snd r) !! a = monitoringTasks w !! a) /\
  dom (monitoringTasks (snd r)) = dom (monitoringTasks w) /\
  conn_id (connection new) = connections w /\
  subscriptions (snd r) = subscriptions w ++ [listener_of (publicKey kp) new].
Proof.
  intros Hkp Hdest Hurl Hnative Hold. cbv zeta.
  rewrite (start_monitoring_ok ext req kp dest url w Hkp Hdest Hurl Hnative). cbn [fst snd].
  split; [reflexivity|]. split; [cbn; apply lookup_insert_eq|].
  split; [intros a Ha; cbn; apply lookup_insert_ne; congruence|].
  split.
  { cbn. rewrite dom_insert_L. apply subseteq_union_1_L, singleton_subseteq_l.
    eapply elem_of_dom_2. exact Hold. }
  repeat split.
Qed.

(** C8 (the code departs from it for token watches). A watch of
    [wallet_A] is running; a second start for the same wallet, this time
    with a mint address, all of whose library calls succeed, is answered
    500 "Error deriving key pair": [connection.onTokenAccountChange] is not
    a method of the connection, the call throws inside the [try] block
    before the registry is written, and the entry and the listener of the
    first start stay as they were.  (A second start without mint address
    does replace the entry and answers 200.) *)
Theorem second_token_start_is_refused :
  let w := snd (start_monitoring cluster_ok start_A initial) in
  let token := start_monitoring cluster_ok start_A_token w in
  let native := start_monitoring cluster_ok start_A w in
  (fst token
   = Ok {| http_status := 500; message := "Error deriving key pair";
           body_publicKey := None;
           body_error := Some "connection.onTokenAccountChange is not a function" |} /\
   monitoringTasks (snd token) = monitoringTasks w /\
   subscriptions (snd token) = subscriptions w /\
   monitoringTasks w !! publicKey wallet_A
   = Some (started_task start_A wallet_A secure_B "https://api.devnet.solana.com" initial)) /\
  (fst native = Ok (started (publicKey wallet_A)) /\
   monitoringTasks (snd native) !! publicKey wallet_A
   = Some (started_task start_A wallet_A secure_B "https://api.devnet.solana.com" w) /\
   length (subscriptions (snd native)) = 2%nat).
Proof.
  cbv zeta.
  set (w := snd (start_monitoring cluster_ok start_A initial)).
  split.
  - rewrite (start_monitoring_token cluster_ok start_A_token wallet_A secure_B
               "https://api.devnet.solana.com" w eq_refl eq_refl eq_refl eq_refl).
    cbn [fst snd]. split; [reflexivity|]. split; [reflexivity|]. split; [reflexivity|].
    vm_compute. reflexivity.
  - rewrite (start_monitoring_ok cluster_ok start_A wallet_A secure_B
               "https://api.devnet.solana.com" w eq_refl eq_refl eq_refl eq_refl).
    cbn [fst snd]. split; [reflexivity|]. split; [cbn; apply lookup_insert_eq|].
    vm_compute. reflexivity.
Qed.

(** ** Handlers leave the registry and the listeners alone *)

Lemma keeps_ret {A} (a : A) : keeps_watches (ret a).
Proof. intros w. apply same_watches_refl. Qed.

Lemma keeps_throw {A} (e : JsError) : keeps_watches (@throw A e).
Proof. intros w. apply same_watches_refl. Qed.

Lemma keeps_lift {A} (r : Result A) : keeps_watches (lift r).
Proof. intros w. apply same_watches_refl. Qed.

Lemma keeps_bind {A B} (m : M A) (k : A -> M B) :
  keeps_watches m -> (forall a, keeps_watches (k a)) -> keeps_watches (bind m k).
Proof.
  intros Hm Hk w. unfold bind. specialize (Hm w).
  destruct (m w) as [[a|e] w1]; cbn [snd] in *.
  - eapply same_watches_trans; [exact Hm | apply Hk].
  - exact Hm.
Qed.

Lemma keeps_try_catch {A} (m : M A) (h : JsError -> M A) :
  keeps_watches m -> (forall e, keeps_watches (h e)) -> keeps_watches (try_catch m h).
Proof.
  intros Hm Hh w. unfold try_catch. specialize (Hm w).
  destruct (m w) as [[a|e] w1]; cbn [snd] in *.
  - exact Hm.
  - eapply same_watches_trans; [exact Hm | apply Hh].
Qed.

Lemma keeps_console_log text args : keeps_watches (console_log text args).
Proof. intros w. repeat split. Qed.

Lemma keeps_console_error text args : keeps_watches (console_error text args).
Proof. intros w. repeat split. Qed.

Lemma keeps_transactionLog_push entry : keeps_watches (transactionLog_push entry).
Proof. intros w. repeat split. Qed.

Lemma keeps_broadcastTransactionLog : keeps_watches Api.broadcastTransactionLog.
Proof. intros w. repeat split. Qed.

Lemma keeps_sendTransaction ext tx signers : keeps_watches (sendTransaction ext tx signers).
Proof. intros w. repeat split. Qed.

Lemma keeps_confirmTransactionWithRetries ext sig retries timeout :
  keeps_watches (confirmTransactionWithRetries ext sig retries timeout).
Proof. intros w. apply polling_only_watches, confirm_loop_frame. Qed.

Lemma keeps_PublicKey_of ext v : keeps_watches (PublicKey_of ext v).
Proof. destruct v; [apply keeps_lift | apply keeps_throw]. Qed.

Lemma keeps_identifier name : keeps_watches (Part000.identifier name).
Proof.
  unfold Part000.identifier.
  destruct (existsb _ _); [apply keeps_ret | apply keeps_throw].
Qed.

Lemma keeps_transfer fromPubkey toPubkey lamports :
  keeps_watches (SystemProgram.transfer fromPubkey toPubkey lamports).
Proof.
  unfold SystemProgram.transfer.
  destruct (lamports <? 0); [apply keeps_throw | apply keeps_ret].
Qed.

Create HintDb watches.
#[local] Hint Resolve keeps_ret keeps_throw keeps_lift keeps_console_log
  keeps_console_error keeps_transactionLog_push keeps_broadcastTransactionLog
  keeps_sendTransaction keeps_confirmTransactionWithRetries keeps_PublicKey_of
  keeps_identifier keeps_transfer : watches.

Ltac keeps_watches_tac :=
  repeat first
    [ progress intros
    | solve [auto with watches]
    | apply keeps_bind
    | apply keeps_try_catch
    | match goal with
      | |- keeps_watches (if ?b then _ else _) => destruct b
      end ].

Lemma native_handler_keeps file ext cl accountInfo :
  keeps_watches (native_handler file ext cl accountInfo).
Proof.
  destruct file; cbn [native_handler];
    [unfold Api.handleAccountChange | unfold Part000.handleAccountChange];
    cbv zeta; keeps_watches_tac.
Qed.

Lemma token_handler_keeps file ext cl accountInfo :
  keeps_watches (token_handler file ext cl accountInfo).
Proof.
  destruct file; cbn [token_handler];
    [unfold Api.handleTokenAccountChange | unfold Part000.handleTokenAccountChange];
    cbv zeta; keeps_watches_tac.
Qed.

(** ** One listener per watched address *)

Lemma listener_of_is_listener a task :
  listener (asset_kind task) (connection task) (subscriptionId task) (listener_of a task) = true.
Proof.
  unfold listener, listener_of. cbn. rewrite !Nat.eqb_refl.
  destruct (asset_kind task); reflexivity.
Qed.

Lemma no_account_no_listener a (l : list Subscription) :
  ~ In a (map sub_account l) ->
  List.filter (fun s => String.eqb (sub_account s) a) l = [].
Proof.
  induction l as [|s l IH]; intros Hnot; [reflexivity|]. cbn in *.
  destruct (String.eqb_spec (sub_account s) a) as [Heq|Hne].
  - destruct Hnot. left. exact Heq.
  - apply IH. intros Hin. apply Hnot. right. exact Hin.
Qed.

(** Distinct accounts: at most one listener each. *)
Lemma distinct_accounts_one_listener a (l : list Subscription) :
  NoDup (map sub_account l) ->
  (length (List.filter (fun s => String.eqb (sub_account s) a) l) <= 1)%nat.
Proof.
  induction l as [|s l IH]; intros Hnd; cbn; [lia|].
  cbn in Hnd. apply NoDup_cons in Hnd. destruct Hnd as [Hnot Hnd].
  rewrite list_elem_of_In in Hnot.
  destruct (String.eqb_spec (sub_account s) a) as [Heq|Hne].
  - subst a. rewrite (no_account_no_listener _ _ Hnot). cbn. lia.
  - apply IH. exact Hnd.
Qed.

Lemma NoDup_map_filter {A B} (f : A -> B) (p : A -> bool) (l : list A) :
  NoDup (map f l) -> NoDup (map f (List.filter p l)).
Proof.
  induction l as [|x l IH]; intros Hnd; cbn; [constructor|].
  cbn in Hnd. apply NoDup_cons in Hnd. destruct Hnd as [Hnot Hnd].
  destruct (p x); [|apply IH; exact Hnd].
  cbn. apply NoDup_cons. split; [|apply IH; exact Hnd].
  intros Hin. apply Hnot. apply list_elem_of_In. apply list_elem_of_In in Hin.
  apply List.in_map_iff in Hin.
  destruct Hin as (y & Hy & Hin). apply List.filter_In in Hin.
  apply List.in_map_iff. exists y. tauto.
Qed.

Lemma tracked_initial : tracked initial.
Proof. split; [constructor | intros s []]. Qed.

Lemma tracked_same_watches w w' : same_watches w w' -> tracked w -> tracked w'.
Proof.
  intros (Hreg & _ & Hsubs & _) [Hnd Hall]. unfold tracked.
  rewrite Hreg, Hsubs. split; assumption.
Qed.

(** A start for an address that is not registered keeps the listeners
    tracked. *)
Lemma tracked_start_fresh ext req w :
  tracked w ->
  (forall a, start_address ext req = Some a -> monitoringTasks w !! a = None) ->
  tracked (snd (start_monitoring ext req w)).
Proof.
  intros [Hnd Hall] Hfresh.
  destruct (start_monitoring_cases ext req w)
    as [(kp & dest & url & Hkp & Hdest & Hurl & Hnative)|[(e & ->)|(kp & ->)]].
  2,3: split; assumption.
  rewrite (start_monitoring_ok ext req kp dest url w Hkp Hdest Hurl Hnative). cbn [snd].
  assert (Hnone : monitoringTasks w !! publicKey kp = None).
  { apply Hfresh. unfold start_address. rewrite Hkp. reflexivity. }
  assert (Hnew : forall s, In s (subscriptions w) -> sub_account s <> publicKey kp).
  { intros s Hs Heq. destruct (Hall s Hs) as (t & Ht & _). congruence. }
  split; cbn.
  - rewrite map_app. cbn. apply NoDup_app.
    split; [exact Hnd|]. split; [|apply NoDup_singleton].
    intros x Hx Hx'. apply list_elem_of_In in Hx. apply list_elem_of_In in Hx'.
    destruct Hx' as [<-|[]].
    apply List.in_map_iff in Hx. destruct Hx as (s & Heq & Hs).
    exact (Hnew s Hs Heq).
  - intros s Hs. apply List.in_app_iff in Hs. destruct Hs as [Hs|[<-|[]]].
    + destruct (Hall s Hs) as (t & Ht & Hl). exists t. split; [|exact Hl].
      rewrite lookup_insert_ne; [exact Ht|].
      intros Heq. exact (Hnew s Hs (eq_sym Heq)).
    + exists (started_task req kp dest url w). split.
      * cbn. apply lookup_insert_eq.
      * apply listener_of_is_listener.
Qed.

(** A stop keeps the listeners tracked. *)
Lemma tracked_stop a w : tracked w -> tracked (snd (stop_monitoring a w)).
Proof.
  intros [Hnd Hall].
  destruct (monitoringTasks w !! a) as [task|] eqn:Hreg.
  - rewrite (stop_monitoring_present a task w Hreg). cbn [snd]. split; cbn.
    + apply NoDup_map_filter. exact Hnd.
    + intros s Hs. apply List.filter_In in Hs. destruct Hs as [Hs Hkeep].
      destruct (Hall s Hs) as (t & Ht & Hl). exists t. split; [|exact Hl].
      rewrite lookup_delete_ne; [exact Ht|].
      intros Heq. assert (Htask : t = task) by congruence. subst t.
      rewrite Hl in Hkeep. discriminate.
  - unfold stop_monitoring, monitoringTasks_get. rewrite Hreg.
    destruct (existsb (String.eqb a) Object_prototype); split; assumption.
Qed.

(** Every event keeps the listeners tracked, as long as a start does not
    name a registered address. *)
Lemma tracked_step file ext e w :
  tracked w ->
  (forall req a, e = StartMonitoring req -> start_address ext req = Some a ->
                 monitoringTasks w !! a = None) ->
  tracked (step file ext e w).
Proof.
  intros Ht Hfresh. destruct e as [req|key|n accountInfo|n accountInfo]; cbn [step].
  - apply tracked_start_fresh; [exact Ht|]. intros a Ha. exact (Hfresh req a eq_refl Ha).
  - apply tracked_stop. exact Ht.
  - destruct (subscriptions w !! n) as [s|]; [|exact Ht].
    destruct (sub_kind s); [|exact Ht].
    eapply tracked_same_watches; [apply native_handler_keeps | exact Ht].
  - destruct (subscriptions w !! n) as [s|]; [|exact Ht].
    destruct (sub_kind s); [exact Ht|].
    eapply tracked_same_watches; [apply token_handler_keeps | exact Ht].
Qed.

Lemma tracked_run file ext events : forall w,
  tracked w ->
  starts_fresh file ext events w = true ->
  tracked (run file ext events w).
Proof.
  induction events as [|e events IH]; intros w Ht Hfresh; [exact Ht|].
  cbn [run fold_left]. cbn [starts_fresh] in Hfresh.
  apply andb_prop in Hfresh. destruct Hfresh as [He Hrest].
  apply IH; [|exact Hrest].
  apply tracked_step; [exact Ht|].
  intros req a -> Ha. rewrite Ha in He.
  apply bool_decide_eq_true in He. exact He.
Qed.

(** Every successful start installs one more listener for its address,
    registered or not: nothing is removed. *)
Lemma start_monitoring_adds_listener ext req kp dest url w :
  keypairFromSeed ext (String.concat " " (seed req)) = Ok kp ->
  newPublicKey ext (secureWalletPublicKey req) = Ok dest ->
  clusterApiUrl ext (network req) = Ok url ->
  truthy (body_tokenMintAddress req) = false ->
  active_subscriptions (publicKey kp) (snd (start_monitoring ext req w))
  = S (active_subscriptions (publicKey kp) w).
Proof.
  intros Hkp Hdest Hurl Hnative.
  rewrite (start_monitoring_ok ext req kp dest url w Hkp Hdest Hurl Hnative).
  unfold after_start.
  unfold active_subscriptions. cbn [snd]. cbn [subscriptions with_monitoringTasks
    with_nextSubscriptionId with_subscriptions with_console with_connections].
  rewrite List.filter_app, length_app. cbn [List.filter listener_of sub_account].
  rewrite String.eqb_refl. cbn. lia.
Qed.

(** Two starts for one address leave two listeners installed for it: the
    registry entry is replaced, the first listener is not removed. *)
Lemma second_start_leaves_two_listeners :
  let w := run api_index_js cluster_ok
             [StartMonitoring start_A; StartMonitoring start_A] initial in
  active_subscriptions (publicKey wallet_A) w = 2%nat /\
  size (monitoringTasks w) = 1%nat /\
  ~ (forall a, (active_subscriptions a w <= 1)%nat).
Proof.
  cbv zeta. split; [vm_compute; reflexivity|]. split; [vm_compute; reflexivity|].
  intros H. specialize (H (publicKey wallet_A)). vm_compute in H. lia.
Qed.

(** C7, amended. In every state reached from the initial one by starts,
    stops and notifications among which no start names an address that is
    in the registry at that moment, every address has at most one listener
    installed. *)
Theorem one_subscription_per_address file ext events a :
  starts_fresh file ext events initial = true ->
  (active_subscriptions a (run file ext events initial) <= 1)%nat.
Proof.
  intros Hfresh.
  destruct (tracked_run file ext events initial tracked_initial Hfresh) as [Hnd _].
  apply distinct_accounts_one_listener. exact Hnd.
Qed.

Lemma one_subscription_per_address_witness :
  (active_subscriptions (publicKey wallet_A)
     (run part_000 cluster_ok
        [StartMonitoring start_A;
         AccountChange 0 {| lamports := 1000000 |};
         StopMonitoring (publicKey wallet_A);
         StopMonitoring "constructor";
         StartMonitoring start_A]
        initial) <= 1)%nat.
Proof.
  apply (one_subscription_per_address part_000 cluster_ok
           [StartMonitoring start_A;
            AccountChange 0 {| lamports := 1000000 |};
            StopMonitoring (publicKey wallet_A);
            StopMonitoring "constructor";
            StartMonitoring start_A]
           (publicKey wallet_A)).
  vm_compute. reflexivity.
Defined.

(** ** Reachable states *)

Lemma run_preserves file ext (P : World -> Prop) :
  (forall e w, P w -> P (step file ext e w)) ->
  forall events w, P w -> P (run file ext events w).
Proof.
  intros Hstep events. induction events as [|e events IH]; intros w Hw; [exact Hw|].
  cbn [run fold_left]. apply IH, Hstep, Hw.
Qed.

Lemma step_notification_watches file ext e w :
  (forall req, e <> StartMonitoring req) ->
  (forall key, e <> StopMonitoring key) ->
  same_watches w (step file ext e w).
Proof.
  intros Hstart Hstop. destruct e as [req|key|n accountInfo|n accountInfo]; cbn [step].
  - destruct (Hstart req eq_refl).
  - destruct (Hstop key eq_refl).
  - destruct (subscriptions w !! n) as [s|]; [|apply same_watches_refl].
    destruct (sub_kind s); [|apply same_watches_refl].
    apply native_handler_keeps.
  - destruct (subscriptions w !! n) as [s|]; [|apply same_watches_refl].
    destruct (sub_kind s); [apply same_watches_refl|].
    apply token_handler_keeps.
Qed.

(** The registry only ever holds well-formed addresses as keys: an entry
    never sits under a name that [monitoringTasks] inherits. *)
Lemma keys_are_addresses_step file ext e w :
  keys_are_addresses w -> keys_are_addresses (step file ext e w).
Proof.
  intros Hw. destruct e as [req|key|n accountInfo|n accountInfo].
  - cbn [step].
    destruct (start_monitoring_cases ext req w)
      as [(kp & dest & url & Hkp & Hdest & Hurl & Hnative)|[(e & ->)|(kp & ->)]];
      [|exact Hw|exact Hw].
    rewrite (start_monitoring_ok ext req kp dest url w Hkp Hdest Hurl Hnative).
    intros a task. cbn. rewrite lookup_insert. case_decide as Ha.
    + intros _. subst a. exact (keypair_address ext _ kp Hkp).
    + apply Hw.
  - cbn [step]. destruct (monitoringTasks w !! key) as [task|] eqn:Hreg.
    + rewrite (stop_monitoring_present key task w Hreg).
      intros a t. cbn. intros Hl. apply lookup_delete_Some in Hl.
      destruct Hl as [_ Hl]. exact (Hw a t Hl).
    + unfold stop_monitoring, monitoringTasks_get. rewrite Hreg.
      destruct (existsb (String.eqb key) Object_prototype); exact Hw.
  - destruct (step_notification_watches file ext (AccountChange n accountInfo) w)
      as (Hreg & _); [discriminate | discriminate |].
    unfold keys_are_addresses. rewrite Hreg. exact Hw.
  - destruct (step_notification_watches file ext (TokenAccountChange n accountInfo) w)
      as (Hreg & _); [discriminate | discriminate |].
    unfold keys_are_addresses. rewrite Hreg. exact Hw.
Qed.

Lemma reachable_keys_are_addresses file ext events :
  keys_are_addresses (run file ext events initial).
Proof.
  apply run_preserves; [apply keys_are_addresses_step|].
  intros a task Hl. cbn in Hl. rewrite lookup_empty in Hl. discriminate.
Qed.

(** The connection a start creates is new: no installed listener sits on
    it. *)
Lemma connections_issued_step file ext e w :
  connections_issued w -> connections_issued (step file ext e w).
Proof.
  intros Hw. destruct e as [req|key|n accountInfo|n accountInfo].
  - cbn [step].
    destruct (start_monitoring_cases ext req w)
      as [(kp & dest & url & Hkp & Hdest & Hurl & Hnative)|[(e & ->)|(kp & ->)]].
    + rewrite (start_monitoring_ok ext req kp dest url w Hkp Hdest Hurl Hnative).
      intros s. cbn. intros Hs. apply List.in_app_iff in Hs.
      destruct Hs as [Hs|[<-|[]]].
      * specialize (Hw s Hs). lia.
      * cbn. lia.
    + exact Hw.
    + intros s. cbn. intros Hs. specialize (Hw s Hs). lia.
  - cbn [step]. destruct (monitoringTasks w !! key) as [task|] eqn:Hreg.
    + rewrite (stop_monitoring_present key task w Hreg).
      intros s. cbn. intros Hs. apply List.filter_In in Hs. apply Hw, Hs.
    + unfold stop_monitoring, monitoringTasks_get. rewrite Hreg.
      destruct (existsb (String.eqb key) Object_prototype); exact Hw.
  - destruct (step_notification_watches file ext (AccountChange n accountInfo) w)
      as (_ & Hconn & Hsubs & _); [discriminate | discriminate |].
    unfold connections_issued. rewrite Hsubs, Hconn. exact Hw.
  - destruct (step_notification_watches file ext (TokenAccountChange n accountInfo) w)
      as (_ & Hconn & Hsubs & _); [discriminate | discriminate |].
    unfold connections_issued. rewrite Hsubs, Hconn. exact Hw.
Qed.

Lemma reachable_connections_issued file ext events :
  connections_issued (run file ext events initial).
Proof.
  apply run_preserves; [apply connections_issued_step|]. intros s [].
Qed.

(** When the listeners are tracked, a stop leaves no listener installed
    for the address it was asked to stop. *)
Lemma stop_monitoring_unsubscribes a w :
  tracked w ->
  active_subscriptions a (snd (stop_monitoring a w))
  = match monitoringTasks w !! a with
    | Some _ => 0%nat
    | None => active_subscriptions a w
    end.
Proof.
  intros Ht. destruct (monitoringTasks w !! a) as [task|] eqn:Hreg.
  - destruct (tracked_stop a w Ht) as [_ Hall].
    unfold active_subscriptions.
    rewrite no_account_no_listener; [reflexivity|].
    intros Hin. apply List.in_map_iff in Hin. destruct Hin as (s & Hacc & Hs).
    destruct (Hall s Hs) as (t & Hl & _).
    rewrite (stop_monitoring_present a task w Hreg) in Hl. cbn in Hl.
    rewrite Hacc, lookup_delete_eq in Hl. discriminate.
  - unfold stop_monitoring, monitoringTasks_get. rewrite Hreg.
    destruct (existsb (String.eqb a) Object_prototype); reflexivity.
Qed.

(** Two failed polls followed by an answer: one entry, logged once. *)
Lemma third_poll_confirms_once file :
  let r := native_handler file cluster_slow closure_A {| lamports := 1000000 |} initial in
  fst r = Ok tt /\
  length (polled (snd r)) = 3%nat /\
  length (transactionLog (snd r)) = 1%nat /\
  map status (transactionLog (snd r)) = ["confirmed"].
Proof. destruct file; vm_compute; repeat split. Qed.

(** * Further properties *)

(** ** The retrier with any bound *)

Lemma reply_from_after_retry ext sig timeout w f j :
  reply_from ext
    (with_console f (with_polled (fun l => l ++ [poll_of sig timeout]) w)) sig j
  = reply_from ext w sig (S j).
Proof.
  unfold reply_from. cbn. rewrite length_app. cbn. f_equal. lia.
Qed.

(** The polls of the loop: at most one per turn, all alike. *)
Lemma confirm_loop_polls ext sig retries timeout turns : forall attempt w,
  exists j,
    (j <= turns)%nat /\
    polled (snd (confirm_loop ext sig retries timeout turns attempt w))
    = polled w ++ replicate j (poll_of sig timeout).
Proof.
  induction turns as [|turns IH]; intros attempt w.
  - exists 0%nat. split; [lia|]. cbn. rewrite app_nil_r. reflexivity.
  - rewrite confirm_loop_turn.
    destruct (reply_from ext w sig 0) as [c|e] eqn:Hr.
    + rewrite (confirm_attempt_answer ext sig retries timeout attempt w c Hr).
      exists 1%nat. split; [lia|]. reflexivity.
    + destruct (Z.eq_dec attempt (retries - 1)) as [Heq|Hne].
      * rewrite (confirm_attempt_last ext sig retries timeout attempt w e Hr Heq).
        exists 1%nat. split; [lia|]. reflexivity.
      * rewrite (confirm_attempt_retry ext sig retries timeout attempt w e Hr Hne).
        match goal with |- context [confirm_loop _ _ _ _ _ _ ?w1] =>
          destruct (IH (attempt + 1) w1) as (j & Hj & Hpolls)
        end.
        exists (S j). split; [lia|]. rewrite Hpolls. cbn.
        rewrite <- app_assoc. reflexivity.
Qed.

(** What the loop returns is an answer of the cluster, and what it throws
    is the error of its last turn. *)
Lemma confirm_loop_sound ext sig retries timeout turns : forall attempt w,
  attempt + Z.of_nat turns = retries ->
  turns <> 0%nat ->
  match fst (confirm_loop ext sig retries timeout turns attempt w) with
  | Ok (Some c) => exists k, (k < turns)%nat /\ reply_from ext w sig k = Ok c
  | Ok None => False
  | Err e => reply_from ext w sig (turns - 1) = Err e
  end.
Proof.
  induction turns as [|turns IH]; intros attempt w Hsum Hnz; [congruence|].
  rewrite confirm_loop_turn.
  destruct (reply_from ext w sig 0) as [c|e] eqn:Hr.
  - rewrite (confirm_attempt_answer ext sig retries timeout attempt w c Hr). cbn.
    exists 0%nat. split; [lia | exact Hr].
  - destruct (Z.eq_dec attempt (retries - 1)) as [Heq|Hne].
    + rewrite (confirm_attempt_last ext sig retries timeout attempt w e Hr Heq). cbn.
      replace (turns - 0)%nat with 0%nat by lia. exact Hr.
    + rewrite (confirm_attempt_retry ext sig retries timeout attempt w e Hr Hne).
      match goal with |- context [confirm_loop _ _ _ _ _ _ ?w1] =>
        specialize (IH (attempt + 1) w1 ltac:(lia) ltac:(lia));
        destruct (fst (confirm_loop ext sig retries timeout turns (attempt + 1) w1))
          as [[c'|]|e']
      end.
      * destruct IH as (k & Hk & Hok). rewrite reply_from_after_retry in Hok.
        exists (S k). split; [lia | exact Hok].
      * exact IH.
      * rewrite reply_from_after_retry in IH.
        replace (S turns - 1)%nat with (S (turns - 1)) by lia. exact IH.
Qed.

(** X1. Whatever the bound [retries], when the first [k] polls throw and
    the next one answers, with [k < retries], the retrier returns that
    answer and has polled exactly [k + 1] times, each time for the same
    signature at the commitment "confirmed" with the given timeout. *)
Theorem retrier_returns_first_answer ext sig retries timeout w k c :
  Z.of_nat k < retries ->
  (forall j, (j < k)%nat -> is_Err (reply_from ext w sig j)) ->
  reply_from ext w sig k = Ok c ->
  let r := confirmTransactionWithRetries ext sig retries timeout w in
  fst r = Ok (Some c) /\
  polled (snd r) = polled w ++ replicate (S k) (poll_of sig timeout).
Proof.
  intros Hk Herr Hok. cbv zeta. unfold confirmTransactionWithRetries.
  apply confirm_loop_answer; [lia | lia | exact Herr | exact Hok].
Qed.

Lemma retrier_returns_first_answer_witness :
  fst (confirmTransactionWithRetries cluster_slow "sig" 7 1000 initial)
  = Ok (Some {| value_err := Some "InstructionError" |}) /\
  length (polled (snd (confirmTransactionWithRetries cluster_slow "sig" 7 1000 initial)))
  = 3%nat.
Proof.
  destruct (retrier_returns_first_answer cluster_slow "sig" 7 1000 initial 2
              {| value_err := Some "InstructionError" |}) as [Hfst Hpolls].
  - lia.
  - intros [|[|j]] Hj; simpl; [exact I | exact I | lia].
  - reflexivity.
  - split; [exact Hfst|]. rewrite Hpolls. reflexivity.
Defined.

(** X2. Whatever the positive bound [retries], when that many polls all
    throw, the retrier throws the error of the last one, having polled
    exactly [retries] times. *)
Theorem retrier_throws_last_error ext sig retries timeout w e :
  0 < retries ->
  (forall j, (j < Z.to_nat retries)%nat -> is_Err (reply_from ext w sig j)) ->
  reply_from ext w sig (Z.to_nat retries - 1) = Err e ->
  let r := confirmTransactionWithRetries ext sig retries timeout w in
  fst r = Err e /\
  polled (snd r) = polled w ++ replicate (Z.to_nat retries) (poll_of sig timeout).
Proof.
  intros Hpos Herr Hlast. cbv zeta. unfold confirmTransactionWithRetries.
  replace (Z.to_nat (retries - 0)) with (S (Z.to_nat retries - 1)) by lia.
  replace (Z.to_nat retries) with (S (Z.to_nat retries - 1)) at 3 by lia.
  apply confirm_loop_exhausted; [lia | | exact Hlast].
  intros j Hj. apply Herr. lia.
Qed.

Lemma retrier_throws_last_error_witness :
  fst (confirmTransactionWithRetries cluster_silent "sig" 5 1000 initial)
  = Err timeout_error /\
  length (polled (snd (confirmTransactionWithRetries cluster_silent "sig" 5 1000 initial)))
  = 5%nat.
Proof.
  destruct (retrier_throws_last_error cluster_silent "sig" 5 1000 initial timeout_error)
    as [Hfst Hpolls].
  - lia.
  - intros j Hj. exact I.
  - reflexivity.
  - split; [exact Hfst|]. rewrite Hpolls. reflexivity.
Defined.

(** X3. For every bound and every cluster, the retrier polls at most
    [retries] times (not at all when [retries <= 0]), always for the
    signature it was given, and changes nothing but the record of polls and
    the console: it submits nothing and logs no entry. *)
Theorem retrier_polls_at_most_retries ext sig retries timeout w :
  let r := confirmTransactionWithRetries ext sig retries timeout w in
  (exists j, (Z.of_nat j <= Z.max 0 retries) /\
             polled (snd r) = polled w ++ replicate j (poll_of sig timeout)) /\
  polling_only w (snd r).
Proof.
  cbv zeta. unfold confirmTransactionWithRetries. split.
  - destruct (confirm_loop_polls ext sig retries timeout (Z.to_nat (retries - 0)) 0 w)
      as (j & Hj & Hpolls).
    exists j. split; [lia | exact Hpolls].
  - apply confirm_loop_frame.
Qed.

(** X4. With a positive bound the retrier never returns [undefined]: what
    it returns is the answer of one of its polls, and what it throws is the
    error of the poll numbered [retries]. *)
Theorem retrier_result_is_a_reply ext sig retries timeout w :
  0 < retries ->
  match fst (confirmTransactionWithRetries ext sig retries timeout w) with
  | Ok (Some c) => exists k, Z.of_nat k < retries /\ reply_from ext w sig k = Ok c
  | Ok None => False
  | Err e => reply_from ext w sig (Z.to_nat retries - 1) = Err e
  end.
Proof.
  intros Hpos. unfold confirmTransactionWithRetries.
  pose proof (confirm_loop_sound ext sig retries timeout (Z.to_nat (retries - 0)) 0 w
                ltac:(lia) ltac:(lia)) as H.
  destruct (fst (confirm_loop ext sig retries timeout (Z.to_nat (retries - 0)) 0 w))
    as [[c|]|e].
  - destruct H as (k & Hk & Hok). exists k. split; [lia | exact Hok].
  - exact H.
  - replace (Z.to_nat retries - 1)%nat with (Z.to_nat (retries - 0) - 1)%nat by lia.
    exact H.
Qed.

Lemma retrier_result_is_a_reply_witness :
  exists k, Z.of_nat k < 3 /\
            reply_from cluster_slow initial "sig" k
            = Ok {| value_err := Some "InstructionError" |}.
Proof.
  exact (retrier_result_is_a_reply cluster_slow "sig" 3 60000 initial ltac:(lia)).
Defined.

(** ** What one event does to the cluster record and to the ledger *)

Lemma sweep_polls ext tx signers entry w :
  (length (polled w) <= length (polled (snd (sweep ext tx signers entry w)))
   <= length (polled w) + 3)%nat.
Proof.
  unfold sweep. js_unfold. cbn beta iota.
  destruct (sendTransaction_reply ext (length (sent w)) tx) as [sig|e].
  2:{ cbn. lia. }
  cbn beta iota.
  match goal with |- context [confirmTransactionWithRetries ext sig 3 60000 ?w1] =>
    destruct (confirm_loop_polls ext sig 3 60000 3 0 w1) as (j & Hj & Hpolls);
    change (confirm_loop ext sig 3 60000 3 0 w1)
      with (confirmTransactionWithRetries ext sig 3 60000 w1) in Hpolls;
    assert (Hw1 : polled w1 = polled w) by reflexivity;
    destruct (confirmTransactionWithRetries ext sig 3 60000 w1) as [[c|e] w2]
  end; cbn [snd] in Hpolls; rewrite Hw1 in Hpolls; cbn;
    rewrite Hpolls, length_app, length_replicate; lia.
Qed.

Lemma api_try_effect ext tx signers entry text w :
  (forall sig, status (entry sig) = "confirmed") ->
  event_effect api_index_js w (snd (api_try ext tx signers entry text w)).
Proof.
  intros Hstatus. right. exists (tx, signers).
  destruct (api_try_outcome ext tx signers entry text w) as (_ & _ & Hsent & H).
  split; [exact Hsent|]. split.
  { pose proof (sweep_polls ext tx signers entry w) as Hp.
    rewrite api_try_run.
    destruct (sweep ext tx signers entry w) as [[[]|e] w1]; exact Hp. }
  destruct (sendTransaction_reply ext (length (sent w)) tx) as [sig|e].
  - destruct H as [(c & _ & Hlog & Hbc)|(e & _ & Hlog & Hbc & _)].
    + right. exists (entry sig). auto.
    + left. auto.
  - destruct H as (Hlog & Hbc & _). left. auto.
Qed.

Lemma part000_try_effect ext tx signers entry text w :
  (forall sig, status (entry sig) = "confirmed") ->
  event_effect part_000 w (snd (part000_try ext tx signers entry text w)).
Proof.
  intros Hstatus. right. exists (tx, signers).
  destruct (part000_try_outcome ext tx signers entry text w) as (_ & Hsent & Hbc & H).
  split; [exact Hsent|]. split.
  { pose proof (sweep_polls ext tx signers entry w) as Hp.
    rewrite part000_try_run.
    destruct (sweep ext tx signers entry w) as [[[]|e] w1]; exact Hp. }
  destruct (sendTransaction_reply ext (length (sent w)) tx) as [sig|e].
  - destruct H as [(c & _ & _ & Hlog)|(e & _ & _ & Hlog & _)].
    + right. exists (entry sig). rewrite app_nil_r. auto.
    + left. auto.
  - destruct H as (_ & Hlog & _). left. auto.
Qed.

Lemma event_effect_idle file w : event_effect file w w.
Proof. left. repeat split. Qed.

(** The token handlers when the stored mint address is missing or is no
    public key: the error of [new PublicKey] leaves the handler. *)
Lemma token_handler_no_mint file ext cl accountInfo e w :
  0 < info_amount accountInfo ->
  PublicKey_of ext (closure_tokenMintAddress cl) w = (Err e, w) ->
  token_handler file ext cl accountInfo w
  = (Err e,
     with_console
       (fun c => c ++ [{| level := Log;
                          text := "Received $ tokens, transferring to secure wallet...";
                          args := [Int (info_amount accountInfo)] |}]) w).
Proof.
  intros Ht Hpk.
  assert (Hany : forall w', PublicKey_of ext (closure_tokenMintAddress cl) w' = (Err e, w')).
  { intros w'. unfold PublicKey_of, lift, throw in *.
    destruct (closure_tokenMintAddress cl) as [m|].
    - destruct (newPublicKey ext m); [discriminate|]. congruence.
    - congruence. }
  destruct file; cbn [token_handler];
    [unfold Api.handleTokenAccountChange | unfold Part000.handleTokenAccountChange];
    cbv zeta; (destruct (Z.ltb_spec 0 (info_amount accountInfo)); [|lia]);
    unfold bind at 1 2, console_log at 1, modify at 1; rewrite Hany; reflexivity.
Qed.

Lemma PublicKey_of_cases ext v w :
  (exists mint m, v = Some m /\ newPublicKey ext m = Ok mint) \/
  (exists e, PublicKey_of ext v w = (Err e, w)).
Proof.
  destruct v as [m|]; [|right; eexists; reflexivity].
  destruct (newPublicKey ext m) as [mint|e] eqn:Hm.
  - left. exists mint, m. auto.
  - right. exists e. unfold PublicKey_of, lift. rewrite Hm. reflexivity.
Qed.

Lemma native_handler_effect file ext cl accountInfo w :
  event_effect file w (snd (native_handler file ext cl accountInfo w)).
Proof.
  destruct file; cbn [native_handler].
  - rewrite Api_handleAccountChange_unfold.
    destruct (0 <? lamports accountInfo); [|(left; repeat split)].
    unfold bind at 1. unfold console_log, modify.
    destruct (lamports accountInfo - 5000 <? 0); [(left; repeat split)|].
    match goal with |- context [api_try ext ?tx ?sg ?en ?text ?w0] =>
      exact (api_try_effect ext tx sg en text w0 (fun sig => eq_refl))
    end.
  - rewrite Part000_handleAccountChange_unfold.
    destruct (0 <? lamports accountInfo); [|(left; repeat split)].
    unfold bind at 1. unfold console_log at 1, modify at 1.
    destruct (lamports accountInfo - 5000 <=? 0); [(left; repeat split)|].
    match goal with |- context [part000_try ext ?tx ?sg ?en ?text ?w0] =>
      exact (part000_try_effect ext tx sg en text w0 (fun sig => eq_refl))
    end.
Qed.

Lemma token_handler_effect file ext cl accountInfo w :
  event_effect file w (snd (token_handler file ext cl accountInfo w)).
Proof.
  destruct (Z.ltb_spec 0 (info_amount accountInfo)) as [Ht|Ht].
  2:{ destruct file; cbn [token_handler];
        [unfold Api.handleTokenAccountChange | unfold Part000.handleTokenAccountChange];
        cbv zeta; (destruct (Z.ltb_spec 0 (info_amount accountInfo)); [lia|]);
        (left; repeat split). }
  destruct (PublicKey_of_cases ext (closure_tokenMintAddress cl) w)
    as [(mint & m & Hm & Hmint)|(e & He)].
  2:{ rewrite (token_handler_no_mint file ext cl accountInfo e w Ht He).
      (left; repeat split). }
  destruct file; cbn [token_handler].
  - rewrite (Api_handleTokenAccountChange_unfold ext cl m mint accountInfo w Hm Hmint).
    destruct (Z.ltb_spec 0 (info_amount accountInfo)); [|lia].
    unfold bind at 1. unfold console_log, modify.
    match goal with |- context [api_try ext ?tx ?sg ?en ?text ?w0] =>
      exact (api_try_effect ext tx sg en text w0 (fun sig => eq_refl))
    end.
  - rewrite (Part000_handleTokenAccountChange_unfold ext cl m mint accountInfo w Hm Hmint).
    destruct (Z.ltb_spec 0 (info_amount accountInfo)); [|lia].
    unfold bind at 1. unfold console_log, modify.
    match goal with |- context [part000_try ext ?tx ?sg ?en ?text ?w0] =>
      exact (part000_try_effect ext tx sg en text w0 (fun sig => eq_refl))
    end.
Qed.

Lemma start_monitoring_effect file ext req w :
  event_effect file w (snd (start_monitoring ext req w)).
Proof.
  destruct (start_monitoring_cases ext req w)
    as [(kp & dest & url & Hkp & Hdest & Hurl & Hnative)|[(e & ->)|(kp & ->)]].
  - rewrite (start_monitoring_ok ext req kp dest url w Hkp Hdest Hurl Hnative).
    (left; repeat split).
  - (left; repeat split).
  - (left; repeat split).
Qed.

Lemma stop_monitoring_effect file key w :
  event_effect file w (snd (stop_monitoring key w)).
Proof.
  destruct (monitoringTasks w !! key) as [task|] eqn:Hreg.
  - rewrite (stop_monitoring_present key task w Hreg). (left; repeat split).
  - unfold stop_monitoring, monitoringTasks_get. rewrite Hreg.
    destruct (existsb (String.eqb key) Object_prototype); (left; repeat split).
Qed.

Lemma step_effect file ext e w : event_effect file w (step file ext e w).
Proof.
  destruct e as [req|key|n accountInfo|n accountInfo]; cbn [step].
  - apply start_monitoring_effect.
  - apply stop_monitoring_effect.
  - destruct (subscriptions w !! n) as [s|]; [|(left; repeat split)].
    destruct (sub_kind s); [|(left; repeat split)].
    apply native_handler_effect.
  - destruct (subscriptions w !! n) as [s|]; [|(left; repeat split)].
    destruct (sub_kind s); [(left; repeat split)|].
    apply token_handler_effect.
Qed.

(** X5. One event, whatever it is and whatever the cluster answers, hands
    the cluster at most one transaction; only then may it poll, at most
    three times, and only then may it push an entry, at most one, with
    status "confirmed".  A request on the HTTP surface (start or stop)
    submits, polls and logs nothing. *)
Theorem event_submits_at_most_once file ext e w :
  let w' := step file ext e w in
  ((sent w' = sent w /\ polled w' = polled w /\ transactionLog w' = transactionLog w) \/
   (exists tx,
       sent w' = sent w ++ [tx] /\
       (length (polled w) <= length (polled w') <= length (polled w) + 3)%nat /\
       (transactionLog w' = transactionLog w \/
        exists entry, status entry = "confirmed" /\
                      transactionLog w' = transactionLog w ++ [entry]))) /\
  ((forall n accountInfo, e <> AccountChange n accountInfo) ->
   (forall n accountInfo, e <> TokenAccountChange n accountInfo) ->
   sent w' = sent w /\ polled w' = polled w /\ transactionLog w' = transactionLog w).
Proof.
  cbv zeta. split.
  - destruct (step_effect file ext e w)
      as [(Hs & Hp & Hl & _)|(tx & Hs & Hp & [(Hl & _)|(entry & Hst & Hl & _)])].
    + left. auto.
    + right. exists tx. auto.
    + right. exists tx. split; [exact Hs|]. split; [exact Hp|]. right. exists entry. auto.
  - intros Hn Ht. destruct e as [req|key|n accountInfo|n accountInfo].
    + cbn [step].
      destruct (start_monitoring_cases ext req w)
        as [(kp & dest & url & Hkp & Hdest & Hurl & Hnative)|[(e & ->)|(kp & ->)]].
      * rewrite (start_monitoring_ok ext req kp dest url w Hkp Hdest Hurl Hnative).
        repeat split.
      * repeat split.
      * repeat split.
    + cbn [step]. destruct (monitoringTasks w !! key) as [task|] eqn:Hreg.
      * rewrite (stop_monitoring_present key task w Hreg). repeat split.
      * unfold stop_monitoring, monitoringTasks_get. rewrite Hreg.
        destruct (existsb (String.eqb key) Object_prototype); repeat split.
    + destruct (Hn n accountInfo eq_refl).
    + destruct (Ht n accountInfo eq_refl).
Qed.

Lemma event_submits_at_most_once_witness :
  let w := snd (start_monitoring cluster_ok start_A initial) in
  sent (step api_index_js cluster_ok (StopMonitoring (publicKey wallet_A)) w) = sent w /\
  transactionLog (step api_index_js cluster_ok (StopMonitoring (publicKey wallet_A)) w)
  = transactionLog w.
Proof.
  cbv zeta.
  destruct (proj2 (event_submits_at_most_once api_index_js cluster_ok
                     (StopMonitoring (publicKey wallet_A))
                     (snd (start_monitoring cluster_ok start_A initial))))
    as (Hs & _ & Hl); [discriminate | discriminate |].
  split; [exact Hs | exact Hl].
Defined.

Lemma run_cons file ext e events w :
  run file ext (e :: events) w = run file ext events (step file ext e w).
Proof. reflexivity. Qed.

Lemma run_ledger_grows file ext events : forall w,
  exists added,
    transactionLog (run file ext events w) = transactionLog w ++ added /\
    (length added <= length events)%nat.
Proof.
  induction events as [|e events IH]; intros w.
  - exists []. split; [cbn; rewrite app_nil_r; reflexivity | cbn; lia].
  - rewrite run_cons. destruct (IH (step file ext e w)) as (added & Hrun & Hlen).
    destruct (step_effect file ext e w)
      as [(_ & _ & Hl & _)|(tx & _ & _ & [(Hl & _)|(entry & _ & Hl & _)])].
    + exists added. rewrite Hrun, Hl. split; [reflexivity | cbn; lia].
    + exists added. rewrite Hrun, Hl. split; [reflexivity | cbn; lia].
    + exists (entry :: added). rewrite Hrun, Hl, <- app_assoc.
      split; [reflexivity | cbn; lia].
Qed.

(** X6. The ledger is append-only: after any sequence of events, in either
    file, [GET /transactions] answers the log it would have answered
    before, followed by at most one new entry per event; the route itself
    changes nothing. *)
Theorem transactions_only_grow file ext events w :
  exists added,
    get_transactions (run file ext events (snd (get_transactions w)))
    = (Ok (transactionLog w ++ added), run file ext events w) /\
    fst (get_transactions w) = Ok (transactionLog w) /\
    (length added <= length events)%nat.
Proof.
  destruct (run_ledger_grows file ext events w) as (added & Hrun & Hlen).
  exists added. unfold get_transactions. cbn [fst snd]. rewrite Hrun. auto.
Qed.

(** ** What backs a ledger entry *)

(** One run of the pipeline: it pushes its entry exactly when the
    submission was accepted and one of at most three polls was answered. *)
Lemma sweep_record ext tx signers entry w :
  let r := sweep ext tx signers entry w in
  sent (snd r) = sent w ++ [(tx, signers)] /\
  (exists polls, polled (snd r) = polled w ++ polls) /\
  match fst r with
  | Ok _ =>
      exists sig k c,
        sendTransaction_reply ext (length (sent w)) tx = Ok sig /\
        (k < 3)%nat /\
        polled (snd r) = polled w ++ replicate (S k) (poll_of sig 60000) /\
        reply_from ext w sig k = Ok c /\
        transactionLog (snd r) = transactionLog w ++ [entry sig]
  | Err _ => transactionLog (snd r) = transactionLog w
  end.
Proof.
  cbv zeta. unfold sweep. js_unfold. cbn beta iota.
  destruct (sendTransaction_reply ext (length (sent w)) tx) as [sig|e] eqn:Hsend.
  2:{ cbn. split; [reflexivity|]. split; [|reflexivity].
      exists []. rewrite app_nil_r. reflexivity. }
  cbn beta iota.
  match goal with |- context [confirmTransactionWithRetries ext sig 3 60000 ?w1] =>
    pose proof (confirm_loop_frame ext sig 3 60000 3 0 w1) as Hframe;
    destruct (three_polls ext w1 sig) as [[c (k & Hk & Herr & Hok)]|[e [Herr Hlast]]];
    [ destruct (confirm_loop_answer ext sig 3 60000 k 3%nat 0 w1 c Hk eq_refl Herr Hok)
        as [Hfst Hpolls]
    | destruct (confirm_loop_exhausted ext sig 3 60000 2%nat 0 w1 e eq_refl Herr Hlast)
        as [Hfst Hpolls] ];
    change (confirm_loop ext sig 3 60000 3 0 w1)
      with (confirmTransactionWithRetries ext sig 3 60000 w1) in *;
    destruct (confirmTransactionWithRetries ext sig 3 60000 w1) as [r2 w2]
  end; cbn [fst snd] in *; subst r2;
    destruct Hframe as (Hlog & _ & _ & _ & _ & Hsent & _); cbn.
  - split; [exact Hsent|]. split; [eexists; exact Hpolls|].
    exists sig, k, c. split; [reflexivity|]. split; [exact Hk|].
    split; [exact Hpolls|]. split; [exact Hok|]. rewrite Hlog. reflexivity.
  - split; [exact Hsent|]. split; [eexists; exact Hpolls | exact Hlog].
Qed.

Ltac record_idle :=
  split; [exists []; rewrite app_nil_r; reflexivity|];
  split; [exists []; rewrite app_nil_r; reflexivity|];
  left; reflexivity.

Lemma api_try_record ext tx signers entry text w :
  (forall sig, status (entry sig) = "confirmed") ->
  (forall sig, signature (entry sig) = sig) ->
  event_record ext w (snd (api_try ext tx signers entry text w)).
Proof.
  intros Hstatus Hsig. rewrite api_try_run.
  pose proof (sweep_record ext tx signers entry w) as H. cbv zeta in H.
  destruct (sweep ext tx signers entry w) as [[[]|e] w1]; cbn [fst snd] in *;
    destruct H as (Hsent & Hpolls & H).
  - destruct H as (sig & k & c & Hsend & Hk & Hp & Hr & Hlog).
    split; [exists [(tx, signers)]; exact Hsent|]. split; [exact Hpolls|].
    right. exists (entry sig), (tx, signers), k, c. rewrite Hsig.
    split; [exact Hlog|]. split; [apply Hstatus|]. split; [exact Hsent|].
    split; [exact Hsend|]. split; [exact Hk|]. split; [exact Hp | exact Hr].
  - split; [exists [(tx, signers)]; exact Hsent|]. split; [exact Hpolls|].
    left. exact H.
Qed.

Lemma part000_try_record ext tx signers entry text w :
  (forall sig, status (entry sig) = "confirmed") ->
  (forall sig, signature (entry sig) = sig) ->
  event_record ext w (snd (part000_try ext tx signers entry text w)).
Proof.
  intros Hstatus Hsig. rewrite part000_try_run.
  pose proof (sweep_record ext tx signers entry w) as H. cbv zeta in H.
  destruct (sweep ext tx signers entry w) as [[[]|e] w1]; cbn [fst snd] in *;
    destruct H as (Hsent & Hpolls & H).
  - destruct H as (sig & k & c & Hsend & Hk & Hp & Hr & Hlog).
    split; [exists [(tx, signers)]; exact Hsent|]. split; [exact Hpolls|].
    right. exists (entry sig), (tx, signers), k, c. rewrite Hsig.
    split; [exact Hlog|]. split; [apply Hstatus|]. split; [exact Hsent|].
    split; [exact Hsend|]. split; [exact Hk|]. split; [exact Hp | exact Hr].
  - split; [exists [(tx, signers)]; exact Hsent|]. split; [exact Hpolls|].
    left. exact H.
Qed.

Lemma native_handler_record file ext cl accountInfo w :
  event_record ext w (snd (native_handler file ext cl accountInfo w)).
Proof.
  destruct file; cbn [native_handler].
  - rewrite Api_handleAccountChange_unfold.
    destruct (0 <? lamports accountInfo); [|record_idle].
    unfold bind at 1. unfold console_log, modify.
    destruct (lamports accountInfo - 5000 <? 0); [record_idle|].
    match goal with |- context [api_try ext ?tx ?sg ?en ?text ?w0] =>
      exact (api_try_record ext tx sg en text w0 (fun sig => eq_refl) (fun sig => eq_refl))
    end.
  - rewrite Part000_handleAccountChange_unfold.
    destruct (0 <? lamports accountInfo); [|record_idle].
    unfold bind at 1. unfold console_log at 1, modify at 1.
    destruct (lamports accountInfo - 5000 <=? 0); [record_idle|].
    match goal with |- context [part000_try ext ?tx ?sg ?en ?text ?w0] =>
      exact (part000_try_record ext tx sg en text w0 (fun sig => eq_refl) (fun sig => eq_refl))
    end.
Qed.

Lemma token_handler_record file ext cl accountInfo w :
  event_record ext w (snd (token_handler file ext cl accountInfo w)).
Proof.
  destruct (Z.ltb_spec 0 (info_amount accountInfo)) as [Ht|Ht].
  2:{ destruct file; cbn [token_handler];
        [unfold Api.handleTokenAccountChange | unfold Part000.handleTokenAccountChange];
        cbv zeta; (destruct (Z.ltb_spec 0 (info_amount accountInfo)); [lia|]);
        record_idle. }
  destruct (PublicKey_of_cases ext (closure_tokenMintAddress cl) w)
    as [(mint & m & Hm & Hmint)|(e & He)].
  2:{ rewrite (token_handler_no_mint file ext cl accountInfo e w Ht He). record_idle. }
  destruct file; cbn [token_handler].
  - rewrite (Api_handleTokenAccountChange_unfold ext cl m mint accountInfo w Hm Hmint).
    destruct (Z.ltb_spec 0 (info_amount accountInfo)); [|lia].
    unfold bind at 1. unfold console_log, modify.
    match goal with |- context [api_try ext ?tx ?sg ?en ?text ?w0] =>
      exact (api_try_record ext tx sg en text w0 (fun sig => eq_refl) (fun sig => eq_refl))
    end.
  - rewrite (Part000_handleTokenAccountChange_unfold ext cl m mint accountInfo w Hm Hmint).
    destruct (Z.ltb_spec 0 (info_amount accountInfo)); [|lia].
    unfold bind at 1. unfold console_log, modify.
    match goal with |- context [part000_try ext ?tx ?sg ?en ?text ?w0] =>
      exact (part000_try_record ext tx sg en text w0 (fun sig => eq_refl) (fun sig => eq_refl))
    end.
Qed.

Lemma step_record file ext e w : event_record ext w (step file ext e w).
Proof.
  destruct e as [req|key|n accountInfo|n accountInfo]; cbn [step].
  - destruct (start_monitoring_cases ext req w)
      as [(kp & dest & url & Hkp & Hdest & Hurl & Hnative)|[(e & ->)|(kp & ->)]].
    + rewrite (start_monitoring_ok ext req kp dest url w Hkp Hdest Hurl Hnative).
      record_idle.
    + record_idle.
    + record_idle.
  - destruct (monitoringTasks w !! key) as [task|] eqn:Hreg.
    + rewrite (stop_monitoring_present key task w Hreg). record_idle.
    + unfold stop_monitoring, monitoringTasks_get. rewrite Hreg.
      destruct (existsb (String.eqb key) Object_prototype); record_idle.
  - destruct (subscriptions w !! n) as [s|]; [|record_idle].
    destruct (sub_kind s); [|record_idle].
    apply native_handler_record.
  - destruct (subscriptions w !! n) as [s|]; [|record_idle].
    destruct (sub_kind s); [record_idle|].
    apply token_handler_record.
Qed.

Lemma recorded_sweep_mono ext w w' entry :
  (exists txs, sent w' = sent w ++ txs) ->
  (exists polls, polled w' = polled w ++ polls) ->
  recorded_sweep ext w entry -> recorded_sweep ext w' entry.
Proof.
  intros [txs Hs] [polls Hp] (n & tx & p & Hn & Hr & Hpl & Hc).
  exists n, tx, p. rewrite Hs, Hp.
  split; [apply lookup_app_l_Some; exact Hn|]. split; [exact Hr|].
  split; [apply lookup_app_l_Some; exact Hpl | exact Hc].
Qed.

(** X7. A failed sweep is never recorded.  One event, whatever it is and
    from whatever state, appends an entry to the ledger only when the
    cluster accepted the transaction the event submitted, returning the
    entry's signature, and answered one of the at most three polls the
    event made for that signature (the last one); otherwise the ledger is
    left as it was.  Hence in every reachable state of either file every
    ledger entry has status "confirmed" and is backed by the cluster
    record: an accepted submission with its signature and an answered poll
    for it.  The answer itself is not inspected: a poll answered with an
    on-chain error is recorded as "confirmed" too. *)
Theorem ledger_records_answered_sweeps_only file ext events :
  let w := run file ext events initial in
  Forall (fun entry => status entry = "confirmed" /\ recorded_sweep ext w entry)
    (transactionLog w) /\
  (forall e w0, event_record ext w0 (step file ext e w0)) /\
  map status
    (transactionLog
       (run file cluster_slow
          [StartMonitoring start_A; AccountChange 0 {| lamports := 1000000 |}] initial))
  = ["confirmed"].
Proof.
  cbv zeta. split; [|split].
  - apply (run_preserves file ext
             (fun w => Forall (fun entry => status entry = "confirmed" /\
                                            recorded_sweep ext w entry)
                         (transactionLog w))).
    + intros e w Hw.
      destruct (step_record file ext e w) as (Hs & Hp & Hcases).
      assert (Hold : Forall (fun entry => status entry = "confirmed" /\
                                          recorded_sweep ext (step file ext e w) entry)
                       (transactionLog w)).
      { eapply Forall_impl; [exact Hw|]. intros entry [Hst Hrec].
        split; [exact Hst|]. exact (recorded_sweep_mono ext _ _ entry Hs Hp Hrec). }
      destruct Hcases as [Hl|(entry & tx & k & c & Hl & Hst & Hsent & Hsend & Hk & Hpolls & Hr)].
      * rewrite Hl. exact Hold.
      * rewrite Hl. apply Forall_app. split; [exact Hold|].
        constructor; [|constructor]. split; [exact Hst|].
        exists (length (sent w)), tx, (length (polled w) + k)%nat.
        rewrite Hsent, Hpolls.
        split; [apply list_lookup_middle; reflexivity|]. split; [exact Hsend|].
        split.
        { rewrite lookup_app_r by lia.
          apply lookup_replicate_2. lia. }
        exists c. exact Hr.
    + constructor.
  - intros e w0. apply step_record.
  - destruct file; vm_compute; reflexivity.
Qed.

(** X8. In every reachable state of either file the ledger has no more
    entries than transactions were submitted, and the cluster was polled at
    most three times per submitted transaction. *)
Theorem ledger_and_polls_bounded_by_submissions file ext events :
  let w := run file ext events initial in
  (length (transactionLog w) <= length (sent w))%nat /\
  (length (polled w) <= 3 * length (sent w))%nat.
Proof.
  cbv zeta.
  apply (run_preserves file ext
           (fun w => (length (transactionLog w) <= length (sent w))%nat /\
                     (length (polled w) <= 3 * length (sent w))%nat)).
  - intros e w [Hl Hp].
    destruct (step_effect file ext e w)
      as [(Hs & Hpp & Hll & _)|(tx & Hs & Hpp & [(Hll & _)|(entry & _ & Hll & _)])];
      rewrite Hs, Hll; rewrite ?Hpp, ?length_app; cbn; lia.
  - cbn. lia.
Qed.

(** X9. In every reachable state of api/index.js there is one broadcast per
    ledger entry, and the broadcast numbered [i] carried the ledger as it
    stood with its first [i + 1] entries; part_000 broadcasts nothing. *)
Theorem broadcasts_follow_the_ledger ext events :
  (let w := run api_index_js ext events initial in
   length (broadcasts w) = length (transactionLog w) /\
   forall i snapshot,
     broadcasts w !! i = Some snapshot -> snapshot = take (S i) (transactionLog w)) /\
  broadcasts (run part_000 ext events initial) = [].
Proof.
  cbv zeta. split.
  - apply (run_preserves api_index_js ext
             (fun w => length (broadcasts w) = length (transactionLog w) /\
                       forall i snapshot,
                         broadcasts w !! i = Some snapshot ->
                         snapshot = take (S i) (transactionLog w))).
    + intros e w [Hlen Hsnap].
      destruct (step_effect api_index_js ext e w)
        as [(_ & _ & Hl & Hb)|(tx & _ & _ & [(Hl & Hb)|(entry & _ & Hl & Hb)])];
        rewrite Hl, Hb; [split; assumption | split; assumption |].
      split; [rewrite !length_app; cbn; lia|].
      intros i snapshot Hi. apply lookup_app_Some in Hi.
      destruct Hi as [Hi|[Hge Hi]].
      * assert (Hlt : (i < length (broadcasts w))%nat)
          by (apply lookup_lt_is_Some; eauto).
        rewrite take_app_le by lia. apply Hsnap, Hi.
      * apply list_lookup_singleton_Some in Hi. destruct Hi as [Hi <-].
        rewrite take_ge; [reflexivity|]. rewrite length_app. cbn. lia.
    + split; [reflexivity|]. intros i snapshot Hi. cbn in Hi.
      rewrite lookup_nil in Hi. discriminate.
  - apply (run_preserves part_000 ext (fun w => broadcasts w = [])); [|reflexivity].
    intros e w Hw.
    destruct (step_effect part_000 ext e w)
      as [(_ & _ & _ & Hb)|(tx & _ & _ & [(_ & Hb)|(entry & _ & _ & Hb)])];
      rewrite Hb, Hw; reflexivity.
Qed.

Lemma broadcasts_follow_the_ledger_witness :
  let w := run api_index_js cluster_ok
             [StartMonitoring start_A;
              AccountChange 0 {| lamports := 1000000 |};
              AccountChange 0 {| lamports := 2000000 |}] initial in
  broadcasts w !! 0%nat = Some [sweep_entry closure_A (per_sol 1000000) "sig"] /\
  [sweep_entry closure_A (per_sol 1000000) "sig"] = take 1 (transactionLog w).
Proof.
  cbv zeta.
  assert (Hs : broadcasts
                 (run api_index_js cluster_ok
                    [StartMonitoring start_A;
                     AccountChange 0 {| lamports := 1000000 |};
                     AccountChange 0 {| lamports := 2000000 |}] initial) !! 0%nat
               = Some [sweep_entry closure_A (per_sol 1000000) "sig"])
    by (vm_compute; reflexivity).
  split; [exact Hs|].
  exact (proj2 (proj1 (broadcasts_follow_the_ledger cluster_ok
                         [StartMonitoring start_A;
                          AccountChange 0 {| lamports := 1000000 |};
                          AccountChange 0 {| lamports := 2000000 |}]))
           0%nat _ Hs).
Defined.

(** ** More on the handlers *)

Lemma token_handler_nothing file ext cl t source w :
  t <= 0 ->
  token_handler file ext cl {| info_amount := t; info_address := source |} w = (Ok tt, w).
Proof.
  intros Ht.
  destruct file; cbn [token_handler];
    [unfold Api.handleTokenAccountChange | unfold Part000.handleTokenAccountChange];
    cbv zeta; cbn [info_amount]; (destruct (Z.ltb_spec 0 t); [lia|]); reflexivity.
Qed.

(** X10. A notification that reports no positive balance (zero or less
    lamports, zero or less tokens) is ignored by the handlers of both
    files: no console line, no transaction, no entry, no error. *)
Theorem nonpositive_notifications_are_ignored file ext cl w :
  (forall b, b <= 0 ->
             native_handler file ext cl {| lamports := b |} w = (Ok tt, w)) /\
  (forall t source, t <= 0 ->
                    token_handler file ext cl
                      {| info_amount := t; info_address := source |} w = (Ok tt, w)).
Proof.
  split.
  - intros b Hb. apply handleAccountChange_nothing. exact Hb.
  - intros t source Ht. apply token_handler_nothing. exact Ht.
Qed.

Lemma nonpositive_notifications_are_ignored_witness :
  native_handler api_index_js cluster_ok closure_A {| lamports := 0 |} initial
  = (Ok tt, initial) /\
  token_handler part_000 cluster_rejecting closure_A_token
    {| info_amount := -5; info_address := "src" |} initial
  = (Ok tt, initial).
Proof.
  split.
  - apply (proj1 (nonpositive_notifications_are_ignored api_index_js cluster_ok
                    closure_A initial) 0). lia.
  - apply (proj2 (nonpositive_notifications_are_ignored part_000 cluster_rejecting
                    closure_A_token initial) (-5) "src"). lia.
Defined.

(** X11. In api/index.js no error of the cluster leaves a handler.  The
    native handler completes normally on every notification but those of
    a balance strictly between 0 and 5000 lamports: for these the transfer
    of a negative amount cannot be built, the error is thrown before the
    [try] block and leaves the handler, with nothing submitted, polled or
    logged.  The token handler completes normally whenever the mint
    address of the watch parses as a public key. *)
Theorem Api_handlers_catch_cluster_errors ext cl w :
  (forall accountInfo,
      ~ (0 < lamports accountInfo < 5000) ->
      fst (Api.handleAccountChange ext cl accountInfo w) = Ok tt) /\
  (forall accountInfo,
      0 < lamports accountInfo < 5000 ->
      let r := Api.handleAccountChange ext cl accountInfo w in
      is_Err (fst r) /\
      sent (snd r) = sent w /\ polled (snd r) = polled w /\
      transactionLog (snd r) = transactionLog w) /\
  (forall accountInfo m mint,
      closure_tokenMintAddress cl = Some m ->
      newPublicKey ext m = Ok mint ->
      fst (Api.handleTokenAccountChange ext cl accountInfo w) = Ok tt).
Proof.
  split; [|split].
  - intros [b] Hout. cbn [lamports] in Hout.
    destruct (Z.lt_ge_cases 0 b) as [Hb|Hb].
    + apply (Api_handleAccountChange_outcome ext cl b w). lia.
    + pose proof (handleAccountChange_nothing api_index_js ext cl b w Hb) as H.
      cbn [native_handler] in H. rewrite H. reflexivity.
  - intros [b] Hb. cbn [lamports] in Hb. cbv zeta.
    rewrite (Api_handleAccountChange_unbuildable ext cl b w Hb).
    repeat split.
  - intros accountInfo m mint Hm Hmint.
    rewrite (Api_handleTokenAccountChange_unfold ext cl m mint accountInfo w Hm Hmint).
    destruct (0 <? info_amount accountInfo); [|reflexivity].
    unfold bind at 1. unfold console_log, modify.
    match goal with |- context [api_try ext ?tx ?sg ?en ?text ?w0] =>
      exact (proj1 (api_try_outcome ext tx sg en text w0))
    end.
Qed.

Lemma Api_handlers_catch_cluster_errors_witness :
  fst (Api.handleAccountChange cluster_rejecting closure_A_token
         {| lamports := 7000 |} initial) = Ok tt /\
  is_Err (fst (Api.handleAccountChange cluster_ok closure_A
                 {| lamports := 4000 |} initial)) /\
  fst (Api.handleTokenAccountChange cluster_rejecting closure_A_token
         {| info_amount := 50; info_address := "src" |} initial) = Ok tt.
Proof.
  split; [|split].
  - apply (proj1 (Api_handlers_catch_cluster_errors cluster_rejecting closure_A_token
                    initial)).
    cbn. lia.
  - apply (proj1 (proj2 (Api_handlers_catch_cluster_errors cluster_ok closure_A initial))
             {| lamports := 4000 |}).
    cbn. lia.
  - apply (proj2 (proj2 (Api_handlers_catch_cluster_errors cluster_rejecting
                           closure_A_token initial))
             _ mint_C mint_C); reflexivity.
Defined.

(** X12. A token sweep that the cluster accepts and confirms within three
    polls logs, in both files, exactly one entry: the signature returned,
    the watched wallet as source, the secure wallet as destination, the
    raw token amount of the notification (not divided by anything) and the
    status "confirmed". *)
Theorem token_sweep_logs_token_amount file ext cl m mint t source sig c w :
  0 < t ->
  closure_tokenMintAddress cl = Some m ->
  newPublicKey ext m = Ok mint ->
  sendTransaction_reply ext (length (sent w))
    (token_transaction ext cl mint {| info_amount := t; info_address := source |})
  = Ok sig ->
  answered ext w sig c ->
  transactionLog
    (snd (token_handler file ext cl {| info_amount := t; info_address := source |} w))
  = transactionLog w
      ++ [{| signature := sig;
             from := publicKey (compromisedWallet cl);
             to := newSecureWalletPublicKey cl;
             amount := inject_Z t;
             status := "confirmed" |}].
Proof.
  intros Ht Hm Hmint Hsend Hans.
  destruct file; cbn [token_handler].
  - rewrite (Api_handleTokenAccountChange_unfold ext cl m mint _ w Hm Hmint).
    cbn [info_amount]. destruct (Z.ltb_spec 0 t) as [_|Hbad]; [|lia].
    unfold bind at 1. unfold console_log, modify.
    match goal with |- context [api_try ext ?tx ?sg ?en ?text ?w0] =>
      destruct (api_try_outcome ext tx sg en text w0) as (_ & _ & _ & H)
    end.
    cbn [sent with_console] in H. rewrite Hsend in H.
    destruct H as [(c' & _ & Hlog & _)|(e & He & _)]; [exact Hlog|].
    destruct (answered_not_exhausted ext w sig c e Hans He).
  - rewrite (Part000_handleTokenAccountChange_unfold ext cl m mint _ w Hm Hmint).
    cbn [info_amount]. destruct (Z.ltb_spec 0 t) as [_|Hbad]; [|lia].
    unfold bind at 1. unfold console_log, modify.
    match goal with |- context [part000_try ext ?tx ?sg ?en ?text ?w0] =>
      destruct (part000_try_outcome ext tx sg en text w0) as (_ & _ & _ & H)
    end.
    cbn [sent with_console] in H. rewrite Hsend in H.
    destruct H as [(c' & _ & _ & Hlog)|(e & He & _)]; [exact Hlog|].
    destruct (answered_not_exhausted ext w sig c e Hans He).
Qed.

Lemma token_sweep_logs_token_amount_witness :
  transactionLog
    (snd (token_handler part_000 cluster_ok closure_A_token
            {| info_amount := 50; info_address := "src" |} initial))
  = [{| signature := "sig"; from := publicKey wallet_A; to := secure_B;
        amount := inject_Z 50; status := "confirmed" |}].
Proof.
  apply (token_sweep_logs_token_amount part_000 cluster_ok closure_A_token mint_C mint_C
           50 "src" "sig" {| value_err := None |} initial).
  - lia.
  - reflexivity.
  - reflexivity.
  - reflexivity.
  - exists 0%nat. split; [lia|]. split; [intros j Hj; lia | reflexivity].
Defined.

(** X13. Neither file looks at the registry or at the listeners inside a
    notification handler: whatever the notification and the cluster, the
    registry, the installed listeners and the handle counter are the same
    after the handler as before. *)
Theorem notifications_leave_watches_alone file ext cl w :
  (forall accountInfo,
      let w' := snd (native_handler file ext cl accountInfo w) in
      monitoringTasks w' = monitoringTasks w /\ subscriptions w' = subscriptions w /\
      nextSubscriptionId w' = nextSubscriptionId w) /\
  (forall accountInfo,
      let w' := snd (token_handler file ext cl accountInfo w) in
      monitoringTasks w' = monitoringTasks w /\ subscriptions w' = subscriptions w /\
      nextSubscriptionId w' = nextSubscriptionId w).
Proof.
  split; intros accountInfo; cbv zeta.
  - destruct (native_handler_keeps file ext cl accountInfo w) as (? & _ & ? & ?). auto.
  - destruct (token_handler_keeps file ext cl accountInfo w) as (? & _ & ? & ?). auto.
Qed.

(** ** More on the registry *)

(** X14. When the key derivation, the parsing of the destination key or
    the lookup of the network throws, start answers 500 with the message
    "Error deriving key pair" and the text of the error, after writing one
    console line; the registry, the listeners, the connections and the
    ledger are as before. *)
Theorem start_monitoring_rejected ext req e w :
  start_rejected ext req e ->
  start_monitoring ext req w
  = (Ok {| http_status := 500; message := "Error deriving key pair";
           body_publicKey := None; body_error := Some (err_message e) |},
     with_console (fun c => c ++ [error_line "Error deriving key pair:" e]) w).
Proof.
  intros [Hkp|[(kp & Hkp & Hdest)|(kp & dest & Hkp & Hdest & Hurl)]].
  - unfold start_monitoring, try_catch, bind at 1, lift. rewrite Hkp. reflexivity.
  - unfold start_monitoring, try_catch, bind at 1 2, lift. rewrite Hkp, Hdest. reflexivity.
  - unfold start_monitoring, try_catch, newConnection, bind at 1 2 3, lift.
    rewrite Hkp, Hdest. unfold bind at 1. rewrite Hurl. reflexivity.
Qed.

Lemma start_monitoring_rejected_witness :
  fst (start_monitoring cluster_strict
         {| seed := ["abandon"]; secureWalletPublicKey := "0OIl"; network := "devnet";
            body_tokenMintAddress := None |} initial)
  = Ok {| http_status := 500; message := "Error deriving key pair";
          body_publicKey := None; body_error := Some "Invalid public key input" |} /\
  subscriptions
    (snd (start_monitoring cluster_strict
            {| seed := ["abandon"]; secureWalletPublicKey := secure_B; network := "localnet";
               body_tokenMintAddress := None |} initial))
  = [].
Proof.
  split.
  - rewrite (start_monitoring_rejected cluster_strict _ invalid_public_key initial);
      [reflexivity|]. right. left. exists wallet_A. split; reflexivity.
  - rewrite (start_monitoring_rejected cluster_strict _ unknown_network initial);
      [reflexivity|]. right. right. exists wallet_A, secure_B. repeat split.
Defined.

Lemma other_account_count a (s : Subscription) (l : list Subscription) :
  sub_account s <> a ->
  length (List.filter (fun s' => String.eqb (sub_account s') a) (l ++ [s]))
  = length (List.filter (fun s' => String.eqb (sub_account s') a) l).
Proof.
  intros Hne. rewrite List.filter_app, length_app. cbn.
  destruct (String.eqb_spec (sub_account s) a); [contradiction|]. cbn. lia.
Qed.

(** X15. A start without mint address (none, or the empty string) whose
    library calls succeed installs exactly one listener: a native one, for
    the address derived from the seed, on the connection the start has
    just created, with the first handle of that connection.  No listener
    of any other address is added or removed, and the ledger is
    untouched. *)
Theorem start_monitoring_installs_one_listener ext req kp dest url w :
  keypairFromSeed ext (String.concat " " (seed req)) = Ok kp ->
  newPublicKey ext (secureWalletPublicKey req) = Ok dest ->
  clusterApiUrl ext (network req) = Ok url ->
  truthy (body_tokenMintAddress req) = false ->
  let w' := snd (start_monitoring ext req w) in
  (exists s,
      subscriptions w' = subscriptions w ++ [s] /\
      sub_account s = publicKey kp /\
      sub_kind s = Native /\
      sub_connection s = {| conn_id := connections w; endpoint := url |} /\
      sub_id s = 0%nat /\
      compromisedWallet (sub_handler s) = kp /\
      newSecureWalletPublicKey (sub_handler s) = dest /\
      closure_tokenMintAddress (sub_handler s) = body_tokenMintAddress req) /\
  connections w' = S (connections w) /\
  (forall a, a <> publicKey kp -> active_subscriptions a w' = active_subscriptions a w) /\
  transactionLog w' = transactionLog w /\
  sent w' = sent w.
Proof.
  intros Hkp Hdest Hurl Hnative. cbv zeta.
  rewrite (start_monitoring_ok ext req kp dest url w Hkp Hdest Hurl Hnative). cbn [snd].
  split; [|split; [reflexivity|split; [|split; reflexivity]]].
  - eexists. split; [reflexivity|]. cbn.
    repeat split. unfold asset_kind. cbn. rewrite Hnative. reflexivity.
  - intros a Ha. unfold active_subscriptions. cbn.
    apply other_account_count. cbn. congruence.
Qed.

Lemma start_monitoring_installs_one_listener_witness :
  map (fun s => (sub_kind s, conn_id (sub_connection s), sub_id s))
    (subscriptions (snd (start_monitoring cluster_strict start_A initial)))
  = [(Native, 0%nat, 0%nat)] /\
  map sub_kind
    (subscriptions
       (snd (start_monitoring cluster_strict
               {| seed := ["abandon"]; secureWalletPublicKey := secure_B;
                  network := "testnet"; body_tokenMintAddress := Some "" |} initial)))
  = [Native].
Proof.
  split.
  - destruct (start_monitoring_installs_one_listener cluster_strict start_A
                wallet_A secure_B "https://api.devnet.solana.com" initial
                eq_refl eq_refl eq_refl eq_refl)
      as ((s & -> & _ & Hkind & Hconn & Hid & _) & _).
    cbn. rewrite Hkind, Hconn, Hid. reflexivity.
  - destruct (start_monitoring_installs_one_listener cluster_strict
                {| seed := ["abandon"]; secureWalletPublicKey := secure_B;
                   network := "testnet"; body_tokenMintAddress := Some "" |}
                wallet_A secure_B "https://api.testnet.solana.com" initial
                eq_refl eq_refl eq_refl eq_refl) as ((s & -> & _ & Hkind & _) & _).
    cbn. rewrite Hkind. reflexivity.
Defined.

Lemma filter_keeps_all {A} (p : A -> bool) (l : list A) :
  (forall x, In x l -> p x = true) -> List.filter p l = l.
Proof.
  induction l as [|x l IH]; intros H; [reflexivity|]. cbn.
  rewrite (H x (or_introl eq_refl)). f_equal. apply IH.
  intros y Hy. apply H. right. exact Hy.
Qed.

Lemma other_connection_not_listener kind c id s :
  conn_id (sub_connection s) <> conn_id c -> negb (listener kind c id s) = true.
Proof.
  intros Hne. unfold listener.
  destruct (Nat.eqb_spec (conn_id (sub_connection s)) (conn_id c)) as [Heq|_];
    [contradiction|].
  reflexivity.
Qed.

(** X16. Start then stop is a round trip: in every reachable state of
    either file, for an address that is not in the registry, a start
    without mint address followed by a stop of the address it answered
    leaves the registry and the installed listeners exactly as they were,
    and the stop answers 200. *)
Theorem start_then_stop_restores file ext events req kp dest url :
  let w := run file ext events initial in
  keypairFromSeed ext (String.concat " " (seed req)) = Ok kp ->
  newPublicKey ext (secureWalletPublicKey req) = Ok dest ->
  clusterApiUrl ext (network req) = Ok url ->
  truthy (body_tokenMintAddress req) = false ->
  monitoringTasks w !! publicKey kp = None ->
  let r := stop_monitoring (publicKey kp) (snd (start_monitoring ext req w)) in
  fst r = Ok stopped /\
  monitoringTasks (snd r) = monitoringTasks w /\
  subscriptions (snd r) = subscriptions w.
Proof.
  cbv zeta. intros Hkp Hdest Hurl Hnative Hnone.
  pose proof (reachable_connections_issued file ext events) as Hissued.
  set (w := run file ext events initial) in *.
  rewrite (start_monitoring_ok ext req kp dest url w Hkp Hdest Hurl Hnative). cbn [snd].
  rewrite (stop_monitoring_present (publicKey kp) (started_task req kp dest url w));
    [|cbn; apply lookup_insert_eq].
  cbn [fst snd]. split; [reflexivity|]. split.
  - cbn. apply delete_insert_id. exact Hnone.
  - cbn. rewrite List.filter_app. cbn [List.filter].
    rewrite listener_of_is_listener. cbn. rewrite app_nil_r.
    apply filter_keeps_all. intros s Hs.
    apply other_connection_not_listener. specialize (Hissued s Hs). cbn. lia.
Qed.

Lemma start_then_stop_restores_witness :
  let w := run api_index_js cluster_two_wallets [StartMonitoring start_D] initial in
  let r := stop_monitoring (publicKey wallet_A)
             (snd (start_monitoring cluster_two_wallets start_A w)) in
  fst r = Ok stopped /\
  monitoringTasks (snd r) = monitoringTasks w /\
  subscriptions (snd r) = subscriptions w.
Proof.
  assert (Hnone : monitoringTasks
                    (run api_index_js cluster_two_wallets [StartMonitoring start_D] initial)
                    !! publicKey wallet_A = None)
    by (vm_compute; reflexivity).
  exact (start_then_stop_restores api_index_js cluster_two_wallets
           [StartMonitoring start_D] start_A wallet_A secure_B
           "https://api.devnet.solana.com" eq_refl eq_refl eq_refl eq_refl Hnone).
Defined.

(** X17. A second start leaks the first listener for good: in every
    reachable state of either file, after two starts without mint address
    for one address and one stop, the registry has no entry for the
    address, yet one more listener is installed for it than before the
    first start, and a further stop answers 400 and removes nothing. *)
Theorem second_start_leaks_first_listener file ext events req kp dest url :
  let w := run file ext events initial in
  keypairFromSeed ext (String.concat " " (seed req)) = Ok kp ->
  newPublicKey ext (secureWalletPublicKey req) = Ok dest ->
  clusterApiUrl ext (network req) = Ok url ->
  truthy (body_tokenMintAddress req) = false ->
  let w2 := snd (start_monitoring ext req (snd (start_monitoring ext req w))) in
  let r := stop_monitoring (publicKey kp) w2 in
  fst r = Ok stopped /\
  monitoringTasks (snd r) !! publicKey kp = None /\
  active_subscriptions (publicKey kp) (snd r)
  = S (active_subscriptions (publicKey kp) w) /\
  stop_monitoring (publicKey kp) (snd r) = (Ok not_found, snd r).
Proof.
  cbv zeta. intros Hkp Hdest Hurl Hnative.
  pose proof (reachable_connections_issued file ext events) as Hissued.
  set (w := run file ext events initial) in *.
  rewrite (start_monitoring_ok ext req kp dest url w Hkp Hdest Hurl Hnative). cbn [snd].
  match goal with |- context [start_monitoring ext req ?w1] =>
    rewrite (start_monitoring_ok ext req kp dest url w1 Hkp Hdest Hurl Hnative);
    set (task2 := started_task req kp dest url w1)
  end.
  cbn [snd].
  rewrite (stop_monitoring_present (publicKey kp) task2); [|cbn; apply lookup_insert_eq].
  cbn [fst snd].
  assert (Hsubs :
    List.filter
      (fun s => negb (listener (asset_kind task2) (connection task2) (subscriptionId task2) s))
      ((subscriptions w ++ [listener_of (publicKey kp) (started_task req kp dest url w)])
         ++ [listener_of (publicKey kp) task2])
    = subscriptions w ++ [listener_of (publicKey kp) (started_task req kp dest url w)]).
  { rewrite List.filter_app. cbn [List.filter].
    rewrite listener_of_is_listener. cbn [negb]. rewrite app_nil_r.
    apply filter_keeps_all. intros s Hs. apply other_connection_not_listener.
    apply List.in_app_iff in Hs. destruct Hs as [Hs|[<-|[]]].
    - specialize (Hissued s Hs). cbn. lia.
    - cbn. lia. }
  split; [reflexivity|]. split; [cbn; apply lookup_delete_eq|]. split.
  - match goal with |- active_subscriptions _ ?st = _ =>
      assert (Hst : subscriptions st
                    = subscriptions w
                        ++ [listener_of (publicKey kp) (started_task req kp dest url w)])
        by exact Hsubs;
      unfold active_subscriptions; rewrite Hst
    end.
    rewrite List.filter_app, length_app. cbn [List.filter listener_of sub_account].
    rewrite String.eqb_refl. cbn. lia.
  - apply stop_monitoring_absent.
    + exact (keypair_address ext _ kp Hkp).
    + cbn. apply lookup_delete_eq.
Qed.

Lemma second_start_leaks_first_listener_witness :
  let w2 := snd (start_monitoring cluster_ok start_A
                   (snd (start_monitoring cluster_ok start_A initial))) in
  let r := stop_monitoring (publicKey wallet_A) w2 in
  active_subscriptions (publicKey wallet_A) (snd r) = 1%nat /\
  fst (stop_monitoring (publicKey wallet_A) (snd r)) = Ok not_found.
Proof.
  cbv zeta.
  destruct (second_start_leaks_first_listener api_index_js cluster_ok [] start_A
              wallet_A secure_B "https://api.devnet.solana.com"
              eq_refl eq_refl eq_refl eq_refl)
    as (_ & _ & Hactive & Hstop).
  change (run api_index_js cluster_ok [] initial) with initial in *.
  split; [rewrite Hactive; reflexivity | rewrite Hstop; reflexivity].
Defined.

(** X18. A stop for a name that every object inherits ("constructor",
    "toString", "__proto__", ...) is not answered 400: in every reachable
    state the lookup finds the inherited property, the route reaches the
    removal call on an undefined connection and throws a [TypeError],
    leaving the state as it was. *)
Theorem stop_monitoring_inherited_name file ext events key :
  In key Object_prototype ->
  let w := run file ext events initial in
  stop_monitoring key w
  = (Err {| err_name := "TypeError";
            err_message := "Cannot read properties of undefined" |}, w).
Proof.
  intros Hin. cbv zeta.
  set (w := run file ext events initial).
  assert (Hex : existsb (String.eqb key) Object_prototype = true).
  { apply existsb_exists. exists key. split; [exact Hin | apply String.eqb_refl]. }
  assert (Hnone : monitoringTasks w !! key = None).
  { destruct (monitoringTasks w !! key) as [task|] eqn:Hreg; [|reflexivity].
    pose proof (reachable_keys_are_addresses file ext events key task Hreg) as Ha.
    rewrite (address_not_inherited key Ha) in Hex. discriminate. }
  unfold stop_monitoring, monitoringTasks_get. rewrite Hnone, Hex. reflexivity.
Qed.

Lemma stop_monitoring_inherited_name_witness :
  fst (stop_monitoring "constructor"
         (run api_index_js cluster_ok [StartMonitoring start_A] initial))
  = Err {| err_name := "TypeError";
           err_message := "Cannot read properties of undefined" |}.
Proof.
  rewrite (stop_monitoring_inherited_name api_index_js cluster_ok
             [StartMonitoring start_A] "constructor").
  - reflexivity.
  - left. reflexivity.
Defined.

(** Listeners on distinct connections: same connection, same listener. *)
Lemma same_connection_same_listener (l : list Subscription) (x y : Subscription) :
  NoDup (map (fun s => conn_id (sub_connection s)) l) ->
  In x l -> In y l ->
  conn_id (sub_connection x) = conn_id (sub_connection y) -> x = y.
Proof.
  induction l as [|s l IH]; intros Hnd Hx Hy Heq; [destruct Hx|].
  cbn in Hnd. apply NoDup_cons in Hnd. destruct Hnd as [Hnot Hnd].
  rewrite list_elem_of_In in Hnot.
  destruct Hx as [<-|Hx], Hy as [<-|Hy].
  - reflexivity.
  - destruct Hnot. rewrite Heq.
    apply (List.in_map (fun s => conn_id (sub_connection s))). exact Hy.
  - destruct Hnot. rewrite <- Heq.
    apply (List.in_map (fun s => conn_id (sub_connection s))). exact Hx.
  - apply IH; assumption.
Qed.

Lemma registered_initial : registered initial.
Proof.
  split; [constructor|]. intros a task Hl. cbn in Hl.
  rewrite lookup_empty in Hl. discriminate.
Qed.

Lemma registered_same_watches w w' : same_watches w w' -> registered w -> registered w'.
Proof.
  intros (Hreg & _ & Hsubs & _) [Hnd Hall]. unfold registered.
  rewrite Hreg, Hsubs. split; assumption.
Qed.

Lemma registered_start ext req w :
  connections_issued w -> registered w ->
  registered (snd (start_monitoring ext req w)).
Proof.
  intros Hissued [Hnd Hall].
  destruct (start_monitoring_cases ext req w)
    as [(kp & dest & url & Hkp & Hdest & Hurl & Hnative)|[(e & ->)|(kp & ->)]];
    [|split; assumption|split; assumption].
  rewrite (start_monitoring_ok ext req kp dest url w Hkp Hdest Hurl Hnative). cbn [snd].
  split; cbn.
  - rewrite map_app. cbn. apply NoDup_app.
    split; [exact Hnd|]. split; [|apply NoDup_singleton].
    intros x Hx Hx'. apply list_elem_of_In in Hx. apply list_elem_of_In in Hx'.
    destruct Hx' as [<-|[]].
    apply List.in_map_iff in Hx. destruct Hx as (s & Heq & Hs).
    specialize (Hissued s Hs). lia.
  - intros a task. rewrite lookup_insert. case_decide as Ha.
    + intros [= <-]. subst a. apply List.in_app_iff. right. left. reflexivity.
    + intros Hl. apply List.in_app_iff. left. apply Hall, Hl.
Qed.

Lemma registered_stop key w : registered w -> registered (snd (stop_monitoring key w)).
Proof.
  intros [Hnd Hall].
  destruct (monitoringTasks w !! key) as [task|] eqn:Hreg.
  - rewrite (stop_monitoring_present key task w Hreg). cbn [snd]. split; cbn.
    + apply NoDup_map_filter. exact Hnd.
    + intros a t Hl. apply lookup_delete_Some in Hl. destruct Hl as [Hne Hl].
      apply List.filter_In. split; [apply Hall, Hl|].
      destruct (listener (asset_kind task) (connection task) (subscriptionId task)
                  (listener_of a t)) eqn:Hlis; [|reflexivity].
      apply listener_spec in Hlis. destruct Hlis as [Hconn _].
      pose proof (same_connection_same_listener _ (listener_of a t) (listener_of key task)
                    Hnd (Hall a t Hl) (Hall key task Hreg) Hconn) as Hsame.
      apply (f_equal sub_account) in Hsame. cbn in Hsame. congruence.
  - unfold stop_monitoring, monitoringTasks_get. rewrite Hreg.
    destruct (existsb (String.eqb key) Object_prototype); split; assumption.
Qed.

(** The three invariants of the watches together, along a run whose starts
    name no registered address. *)
Lemma watches_consistent file ext events : forall w,
  tracked w -> connections_issued w -> registered w ->
  starts_fresh file ext events w = true ->
  tracked (run file ext events w) /\ registered (run file ext events w).
Proof.
  induction events as [|e events IH]; intros w Ht Hi Hr Hfresh; [split; assumption|].
  rewrite run_cons. cbn [starts_fresh] in Hfresh.
  apply andb_prop in Hfresh. destruct Hfresh as [He Hrest].
  apply IH; [| |  | exact Hrest].
  - apply tracked_step; [exact Ht|].
    intros req a -> Ha. rewrite Ha in He. apply bool_decide_eq_true in He. exact He.
  - apply connections_issued_step. exact Hi.
  - destruct e as [req|key|n accountInfo|n accountInfo].
    + cbn [step]. apply registered_start; assumption.
    + cbn [step]. apply registered_stop; assumption.
    + eapply registered_same_watches; [|exact Hr].
      apply step_notification_watches; discriminate.
    + eapply registered_same_watches; [|exact Hr].
      apply step_notification_watches; discriminate.
Qed.

(** X19. As long as no start names an address that is in the registry at
    that moment, registry and listeners agree in every reachable state of
    either file: an address that has an entry has exactly one listener
    installed, the one of its entry, and an address without entry has
    none. *)
Theorem registry_matches_listeners file ext events a :
  starts_fresh file ext events initial = true ->
  let w := run file ext events initial in
  match monitoringTasks w !! a with
  | Some task =>
      List.filter (fun s => String.eqb (sub_account s) a) (subscriptions w)
      = [listener_of a task]
  | None => active_subscriptions a w = 0%nat
  end.
Proof.
  intros Hfresh. cbv zeta.
  destruct (watches_consistent file ext events initial tracked_initial
              (fun s (H : In s []) => match H with end) registered_initial Hfresh)
    as [[Hnd Hall] [_ Hreg]].
  set (w := run file ext events initial) in *.
  destruct (monitoringTasks w !! a) as [task|] eqn:Ha.
  - pose proof (distinct_accounts_one_listener a (subscriptions w) Hnd) as Hle.
    assert (Hin : In (listener_of a task)
                    (List.filter (fun s => String.eqb (sub_account s) a) (subscriptions w))).
    { apply List.filter_In. split; [apply Hreg, Ha|]. cbn. apply String.eqb_refl. }
    destruct (List.filter (fun s => String.eqb (sub_account s) a) (subscriptions w))
      as [|s [|s' l]]; cbn in Hle, Hin.
    + destruct Hin.
    + destruct Hin as [<-|[]]. reflexivity.
    + lia.
  - unfold active_subscriptions. rewrite no_account_no_listener; [reflexivity|].
    intros Hin. apply List.in_map_iff in Hin. destruct Hin as (s & Hacc & Hs).
    destruct (Hall s Hs) as (t & Hl & _). congruence.
Qed.

Lemma registry_matches_listeners_witness :
  let w := run part_000 cluster_ok
             [StartMonitoring start_A; AccountChange 0 {| lamports := 1000000 |}] initial in
  List.filter (fun s => String.eqb (sub_account s) (publicKey wallet_A)) (subscriptions w)
  = [listener_of (publicKey wallet_A)
       (started_task start_A wallet_A secure_B "https://api.devnet.solana.com" initial)].
Proof.
  cbv zeta.
  assert (Hfresh : starts_fresh part_000 cluster_ok
                     [StartMonitoring start_A; AccountChange 0 {| lamports := 1000000 |}]
                     initial = true)
    by (vm_compute; reflexivity).
  pose proof (registry_matches_listeners part_000 cluster_ok
                [StartMonitoring start_A; AccountChange 0 {| lamports := 1000000 |}]
                (publicKey wallet_A) Hfresh) as H.
  cbv zeta in H.
  set (w := run part_000 cluster_ok
              [StartMonitoring start_A; AccountChange 0 {| lamports := 1000000 |}] initial)
    in *.
  assert (Ha : monitoringTasks w !! publicKey wallet_A
               = Some (started_task start_A wallet_A secure_B
                         "https://api.devnet.solana.com" initial))
    by (vm_compute; reflexivity).
  rewrite Ha in H. exact H.
Defined.

Lemma native_only_step file ext e w :
  Forall (fun s => sub_kind s = Native) (subscriptions w) ->
  Forall (fun s => sub_kind s = Native) (subscriptions (step file ext e w)).
Proof.
  intros Hw. destruct e as [req|key|n accountInfo|n accountInfo].
  - cbn [step].
    destruct (start_monitoring_cases ext req w)
      as [(kp & dest & url & Hkp & Hdest & Hurl & Hnative)|[(e & ->)|(kp & ->)]];
      [|exact Hw|exact Hw].
    rewrite (start_monitoring_ok ext req kp dest url w Hkp Hdest Hurl Hnative).
    cbn. apply Forall_app. split; [exact Hw|].
    constructor; [|constructor]. cbn. unfold asset_kind. cbn. rewrite Hnative. reflexivity.
  - cbn [step]. destruct (monitoringTasks w !! key) as [task|] eqn:Hreg.
    + rewrite (stop_monitoring_present key task w Hreg). cbn.
      apply Forall_forall. intros s Hs. apply list_elem_of_In in Hs.
      apply List.filter_In in Hs. destruct Hs as [Hs _].
      rewrite Forall_forall in Hw. apply Hw, list_elem_of_In, Hs.
    + unfold stop_monitoring, monitoringTasks_get. rewrite Hreg.
      destruct (existsb (String.eqb key) Object_prototype); exact Hw.
  - destruct (step_notification_watches file ext (AccountChange n accountInfo) w)
      as (_ & _ & Hsubs & _); [discriminate | discriminate |].
    rewrite Hsubs. exact Hw.
  - destruct (step_notification_watches file ext (TokenAccountChange n accountInfo) w)
      as (_ & _ & Hsubs & _); [discriminate | discriminate |].
    rewrite Hsubs. exact Hw.
Qed.

(** X20. A token watch is never installed.  A start whose request carries
    a non-empty [tokenMintAddress] is never accepted: whatever the state
    and the libraries answer, it answers 500 "Error deriving key pair" and
    leaves the registry, the listeners and the ledger as they were; when
    its three library calls succeed, the error is the one of calling
    [connection.onTokenAccountChange], which is not a function.  Hence in
    every reachable state of either file every installed listener is a
    native one, and a token notification finds no handler to run. *)
Theorem token_watches_are_never_installed ext :
  (forall req w,
      truthy (body_tokenMintAddress req) = true ->
      let r := start_monitoring ext req w in
      (exists e, fst r = Ok (start_failed e)) /\
      monitoringTasks (snd r) = monitoringTasks w /\
      subscriptions (snd r) = subscriptions w /\
      transactionLog (snd r) = transactionLog w /\
      ((exists kp dest url,
           keypairFromSeed ext (String.concat " " (seed req)) = Ok kp /\
           newPublicKey ext (secureWalletPublicKey req) = Ok dest /\
           clusterApiUrl ext (network req) = Ok url) ->
       fst r = Ok (start_failed (not_a_function "connection.onTokenAccountChange")))) /\
  (forall file events,
      let w := run file ext events initial in
      Forall (fun s => sub_kind s = Native) (subscriptions w) /\
      forall n accountInfo, step file ext (TokenAccountChange n accountInfo) w = w).
Proof.
  split.
  - intros req w Htoken. cbv zeta.
    assert (Hres : (exists e,
                       start_monitoring ext req w
                       = (Ok (start_failed e),
                          with_console
                            (fun c => c ++ [error_line "Error deriving key pair:" e]) w)) \/
                   (exists kp,
                       start_monitoring ext req w
                       = (Ok (start_failed (not_a_function "connection.onTokenAccountChange")),
                          after_token_start req kp w))).
    { destruct (start_monitoring_cases ext req w)
        as [(kp & dest & url & _ & _ & _ & Hnative)|[H|H]]; [congruence | left | right];
        exact H. }
    split; [|split; [|split; [|split]]].
    + destruct Hres as [(e & ->)|(kp & ->)]; eexists; reflexivity.
    + destruct Hres as [(e & ->)|(kp & ->)]; reflexivity.
    + destruct Hres as [(e & ->)|(kp & ->)]; reflexivity.
    + destruct Hres as [(e & ->)|(kp & ->)]; reflexivity.
    + intros (kp & dest & url & Hkp & Hdest & Hurl).
      rewrite (start_monitoring_token ext req kp dest url w Hkp Hdest Hurl Htoken).
      reflexivity.
  - intros file events. cbv zeta.
    assert (Hnative : Forall (fun s => sub_kind s = Native)
                        (subscriptions (run file ext events initial))).
    { apply (run_preserves file ext
               (fun w => Forall (fun s => sub_kind s = Native) (subscriptions w))).
      - intros e w. apply native_only_step.
      - constructor. }
    split; [exact Hnative|].
    intros n accountInfo. cbn [step].
    destruct (subscriptions (run file ext events initial) !! n) as [s|] eqn:Hs;
      [|reflexivity].
    rewrite Forall_forall in Hnative.
    rewrite (Hnative s (list_elem_of_lookup_2 _ _ _ Hs)). reflexivity.
Qed.

Lemma token_watches_are_never_installed_witness :
  fst (start_monitoring cluster_ok start_A_token initial)
  = Ok {| http_status := 500; message := "Error deriving key pair";
          body_publicKey := None;
          body_error := Some "connection.onTokenAccountChange is not a function" |} /\
  subscriptions (snd (start_monitoring cluster_ok start_A_token initial)) = [] /\
  monitoringTasks (snd (start_monitoring cluster_ok start_A_token initial)) = ∅.
Proof.
  destruct (proj1 (token_watches_are_never_installed cluster_ok) start_A_token initial
              eq_refl) as (_ & Hreg & Hsubs & _ & Hfst).
  split; [|split; [exact Hsubs | exact Hreg]].
  rewrite Hfst; [reflexivity|].
  exists wallet_A, secure_B, "https://api.devnet.solana.com". repeat split.
Defined.

(** X21. In part_000, for a balance above the fee reserve, the promise of
    the native handler is fulfilled exactly when the cluster accepted the
    transaction and answered one of the three polls; in every other case
    it is rejected with the [ReferenceError] thrown by the [catch] block,
    whatever the original error was. *)
Theorem Part000_native_handler_completion ext cl b w :
  0 < b - 5000 ->
  let r := Part000.handleAccountChange ext cl {| lamports := b |} w in
  let tx := native_transaction cl (b - 5000) in
  (fst r = Ok tt <->
   exists sig c, sendTransaction_reply ext (length (sent w)) tx = Ok sig /\
                 answered ext w sig c) /\
  (fst r = Ok tt \/ fst r = Err SendTransactionError_unbound).
Proof.
  intros Hb. cbv zeta.
  destruct (Part000_handleAccountChange_outcome ext cl b w Hb) as (_ & _ & _ & H).
  destruct (sendTransaction_reply ext (length (sent w)) (native_transaction cl (b - 5000)))
    as [sig|e].
  - destruct H as [(c & Hc & Hfst & _)|(e & He & Hfst & _)]; rewrite Hfst.
    + split; [|left; reflexivity]. split; [|reflexivity].
      intros _. exists sig, c. split; [reflexivity | exact Hc].
    + split; [|right; reflexivity]. split; [discriminate|].
      intros (sig' & c & [= <-] & Hc). destruct (answered_not_exhausted _ _ _ _ _ Hc He).
  - destruct H as (Hfst & _). rewrite Hfst.
    split; [|right; reflexivity]. split; [discriminate|].
    intros (sig' & c & Hsend & _). discriminate.
Qed.

Lemma Part000_native_handler_completion_witness :
  fst (Part000.handleAccountChange cluster_slow closure_A {| lamports := 5001 |} initial)
  = Ok tt /\
  fst (Part000.handleAccountChange cluster_silent closure_A {| lamports := 5001 |} initial)
  = Err SendTransactionError_unbound.
Proof.
  split.
  - apply (proj1 (Part000_native_handler_completion cluster_slow closure_A 5001 initial
                    ltac:(lia))).
    exists "sig", {| value_err := Some "InstructionError" |}. split; [reflexivity|].
    exists 2%nat. split; [lia|]. split; [|reflexivity].
    intros [|[|j]] Hj; simpl; [exact I | exact I | lia].
  - destruct (proj2 (Part000_native_handler_completion cluster_silent closure_A 5001 initial
                       ltac:(lia))) as [H|H]; [|exact H].
    apply (proj1 (Part000_native_handler_completion cluster_silent closure_A 5001 initial
                    ltac:(lia))) in H.
    destruct H as (sig & c & _ & k & Hk & _ & Hok). discriminate.
Defined.
